(** * AQI monitoring: schema normalizer, IQR anomaly detector, dataset store
      and query engine

    A shallow embedding of [main.py] (the detector), [fast_api.py] (the
    loader, the process-wide store and the three query endpoints) and the
    query the dashboard of [streamlit.py] builds, with the properties of
    the design document proved about it.

    Modelling conventions.
    - A pandas frame is a column index together with its rows; a row is a
      finite map from column label to cell.  Column labels are therefore
      unique inside a frame, which is the only situation the endpoints are
      written for; what pandas does with repeated labels is not modelled.
      What is proved about the answers of the endpoints is stated for a
      dataset loaded from a file whose headers give no label twice
      ([loaded_from]).
    - A cell is a number, a string or the null marker.  Numbers are exact
      rationals: binary64 rounding, infinities and overflow are outside the
      model, and NaN is the null marker, as in pandas.  A property that
      rounding can break is stated for values on which the code computes
      exactly ([exact_values]); the thresholds of the detector are also
      given on binary64 numbers, to compare the two on a given input, and
      the [mean] aggregate of the summary is a parameter.
    - Texts are sequences of bytes.  [strip], [lower] and the whitespace
      pattern are the ASCII ones, which is what Python does on ASCII texts;
      what is proved about a filter string or a header is stated for ASCII
      texts ([ascii_text]).
    - [Series.quantile], [Series.median], [pd.to_numeric], [DataFrame.head],
      [groupby(...).agg(...)] and the string methods are library code; they
      are modelled from their documented behaviour.  The text-to-number
      parser behind [pd.to_numeric] is a parameter.
    - Python exceptions are values of [exn]; a function that can raise
      returns a [result].  The store and the file system are threaded
      explicitly through the functions that touch them. *)

From Stdlib Require Import QArith Qround Qabs Qminmax Lqa String Ascii Floats.
From stdpp Require Import base gmap strings list sorting.

Local Open Scope Q_scope.

(** ** Cells, rows and frames *)

Inductive cell :=
| NaN                (* null: NaN / None *)
| Int (z : Z)        (* Python int, int64 *)
| Num (q : Q)        (* Python float, float64 *)
| Str (s : string).  (* Python str *)

#[global] Instance cell_inhabited : Inhabited cell := populate NaN.

(** Numeric view of a cell: [None] for the null marker and for text. *)
Definition num_of (c : cell) : option Q :=
  match c with
  | Int z => Some (inject_Z z)
  | Num q => Some q
  | NaN | Str _ => None
  end.

(** [pd.isna] *)
Definition isna (c : cell) : bool :=
  match c with NaN => true | _ => false end.

Record DataFrame := mkDF {
  columns : list string;
  rows : list (gmap string cell)
}.

(** [name in df.columns] *)
Definition has_col (name : string) (df : DataFrame) : bool :=
  bool_decide (name ∈ columns df).

(** [df[name]] as the list of its cells, in row order. *)
Definition col (name : string) (df : DataFrame) : list cell :=
  (fun r : gmap string cell => r !!! name) <$> rows df.

(** [df[name] = <row-wise value>]: overwrite the column, or append it to
    the column index when it is new. *)
Definition assign (name : string) (f : gmap string cell -> cell)
    (df : DataFrame) : DataFrame :=
  {| columns := if has_col name df then columns df else columns df ++ [name];
     rows := (fun r : gmap string cell => <[name := f r]> r) <$> rows df |}.

(** [Series.empty] *)
Definition is_empty {A} (l : list A) : bool :=
  match l with [] => true | _ => false end.

(** [len(df)] *)
Definition len (df : DataFrame) : nat := length (rows df).

(** ** Exceptions *)

Inductive message :=
| ExpectedValueColumn
    (* "Expected a 'Value' column in the dataframe." *)
| ColumnsMismatch (missing normalized original : list string).
    (* "Your CSV column names don't match what the API expects.\n"
       "Missing logical fields: {missing}\n"
       "CSV columns after normalization: {normalized}\n"
       "Original CSV columns: {original}" *)

Inductive exn :=
| FileNotFoundError (path : string)
| ValueError (m : message)
| KeyError (label : string)
| TypeError.

Inductive result (A : Type) :=
| Ok (a : A)
| Raise (e : exn).
Arguments Ok {A} a.
Arguments Raise {A} e.

(** ** Order statistics (pandas / numpy) *)

(** Strict comparison of two numbers, as a boolean. *)
Definition Qlt_bool (x y : Q) : bool := negb (Qle_bool y x).

#[global] Instance Qle_decision (x y : Q) : Decision (x <= y).
Proof.
  destruct (Qle_bool x y) eqn:E.
  - left. by apply Qle_bool_iff.
  - right. intros H. apply Qle_bool_iff in H. congruence.
Defined.

(** [Series.dropna()] on a numeric series. *)
Definition dropna (cs : list cell) : list Q := omap num_of cs.

(** [Series.quantile(q)] with the default [interpolation="linear"]: on the
    sorted values [s] of length [n], the virtual index is [(n-1)*q]; the
    result interpolates linearly between the two neighbouring order
    statistics. *)
Definition quantile (q : Q) (xs : list Q) : Q :=
  let s := merge_sort Qle xs in
  let last := (Z.of_nat (length s) - 1)%Z in
  let virtual_index := inject_Z last * q in
  let previous := Qfloor virtual_index in
  let next := Z.min (previous + 1) last in
  let gamma := virtual_index - inject_Z previous in
  let lo := nth (Z.to_nat previous) s 0 in
  let hi := nth (Z.to_nat next) s 0 in
  lo + (hi - lo) * gamma.

(** [Series.median()]: the middle order statistic, or the mean of the two
    middle ones when the length is even. *)
Definition median (xs : list Q) : Q :=
  let s := merge_sort Qle xs in
  let n := length s in
  if Nat.even n
  then (nth (n / 2 - 1) s 0 + nth (n / 2) s 0) / 2
  else nth (n / 2) s 0.

Section Program.

(** The parser of [pd.to_numeric] for text cells; [None] when the text is
    not a number. *)
Variable parse_number : string -> option Q.

(** [pd.to_numeric(_, errors="coerce")], cell by cell.  A cell holds a
    finite number or the null marker: the infinities, which pandas reads
    from texts such as [inf], have no cell here. *)
Definition to_numeric (c : cell) : cell :=
  match c with
  | Str s => match parse_number s with Some q => Num q | None => NaN end
  | _ => c
  end.

(** ** [main.py]: [detect_anomalies] *)

(** [v < lower_bound or v > upper_bound] *)
Definition lt_or_gt (v lower_bound upper_bound : Q) : bool :=
  Qlt_bool v lower_bound || Qlt_bool upper_bound v.

(** The two closures applied to the coerced column; [pd.isna(v)] is the
    case where the cell has no number. *)
Definition _is_anomaly (lower_bound upper_bound : Q) (v : cell) : Z :=
  match num_of v with
  | None => 0
  | Some x => Z.b2z (lt_or_gt x lower_bound upper_bound)
  end.

Definition _score (lower_bound upper_bound median : Q) (v : cell) : Q :=
  match num_of v with
  | None => 0.0
  | Some x =>
      if lt_or_gt x lower_bound upper_bound then Qabs (x - median) else 0.0
  end.

(** The function works on [df.copy()]: the argument is left as it was,
    which a pure function does by construction. *)
Definition detect_anomalies (df : DataFrame) : result DataFrame :=
  if negb (has_col "Value" df) then Raise (ValueError ExpectedValueColumn)
  else
    let df := assign "Value" (fun r => to_numeric (r !!! "Value")) df in
    let value_series := dropna (col "Value" df) in
    if is_empty value_series then
      let df := assign "is_anomaly" (fun _ => Int 0) df in
      let df := assign "anomaly_score" (fun _ => Num 0.0) df in
      Ok df
    else
      let q1 := quantile 0.25 value_series in
      let q3 := quantile 0.75 value_series in
      let iqr := q3 - q1 in
      let lower_bound := q1 - 1.5 * iqr in
      let upper_bound := q3 + 1.5 * iqr in
      let median := median value_series in
      let df := assign "is_anomaly"
                  (fun r => Int (_is_anomaly lower_bound upper_bound
                                   (r !!! "Value"))) df in
      let df := assign "anomaly_score"
                  (fun r => Num (_score lower_bound upper_bound median
                                   (r !!! "Value"))) df in
      Ok df.

(** ** [main.py]: the thresholds on binary64 numbers *)











(** ** String methods used by the loader and by the filters *)

(** A text is the sequence of the bytes of its UTF-8 encoding.
    [str.isspace] holds of 29 characters.  In ASCII, one byte each: the
    characters 9 to 13 and 28 to 32. *)
Definition is_space (c : ascii) : bool :=
  let n := nat_of_ascii c in
  ((9 <=? n) && (n <=? 13) || (28 <=? n) && (n <=? 32))%nat.

(** U+0085 and U+00A0, two bytes each: C2 85 and C2 A0. *)
Definition is_space2 (a b : ascii) : bool :=
  let a := nat_of_ascii a in
  let b := nat_of_ascii b in
  ((a =? 194) && ((b =? 133) || (b =? 160)))%nat.

(** Three bytes each: U+1680 (E1 9A 80), U+2000 to U+200A (E2 80 80 to
    E2 80 8A), U+2028, U+2029 and U+202F (E2 80 A8, E2 80 A9, E2 80 AF),
    U+205F (E2 81 9F) and U+3000 (E3 80 80). *)
Definition is_space3 (a b c : ascii) : bool :=
  let a := nat_of_ascii a in
  let b := nat_of_ascii b in
  let c := nat_of_ascii c in
  ((a =? 225) && (b =? 154) && (c =? 128)
   || (a =? 226) && (b =? 128) &&
      ((128 <=? c) && (c <=? 138) || (c =? 168) || (c =? 169) || (c =? 175))
   || (a =? 226) && (b =? 129) && (c =? 159)
   || (a =? 227) && (b =? 128) && (c =? 128))%nat.

(** The rest of [s] after its first character, when that is whitespace. *)
Definition skip_space (s : string) : option string :=
  match s with
  | EmptyString => None
  | String a s1 =>
      if is_space a then Some s1
      else match s1 with
           | EmptyString => None
           | String b s2 =>
               if is_space2 a b then Some s2
               else match s2 with
                    | EmptyString => None
                    | String c s3 => if is_space3 a b c then Some s3 else None
                    end
           end
  end.

(** [str.lstrip()]: the text without the whitespace characters it begins
    with. *)
Fixpoint lstrip (s : string) : string :=
  match s with
  | EmptyString => EmptyString
  | String a s1 =>
      if is_space a then lstrip s1
      else match s1 with
           | EmptyString => s
           | String b s2 =>
               if is_space2 a b then lstrip s2
               else match s2 with
                    | EmptyString => s
                    | String c s3 => if is_space3 a b c then lstrip s3 else s
                    end
           end
  end.

(** [s] is made of whitespace characters only. *)
Fixpoint all_space (s : string) : bool :=
  match s with
  | EmptyString => true
  | String a s1 =>
      if is_space a then all_space s1
      else match s1 with
           | EmptyString => false
           | String b s2 =>
               if is_space2 a b then all_space s2
               else match s2 with
                    | EmptyString => false
                    | String c s3 => is_space3 a b c && all_space s3
                    end
           end
  end.

(** [str.rstrip()]: the text up to the point from which only whitespace
    characters follow. *)
Fixpoint rstrip (s : string) : string :=
  match s with
  | EmptyString => EmptyString
  | String c s' => if all_space s then EmptyString else String c (rstrip s')
  end.

(** [str.strip()] *)
Definition strip (s : string) : string := rstrip (lstrip s).

Definition lower_char (c : ascii) : ascii :=
  let n := nat_of_ascii c in
  if ((65 <=? n) && (n <=? 90))%nat then ascii_of_nat (n + 32) else c.

(** [str.lower()] on ASCII letters; capitals outside ASCII are left as
    they are. *)
Fixpoint lower (s : string) : string :=
  match s with
  | EmptyString => EmptyString
  | String c s' => String (lower_char c) (lower s')
  end.

(** [re.sub(r"\s+", "_", s)]: every maximal run of ASCII whitespace
    becomes one underscore.  [in_run] tells that the previous character was
    whitespace. *)
Fixpoint replace_spaces (in_run : bool) (s : string) : string :=
  match s with
  | EmptyString => EmptyString
  | String c s' =>
      if is_space c
      then if in_run then replace_spaces true s'
           else String "_" (replace_spaces true s')
      else String c (replace_spaces false s')
  end.

(** [.str.strip().str.lower().str.replace(r"\s+", "_", regex=True)] *)
Definition normalize (h : string) : string :=
  replace_spaces false (lower (strip h)).

(** [s.split(",")]: never empty; [",".join] is its inverse. *)
Fixpoint split_comma (s : string) : list string :=
  match s with
  | EmptyString => [EmptyString]
  | String c s' =>
      if Ascii.eqb c "," then EmptyString :: split_comma s'
      else match split_comma s' with
           | t :: ts => String c t :: ts
           | [] => [String c EmptyString]
           end
  end.

(** ** [fast_api.py]: the loader *)

Definition CSV_PATH : string := "preprocessed_openaq_ready.csv".

(** What [pd.read_csv] hands back: the header line and the data lines, cell
    by cell in column order. *)
Record RawTable := mkRaw {
  header : list string;
  body : list (list cell)
}.

(** The file at [CSV_PATH]: [None] when [os.path.exists] is false, else the
    outcome of [pd.read_csv] on it. *)
Definition FileSystem := option (result RawTable).

(** The frame read from the file, relabelled with [labels]. *)
Definition frame (labels : list string) (lines : list (list cell)) : DataFrame :=
  {| columns := labels;
     rows := (fun cells => list_to_map (zip labels cells)) <$> lines |}.

(** [find_col]: the first of [possible_names] that is a column. *)
Fixpoint find_col (cols : list string) (possible_names : list string)
    : option string :=
  match possible_names with
  | [] => None
  | name :: rest =>
      if bool_decide (name ∈ cols) then Some name else find_col cols rest
  end.

(** A dict display [{k1: v1, ...}] whose keys may be [None]: later entries
    win, and a [None] key never matches a column label. *)
Definition dict_of (entries : list (option string * string))
    : gmap string string :=
  foldl (fun d kv => match kv.1 with
                     | Some k => <[k := kv.2]> d
                     | None => d
                     end) ∅ entries.

(** [df.rename(columns=d)] *)
Definition rename (d : gmap string string) (df : DataFrame) : DataFrame :=
  let new c := default c (d !! c) in
  {| columns := new <$> columns df;
     rows := (fun r : gmap string cell =>
                list_to_map ((fun c => (new c, r !!! c)) <$> columns df))
             <$> rows df |}.

Definition is_None {A} (o : option A) : bool :=
  match o with None => true | Some _ => false end.

(** The names the first comprehension of the loader collects: the keys of
    [required_logical], in order, whose value is [None], apart from
    ["Coordinates"] and ["Source_Name"]. *)
Definition unresolved (required_logical : list (string * option string))
    : list string :=
  (fun kv => kv.1) <$>
  List.filter (fun kv : string * option string =>
                 is_None kv.2 &&
                 negb (bool_decide (kv.1 ∈ ["Coordinates"; "Source_Name"])))
              required_logical.

Definition _load_and_prepare_data (fs : FileSystem) : result DataFrame :=
  match fs with
  | None => Raise (FileNotFoundError CSV_PATH)
  | Some (Raise e) => Raise e
  | Some (Ok raw) =>
    let original_cols := header raw in
    let cols := normalize <$> original_cols in
    let df := frame cols (body raw) in
    let col_country_code := find_col cols ["country_code"; "countrycode"; "code"] in
    let col_city := find_col cols ["city"] in
    let col_location := find_col cols ["location"; "station"; "site"] in
    let col_latitude := find_col cols ["latitude"; "lat"] in
    let col_longitude := find_col cols ["longitude"; "lon"] in
    let col_coordinates := Some "NOT_USED"%string in
    let col_pollutant := find_col cols ["pollutant"; "parameter"] in
    let col_source_name := find_col cols ["source_name"; "sourcename"; "source"] in
    let col_unit := find_col cols ["unit"] in
    let col_value := find_col cols ["value"; "concentration"] in
    let col_last_updated :=
      find_col cols ["last_updated"; "date_local"; "date"; "timestamp"] in
    let col_country_label := find_col cols ["country_label"; "country"] in
    let required_logical : list (string * option string) :=
      [ ("Country_Code", col_country_code);
        ("City", col_city);
        ("Location", col_location);
        ("Coordinates", col_coordinates);
        ("Pollutant", col_pollutant);
        ("Source_Name", col_source_name);
        ("Unit", col_unit);
        ("Value", col_value);
        ("Last_Updated", col_last_updated);
        ("Country_Label", col_country_label) ]%string in
    let missing_logical := unresolved required_logical in
    let missing_logical :=
      if is_None col_latitude || is_None col_longitude
      then missing_logical ++ ["Latitude/Longitude"%string]
      else missing_logical in
    if negb (is_empty missing_logical) then
      Raise (ValueError (ColumnsMismatch missing_logical cols original_cols))
    else
      let '(df, col_source_name) :=
        match col_source_name with
        | None => (assign "Source_Name" (fun _ => Str "Unknown Source") df,
                   Some "Source_Name"%string)
        | Some _ => (df, col_source_name)
        end in
      let rename_dict :=
        dict_of [ (col_country_code, "Country_Code");
                  (col_city, "City");
                  (col_location, "Location");
                  (col_pollutant, "Pollutant");
                  (col_source_name, "Source_Name");
                  (col_unit, "Unit");
                  (col_value, "Value");
                  (col_last_updated, "Last_Updated");
                  (col_country_label, "Country_Label");
                  (col_latitude, "lat");
                  (col_longitude, "lon") ]%string in
      let df := rename rename_dict df in
      let df := assign "lat" (fun r => to_numeric (r !!! "lat")) df in
      let df := assign "lon" (fun r => to_numeric (r !!! "lon")) df in
      detect_anomalies df
  end.

(** ** [fast_api.py]: the store *)

(** The process state the endpoints share: [app.state.df] ([None] also
    when the attribute was never set, as [getattr(app.state, "df", None)]
    reads it), and a ghost counter of the runs of the loader. *)
Record World := mkWorld {
  df : option DataFrame;
  loads : nat
}.

(** Computations that read and write the store and may raise; a raised
    exception keeps the writes made before it. *)
Definition M (A : Type) : Type := World -> result A * World.

Definition ret {A} (a : A) : M A := fun w => (Ok a, w).
Definition bind {A B} (c : M A) (k : A -> M B) : M B :=
  fun w => match c w with
           | (Ok a, w') => k a w'
           | (Raise e, w') => (Raise e, w')
           end.
(** [try: c except Exception as e: h e] *)
Definition try_except {A} (c : M A) (h : exn -> M A) : M A :=
  fun w => match c w with
           | (Ok a, w') => (Ok a, w')
           | (Raise e, w') => h e w'
           end.
Definition lift {A} (r : result A) : M A := fun w => (r, w).

Notation "'let*' x ':=' c 'in' k" := (bind c (fun x => k))
  (at level 10, x name, c at level 100, k at level 200).

(** One run of [_load_and_prepare_data] against the file system [fs]. *)
Definition load (fs : FileSystem) : M DataFrame :=
  fun w => (_load_and_prepare_data fs, mkWorld (df w) (S (loads w))).

(** [app.state.df = v] *)
Definition set_df (v : option DataFrame) : M unit :=
  fun w => (Ok tt, mkWorld v (loads w)).

(** [getattr(app.state, "df", None)] *)
Definition getattr_df : M (option DataFrame) := fun w => (Ok (df w), w).

(** [startup_event]; the two [print] calls write to the console only. *)
Definition startup_event (fs : FileSystem) : M unit :=
  try_except
    (let* d := load fs in
     set_df (Some d))
    (fun e => set_df None).

Definition get_df (fs : FileSystem) : M DataFrame :=
  let* d := getattr_df in
  match d with
  | None =>
      let* d := load fs in
      let* _ := set_df (Some d) in
      ret d
  | Some d => ret d
  end.

Record Health := mkHealth { status : string; data_loaded : bool }.

(** [health] reads [app.state.df] directly.  The application calls
    [startup_event] before it serves a request, and [startup_event] always
    assigns the attribute; read before any assignment the attribute would
    raise [AttributeError], a state [World] does not tell apart from the
    attribute holding [None]. *)
Definition health : M Health :=
  fun w => (Ok (mkHealth "ok" (negb (is_None (df w)))), w).

(** ** Frame operations of the query engine *)

(** [df[name]]: [KeyError] when there is no such column. *)
Definition getitem (name : string) (d : DataFrame) : result (list cell) :=
  if has_col name d then Ok (col name d) else Raise (KeyError name).

(** [df[mask]], the mask being given row by row. *)
Definition select (p : gmap string cell -> bool) (d : DataFrame) : DataFrame :=
  {| columns := columns d; rows := List.filter p (rows d) |}.

(** [x in values] for one cell of [Series.isin(values)], [values] being
    strings: a null or numeric cell is not among them. *)
Definition isin (values : list string) (c : cell) : bool :=
  match c with
  | Str s => bool_decide (s ∈ values)
  | _ => false
  end.

(** [x == 1] for one cell of [Series == 1]. *)
Definition eq_one (c : cell) : bool :=
  match num_of c with
  | Some q => Qeq_bool q 1
  | None => false
  end.

(** [df[df[name].isin(values)]] *)
Definition where_isin (name : string) (values : list string) (d : DataFrame)
    : result DataFrame :=
  if has_col name d
  then Ok (select (fun r => isin values (r !!! name)) d)
  else Raise (KeyError name).

(** [df[df[name] == 1]] *)
Definition where_eq_one (name : string) (d : DataFrame) : result DataFrame :=
  if has_col name d
  then Ok (select (fun r => eq_one (r !!! name)) d)
  else Raise (KeyError name).

(** [df.head(n)]: the first [n] rows, or all but the last [-n] rows when
    [n] is negative. *)
Definition head (n : Z) (d : DataFrame) : DataFrame :=
  {| columns := columns d;
     rows := if (0 <=? n)%Z
             then take (Z.to_nat n) (rows d)
             else take (length (rows d) - Z.to_nat (- n)) (rows d) |}.

(** [df[[l1, ..., ln]]]: [KeyError] when a label is not a column. *)
Definition getitem_list (labels : list string) (d : DataFrame)
    : result DataFrame :=
  match List.find (fun l => negb (has_col l d)) labels with
  | Some l => Raise (KeyError l)
  | None =>
      Ok {| columns := labels;
            rows := (fun r : gmap string cell =>
                       list_to_map ((fun l => (l, r !!! l)) <$> labels))
                    <$> rows d |}
  end.

(** [df.to_dict(orient="records")] *)
Definition to_records (d : DataFrame) : list (gmap string cell) := rows d.

(** ** [fast_api.py]: [/map-data] *)

(** Truth value of an [Optional[str]]: [None] and [""] are false. *)
Definition truthy (o : option string) : bool :=
  match o with
  | Some (String _ _) => true
  | _ => false
  end.

(** [[c.strip() for c in s.split(",") if c.strip()]] *)
Definition tokens (s : string) : list string :=
  omap (fun c => if truthy (Some (strip c)) then Some (strip c) else None)
       (split_comma s).

Definition record_columns : list string :=
  [ "Country_Code"; "Country_Label"; "City"; "Location"; "Pollutant";
    "Source_Name"; "Unit"; "Value"; "Last_Updated"; "lat"; "lon";
    "is_anomaly"; "anomaly_score" ]%string.

Record MapData := mkMapData {
  count : Z;
  data : list (gmap string cell)
}.

Definition bind_result {A B} (r : result A) (k : A -> result B) : result B :=
  match r with
  | Ok a => k a
  | Raise e => Raise e
  end.

Definition map_data (fs : FileSystem) (country pollutant : option string)
    (only_anomalies : bool) (limit : Z) : M MapData :=
  let* d := get_df fs in
  lift (
    let filtered := d in
    bind_result
      (if truthy country
       then let country_list := tokens (default "" country) in
            where_isin "Country_Label" country_list filtered
       else Ok filtered) (fun filtered =>
    bind_result
      (if truthy pollutant
       then let pollutant_list := tokens (default "" pollutant) in
            where_isin "Pollutant" pollutant_list filtered
       else Ok filtered) (fun filtered =>
    bind_result
      (if only_anomalies
       then where_eq_one "is_anomaly" filtered
       else Ok filtered) (fun filtered =>
    let filtered := head limit filtered in
    bind_result (getitem_list record_columns filtered) (fun projected =>
    Ok {| count := Z.of_nat (len filtered);
          data := to_records projected |}))))).

(** ** Distinct values, ordering and grouping (pandas) *)

(** [==] on two cells: text with text, number with number; the null marker
    equals nothing. *)
Definition cell_eqb (a b : cell) : bool :=
  match a, b with
  | Str s, Str t => String.eqb s t
  | _, _ =>
      match num_of a, num_of b with
      | Some x, Some y => Qeq_bool x y
      | _, _ => false
      end
  end.

(** The order [sorted] and [groupby] put cells in: numbers by value, text
    by code point; in a group index of mixed type the numbers come first. *)
Definition cell_leb (a b : cell) : bool :=
  match a, b with
  | Str s, Str t => String.leb s t
  | NaN, NaN => true
  | NaN, _ => false
  | _, NaN => true
  | Str _, _ => false
  | _, Str _ => true
  | _, _ =>
      match num_of a, num_of b with
      | Some x, Some y => Qle_bool x y
      | _, _ => true
      end
  end.

Definition cell_le (a b : cell) : Prop := cell_leb a b = true.

#[global] Instance cell_le_decision (a b : cell) : Decision (cell_le a b).
Proof. unfold cell_le. apply _. Defined.

(** [Series.dropna()] on a series of any type. *)
Definition notna (cs : list cell) : list cell :=
  List.filter (fun c => negb (isna c)) cs.

(** [Series.unique()]: the distinct values in order of first appearance. *)
Fixpoint unique (cs : list cell) : list cell :=
  match cs with
  | [] => []
  | c :: cs' => c :: List.filter (fun c' => negb (cell_eqb c c')) (unique cs')
  end.

(** [Series.nunique()]: the null marker is not counted. *)
Definition nunique (cs : list cell) : Z :=
  Z.of_nat (length (unique (notna cs))).

Definition is_text (c : cell) : bool :=
  match c with Str _ => true | _ => false end.

(** Python's [sorted] on a list of non-null cells: comparing text with a
    number raises [TypeError]. *)
Definition sorted (cs : list cell) : result (list cell) :=
  if existsb is_text cs && existsb (fun c => negb (is_text c)) cs
  then Raise TypeError
  else Ok (merge_sort cell_le cs).

(** The [mean] aggregate on a non-empty list of numbers.  pandas computes
    it in binary64 and rounds on the way, so that the result need not be
    the exact mean of the values (the mean of three copies of 0.1 comes out
    above 0.1); it is a parameter of the development. *)
Variable mean : list Q -> Q.

(** The four aggregates of [.agg(["count", "mean", "min", "max"])] on the
    values of one group; each skips the null marker, and the last three are
    null when nothing is left. *)
Definition agg_count (vs : list cell) : Z := Z.of_nat (length (dropna vs)).

Definition agg_mean (vs : list cell) : cell :=
  match dropna vs with
  | [] => NaN
  | xs => Num (mean xs)
  end.

Definition agg_min (vs : list cell) : cell :=
  match dropna vs with
  | [] => NaN
  | x :: xs => Num (foldl Qmin x xs)
  end.

Definition agg_max (vs : list cell) : cell :=
  match dropna vs with
  | [] => NaN
  | x :: xs => Num (foldl Qmax x xs)
  end.

(** One line of a summary table, after [reset_index], [rename] and
    [to_dict(orient="records")]; [group_key] is the entry under the label
    of the grouping column. *)
Record GroupRow := mkGroupRow {
  group_key : cell;
  num_measurements : Z;
  avg_value : cell;
  min_value : cell;
  max_value : cell
}.

(** [df.groupby(key)[value].agg(["count", "mean", "min", "max"])]: one line
    per distinct non-null key, in sorted key order. *)
Definition groupby_agg (key value : string) (d : DataFrame)
    : result (list GroupRow) :=
  if negb (has_col key d) then Raise (KeyError key)
  else if negb (has_col value d) then Raise (KeyError value)
  else
    let keys := merge_sort cell_le (unique (notna (col key d))) in
    Ok ((fun k =>
           let vs := col value (select (fun r => cell_eqb k (r !!! key)) d) in
           mkGroupRow k (agg_count vs) (agg_mean vs) (agg_min vs) (agg_max vs))
        <$> keys).

(** ** [fast_api.py]: [/filters] and [/summary] *)

Record Filters := mkFilters {
  countries : list cell;
  pollutants : list cell;
  cities : list cell
}.

Definition filters (fs : FileSystem) : M Filters :=
  let* d := get_df fs in
  lift (
    bind_result (getitem "Country_Label" d) (fun c =>
    bind_result (sorted (unique (notna c))) (fun countries =>
    bind_result (getitem "Pollutant" d) (fun p =>
    bind_result (sorted (unique (notna p))) (fun pollutants =>
    bind_result (getitem "City" d) (fun c =>
    bind_result (sorted (unique (notna c))) (fun cities =>
    Ok (mkFilters countries pollutants cities)))))))).

Record Summary := mkSummary {
  total_rows : Z;
  num_countries : Z;
  num_cities : Z;
  num_pollutants : Z;
  summary_by_country : list GroupRow;
  summary_by_pollutant : list GroupRow
}.

Definition summary (fs : FileSystem) : M Summary :=
  let* d := get_df fs in
  lift (
    bind_result (groupby_agg "Country_Label" "Value" d)
      (fun summary_by_country =>
    bind_result (groupby_agg "Pollutant" "Value" d)
      (fun summary_by_pollutant =>
    bind_result (getitem "Country_Label" d) (fun country_label =>
    bind_result (getitem "City" d) (fun city =>
    bind_result (getitem "Pollutant" d) (fun pollutant =>
    Ok {| total_rows := Z.of_nat (len d);
          num_countries := nunique country_label;
          num_cities := nunique city;
          num_pollutants := nunique pollutant;
          summary_by_country := summary_by_country;
          summary_by_pollutant := summary_by_pollutant |})))))).

(** ** [streamlit.py]: the query of [fetch_map_data] *)

(** [str(b)] *)
Definition str_bool (b : bool) : string :=
  if b then "True"%string else "False"%string.

(** [",".join(parts)] *)
Definition join_comma (parts : list string) : string :=
  String.concat "," parts.

(** The [params] dict [fetch_map_data] builds from the selections of the
    sidebar.  The request it is sent with and the decoding of the reply
    belong to [requests] and are not part of this development. *)
Definition fetch_map_data_params
    (countries_selected pollutants_selected : list string)
    (only_anomalies : bool) : gmap string string :=
  let params : gmap string string :=
    {[ "only_anomalies"%string := lower (str_bool only_anomalies) ]} in
  let params :=
    if negb (is_empty countries_selected)
    then <["country"%string := join_comma countries_selected]> params
    else params in
  let params :=
    if negb (is_empty pollutants_selected)
    then <["pollutant"%string := join_comma pollutants_selected]> params
    else params in
  params.

(** * Specification-side definitions *)

(** ** The detector, in the words of the design document *)

(** The values the thresholds are computed from: the non-null entries of
    the coerced [Value] column. *)
Definition value_series (d : DataFrame) : list Q :=
  dropna (to_numeric <$> col "Value" d).

(** The two thresholds [detect_anomalies] computes from the values [xs]. *)
Definition lower_fence (xs : list Q) : Q :=
  quantile 0.25 xs - 1.5 * (quantile 0.75 xs - quantile 0.25 xs).

Definition upper_fence (xs : list Q) : Q :=
  quantile 0.75 xs + 1.5 * (quantile 0.75 xs - quantile 0.25 xs).

(** The row the detector makes of [r] when the thresholds are
    [lower_bound], [upper_bound] and the centre is [m]. *)
Definition labelled (lower_bound upper_bound m : Q) (r : gmap string cell)
    : gmap string cell :=
  let v := to_numeric (r !!! "Value") in
  <["anomaly_score" := Num (_score lower_bound upper_bound m v)]>
    (<["is_anomaly" := Int (_is_anomaly lower_bound upper_bound v)]>
       (<["Value" := v]> r)).




(** The invariant of a labelled record. *)
Definition well_labelled (r : gmap string cell) : Prop :=
  (r !!! "is_anomaly" = Int 0 \/ r !!! "is_anomaly" = Int 1) /\
  exists sc, r !!! "anomaly_score" = Num sc /\ 0 <= sc /\
             (r !!! "is_anomaly" = Int 0 -> sc == 0).

(** ** The schema normalizer, in the words of the design document *)

(** The logical fields of the canonical schema. *)
Inductive logical_field :=
| F_country_code | F_city | F_location | F_pollutant | F_unit | F_value
| F_last_updated | F_country_label | F_latitude | F_longitude
| F_source_name.

(** The ordered aliases a logical field is resolved against. *)
Definition aliases (f : logical_field) : list string :=
  match f with
  | F_country_code => ["country_code"; "countrycode"; "code"]
  | F_city => ["city"]
  | F_location => ["location"; "station"; "site"]
  | F_pollutant => ["pollutant"; "parameter"]
  | F_unit => ["unit"]
  | F_value => ["value"; "concentration"]
  | F_last_updated => ["last_updated"; "date_local"; "date"; "timestamp"]
  | F_country_label => ["country_label"; "country"]
  | F_latitude => ["latitude"; "lat"]
  | F_longitude => ["longitude"; "lon"]
  | F_source_name => ["source_name"; "sourcename"; "source"]
  end%string.

(** The logical field an alias belongs to. *)
Definition owner (alias : string) : option logical_field :=
  List.find (fun f => bool_decide (alias ∈ aliases f))
            [ F_country_code; F_city; F_location; F_pollutant; F_unit;
              F_value; F_last_updated; F_country_label; F_latitude;
              F_longitude; F_source_name ].

(** Every logical field is required, apart from [source_name]. *)
Definition required (f : logical_field) : bool :=
  match f with F_source_name => false | _ => true end.

(** A field is resolved when one of its aliases is a normalized header. *)
Definition is_resolved (cols : list string) (f : logical_field) : bool :=
  negb (is_None (find_col cols (aliases f))).

(** The logical fields an entry of the error's list of missing fields
    names: an entry names the field it spells; the combined entry names
    both coordinates. *)
Definition names (entry : string) (f : logical_field) : bool :=
  match f with
  | F_country_code => String.eqb entry "Country_Code"
  | F_city => String.eqb entry "City"
  | F_location => String.eqb entry "Location"
  | F_pollutant => String.eqb entry "Pollutant"
  | F_unit => String.eqb entry "Unit"
  | F_value => String.eqb entry "Value"
  | F_last_updated => String.eqb entry "Last_Updated"
  | F_country_label => String.eqb entry "Country_Label"
  | F_latitude =>
      String.eqb entry "Latitude" || String.eqb entry "Latitude/Longitude"
  | F_longitude =>
      String.eqb entry "Longitude" || String.eqb entry "Latitude/Longitude"
  | F_source_name => String.eqb entry "Source_Name"
  end.

(** The eight fields the error lists one by one, in the order of the
    loader's table, under the names the loader gives them. *)
Definition listed_fields : list (string * logical_field) :=
  [ ("Country_Code", F_country_code); ("City", F_city);
    ("Location", F_location); ("Pollutant", F_pollutant);
    ("Unit", F_unit); ("Value", F_value);
    ("Last_Updated", F_last_updated);
    ("Country_Label", F_country_label) ]%string.

(** The list of missing fields the loader reports for the normalized
    headers [cols]: the unresolved listed fields, then one combined entry
    when a coordinate is unresolved. *)
Definition reported_missing (cols : list string) : list string :=
  ((fun kf => kf.1) <$>
   List.filter (fun kf : string * logical_field => negb (is_resolved cols kf.2))
               listed_fields)
  ++ (if is_resolved cols F_latitude && is_resolved cols F_longitude
      then [] else ["Latitude/Longitude"%string]).

(** The claim that the error names exactly the missing logical fields: a
    required field is named by some entry of [missing] if and only if it
    is unresolved. *)
Definition names_exactly_missing (cols missing : list string) : Prop :=
  forall f : logical_field,
    required f = true ->
    (exists e, e ∈ missing /\ names e f = true) <-> is_resolved cols f = false.

(** ** The inputs on which the model and the code agree *)

Fixpoint all_chars (p : ascii -> bool) (s : string) : bool :=
  match s with
  | EmptyString => true
  | String c s' => p c && all_chars p s'
  end.

(** A text of ASCII characters.  On such a text [str.strip], [str.lower]
    and the pattern [\s] do what [strip], [lower] and [replace_spaces] do.
    On other texts Python also trims Unicode whitespace, such as U+00A0, and
    lowers capitals outside ASCII, which [strip] and [lower] do not: what
    is proved about a filter string or a header is proved for ASCII ones. *)
Definition is_ascii (c : ascii) : bool := (nat_of_ascii c <? 128)%nat.

Definition ascii_text (s : string) : Prop := all_chars is_ascii s = true.

Definition ascii_filter (o : option string) : Prop :=
  match o with
  | Some s => ascii_text s
  | None => True
  end.

(** Normalized headers the loader can relabel without making two columns
    of one name: no label occurs twice, and a coordinate is not present
    under both of its aliases.  pandas keeps both columns of a repeated
    label, while a row here has one cell per label, so what is proved about
    the data the loader returns is stated for such headers. *)
Definition unambiguous (cols : list string) : Prop :=
  NoDup cols /\
  ~ ("latitude"%string ∈ cols /\ "lat"%string ∈ cols) /\
  ~ ("longitude"%string ∈ cols /\ "lon"%string ∈ cols).

(** [d] is the dataset the loader returns for the file [raw], a file
    whose headers are ASCII texts and unambiguous once normalized.  The
    frame pandas builds from such a file has one column per label, like
    the frames of this development; from a file with a repeated label the
    loader can return a frame with two columns of one name, on which the
    endpoints raise or answer with masked rows, and such a frame has no
    counterpart here. *)
Definition loaded_from (raw : RawTable) (d : DataFrame) : Prop :=
  Forall ascii_text (header raw) /\
  unambiguous (normalize <$> header raw) /\
  _load_and_prepare_data (Some (Ok raw)) = Ok d.



(** ** The query engine, in the words of the design document *)

(** A loaded dataset: a frame the loader returned. *)
Definition loaded (d : DataFrame) : Prop :=
  exists fs, _load_and_prepare_data fs = Ok d.

(** A frame that carries every column of the measurement record. *)
Definition canonical (d : DataFrame) : Prop :=
  Forall (fun l => has_col l d = true) record_columns.

(** The optional set a filter string stands for: none when the string is
    absent or empty, else the set of its tokens. *)
Definition criterion (s : option string) : option (list string) :=
  match s with
  | None => None
  | Some EmptyString => None
  | Some s => Some (tokens s)
  end.

(** [cell] is one of the labels of [set]. *)
Definition among (set : list string) (c : cell) : Prop :=
  exists s, c = Str s /\ s ∈ set.

(** The records a query asks for. *)
Definition Matches (countries pollutants : option (list string))
    (only_anomalies : bool) (r : gmap string cell) : Prop :=
  (countries = None \/
   exists set, countries = Some set /\ among set (r !!! "Country_Label")) /\
  (pollutants = None \/
   exists set, pollutants = Some set /\ among set (r !!! "Pollutant")) /\
  (only_anomalies = false \/
   exists q, num_of (r !!! "is_anomaly") = Some q /\ q == 1).

(** The same, as the test the endpoint runs. *)
Definition matches (countries pollutants : option (list string))
    (only_anomalies : bool) (r : gmap string cell) : bool :=
  match countries with
  | None => true
  | Some set => isin set (r !!! "Country_Label")
  end &&
  match pollutants with
  | None => true
  | Some set => isin set (r !!! "Pollutant")
  end &&
  (negb only_anomalies || eq_one (r !!! "is_anomaly")).

(** The measurement record of a row: its thirteen canonical fields. *)
Definition record_of (r : gmap string cell) : gmap string cell :=
  list_to_map ((fun l => (l, r !!! l)) <$> record_columns).

(** ** Filter strings, in the words of the design document *)

(** [s] begins with a whitespace character. *)
Definition head_space (s : string) : bool :=
  match skip_space s with Some _ => true | None => false end.

(** [s] is one whitespace character. *)
Definition one_space (s : string) : bool :=
  match skip_space s with Some EmptyString => true | _ => false end.

(** [s] ends with a whitespace character. *)
Fixpoint last_space (s : string) : bool :=
  match s with
  | EmptyString => false
  | String _ s' => one_space s || last_space s'
  end.

(** [t] is [s] with the whitespace around it trimmed. *)
Definition trimmed (s t : string) : Prop :=
  (exists l r, s = l +:+ t +:+ r /\ all_space l = true /\ all_space r = true) /\
  head_space t = false /\ last_space t = false.

(** [s] holds a comma. *)
Fixpoint has_comma (s : string) : bool :=
  match s with
  | EmptyString => false
  | String c s' => Ascii.eqb c "," || has_comma s'
  end.

(** [pieces] are the comma-separated parts of [s]: joined by commas they
    give [s] back, and none of them holds a comma. *)
Definition comma_separated (s : string) (pieces : list string) : Prop :=
  String.concat "," pieces = s /\ pieces <> [] /\
  Forall (fun t => has_comma t = false) pieces.

Definition nonempty (s : string) : bool :=
  match s with EmptyString => false | String _ _ => true end.

(** ** The summary, in the words of the design document *)

(** [ks] lists the distinct non-null values of the column [cs]: each is a
    non-null entry of the column, every non-null entry equals one of them,
    and no two of them are equal. *)
Definition distinct_values (cs ks : list cell) : Prop :=
  Forall (fun k => isna k = false /\ k ∈ cs) ks /\
  Forall (fun c => isna c = false ->
                   exists k, k ∈ ks /\ cell_eqb k c = true) cs /\
  ForallOrdPairs (fun a b => cell_eqb a b = false) ks.

(** The non-null values of the records of [d] whose [key] column equals
    [k]. *)
Definition group_values (key : string) (k : cell) (d : DataFrame) : list Q :=
  omap (fun r : gmap string cell =>
          if cell_eqb k (r !!! key) then num_of (r !!! "Value") else None)
       (rows d).

(** The line [g] of a summary table grouped by [key] holds the count,
    mean, minimum and maximum of the non-null values of its group. *)
Definition group_stats (key : string) (d : DataFrame) (g : GroupRow) : Prop :=
  let xs := group_values key (group_key g) d in
  num_measurements g = Z.of_nat (length xs) /\
  (xs = [] ->
   avg_value g = NaN /\ min_value g = NaN /\ max_value g = NaN) /\
  (xs <> [] ->
   exists mn mx,
     avg_value g = Num (mean xs) /\
     min_value g = Num mn /\ mn ∈ xs /\ Forall (fun x => mn <= x) xs /\
     max_value g = Num mx /\ mx ∈ xs /\ Forall (fun x => x <= mx) xs).

Definition Zsum (zs : list Z) : Z := foldr Z.add 0%Z zs.

(** The [Value] column holds numbers and nulls only, as it does in every
    frame the detector returns. *)
Definition numeric_values (d : DataFrame) : Prop :=
  Forall (fun r : gmap string cell =>
            isna (r !!! "Value") = false -> is_Some (num_of (r !!! "Value")))
         (rows d).

(** ** Sample data *)

Fixpoint digits (acc : Z) (s : string) : option Z :=
  match s with
  | EmptyString => Some acc
  | String c s' =>
      let n := nat_of_ascii c in
      if ((48 <=? n) && (n <=? 57))%nat
      then digits (10 * acc + Z.of_nat (n - 48)) s'
      else None
  end.

(** A text-to-number parser that reads unsigned decimal integers. *)
Definition parse_digits (s : string) : option Q :=
  match s with
  | EmptyString => None
  | _ => inject_Z <$> digits 0 s
  end.

(** The exact mean of a list of numbers, for the examples. *)
Definition Qsum (xs : list Q) : Q := foldr Qplus 0 xs.

Definition exact_mean (xs : list Q) : Q :=
  Qsum xs / inject_Z (Z.of_nat (length xs)).

(** A frame with the single column [Value]. *)
Definition series (values : list cell) : DataFrame :=
  mkDF ["Value"%string]
       ((fun v => <["Value"%string := v]> (∅ : gmap string cell)) <$> values).

Definition sample_series : DataFrame :=
  series [Int 1; Int 2; Int 3; Int 4; Int 5; Int 100].

Definition sample_nulls : DataFrame := series [NaN; Str "n/a"; NaN].

Definition sample_constant : DataFrame :=
  series [Int 7; NaN; Num 7; Str "7"; Str "?"].

Definition sample_header : list string :=
  [ "Country Code"; " City"; "Station"; "Lat"; "Longitude"; "PARAMETER";
    "unit"; "Value"; "Date  Local"; "Country" ]%string.

Definition sample_body : list (list cell) :=
  [ [Str "IN"; Str "Delhi"; Str "S1"; Num 28.6; Num 77.2; Str "pm25";
     Str "ug/m3"; Int 40; Str "2020-01-01"; Str "India"];
    [Str "IN"; Str "Delhi"; Str "S2"; Num 28.7; Str "east"; Str "pm25";
     Str "ug/m3"; NaN; Str "2020-01-01"; Str "India"];
    [Str "US"; Str "Boston"; Str "S3"; Num 42.3; Num (-71.0); Str "no2";
     Str "ppm"; Int 41; Str "2020-01-02"; Str "United States"];
    [Str "US"; Str "Boston"; Str "S3"; Num 42.3; Num (-71.0); Str "pm25";
     Str "ug/m3"; Int 42; Str "2020-01-02"; Str "United States"];
    [Str "FR"; Str "Paris"; Str "S4"; Num 48.8; Num 2.3; Str "pm25";
     Str "ug/m3"; Int 43; Str "2020-01-03"; NaN];
    [Str "FR"; Str "Paris"; Str "S4"; Num 48.8; Num 2.3; Str "pm25";
     Str "ug/m3"; Str "900"; Str "2020-01-03"; Str "France"] ].

(** A file every logical field of which resolves, apart from
    [source_name]. *)
Definition sample_fs : FileSystem := Some (Ok (mkRaw sample_header sample_body)).

(** The same file without its latitude column. *)
Definition sample_raw_no_latitude : RawTable :=
  mkRaw [ "Country Code"; " City"; "Station"; "Longitude"; "PARAMETER";
          "unit"; "Value"; "Date  Local"; "Country" ]%string [].

(** The dataset loaded from [sample_fs]. *)
Definition sample_loaded : DataFrame :=
  match _load_and_prepare_data sample_fs with
  | Ok d => d
  | Raise _ => mkDF [] []
  end.

(** ** Further notions used by the properties of the code *)

(** The column index after [df[name] = ...]. *)
Definition with_label (name : string) (labels : list string) : list string :=
  if bool_decide (name ∈ labels) then labels else labels ++ [name].

(** The three columns the detector writes. *)
Definition detector_columns : list string :=
  ["Value"; "is_anomaly"; "anomaly_score"]%string.

(** [l] lists the distinct non-null values of the column [cs] in
    ascending order. *)
Definition listing (cs l : list cell) : Prop :=
  Sorted cell_le l /\ distinct_values cs l.

(** A column of text and nulls. *)
Definition text_column (cs : list cell) : Prop :=
  Forall (fun c => isna c = true \/ is_text c = true) cs.

(** The line [g] of a summary table is consistent: a group without a
    measurement has null statistics, and any other group has three numbers
    for its statistics, the minimum at most the maximum. *)
Definition line_ordered (g : GroupRow) : Prop :=
  (num_measurements g = 0%Z /\
   avg_value g = NaN /\ min_value g = NaN /\ max_value g = NaN) \/
  ((0 < num_measurements g)%Z /\
   exists mn a mx,
     min_value g = Num mn /\ avg_value g = Num a /\ max_value g = Num mx /\
     mn <= mx).

(** The records of [d] whose [key] and [Value] are both non-null. *)
Definition measured (key : string) (d : DataFrame) : list (gmap string cell) :=
  List.filter (fun r : gmap string cell =>
                 negb (isna (r !!! key)) && negb (isna (r !!! "Value")))
              (rows d).

(** An ASCII capital letter. *)
Definition is_upper (c : ascii) : bool :=
  let n := nat_of_ascii c in ((65 <=? n) && (n <=? 90))%nat.

(** A label without whitespace and without capital letters. *)
Definition plain (s : string) : bool :=
  all_chars (fun c => negb (is_space c) && negb (is_upper c)) s.

(** The label a logical field has in the dataset the loader returns. *)
Definition canonical_name (f : logical_field) : string :=
  match f with
  | F_country_code => "Country_Code"
  | F_city => "City"
  | F_location => "Location"
  | F_pollutant => "Pollutant"
  | F_unit => "Unit"
  | F_value => "Value"
  | F_last_updated => "Last_Updated"
  | F_country_label => "Country_Label"
  | F_latitude => "lat"
  | F_longitude => "lon"
  | F_source_name => "Source_Name"
  end.

(** The fields whose cells are passed through [pd.to_numeric] on the way:
    the coordinates by the loader, the value by the detector. *)
Definition coerced (f : logical_field) : bool :=
  match f with F_value | F_latitude | F_longitude => true | _ => false end.

(** The keys of the loader's [rename_dict], in the order of the dict
    display, and the key of each: the column the field resolved to, with
    the new column [Source_Name] standing in for an unresolved source. *)
Definition rename_fields : list logical_field :=
  [ F_country_code; F_city; F_location; F_pollutant; F_source_name; F_unit;
    F_value; F_last_updated; F_country_label; F_latitude; F_longitude ].

Definition rename_key (cols : list string) (f : logical_field)
    : option string :=
  match f, find_col cols (aliases f) with
  | F_source_name, None => Some "Source_Name"%string
  | _, o => o
  end.

(** The frame read from the file, with the column [Source_Name] filled
    in when no column resolved for it. *)
Definition sourced (raw : RawTable) : DataFrame :=
  let cols := normalize <$> header raw in
  match find_col cols (aliases F_source_name) with
  | None => assign "Source_Name" (fun _ => Str "Unknown Source")
                   (frame cols (body raw))
  | Some _ => frame cols (body raw)
  end.

Definition rename_dict (cols : list string) : gmap string string :=
  dict_of ((fun f => (rename_key cols f, canonical_name f)) <$> rename_fields).

(** The same frame under its new labels. *)
Definition renamed (raw : RawTable) : DataFrame :=
  rename (rename_dict (normalize <$> header raw)) (sourced raw).

(** The frame the loader hands to the detector once every required field
    is resolved. *)
Definition prepared (raw : RawTable) : DataFrame :=
  assign "lon" (fun r => to_numeric (r !!! "lon"))
    (assign "lat" (fun r => to_numeric (r !!! "lat")) (renamed raw)).

(** Every required field has a column. *)
Definition all_resolved (cols : list string) : Prop :=
  forall f, required f = true -> is_resolved cols f = true.

(** A label that a comma-separated filter string can carry: not empty,
    without a comma, without whitespace at either end. *)
Definition clean_label (t : string) : Prop :=
  nonempty t = true /\ has_comma t = false /\
  head_space t = false /\ last_space t = false.

(** The set of labels a selection of the sidebar stands for: no
    restriction when nothing is selected. *)
Definition selection (labels : list string) : option (list string) :=
  if is_empty labels then None else Some labels.

(** * Properties *)

(** ** Frames *)

Lemma has_col_assign (name name' : string) f (d : DataFrame) :
  has_col name' d = true -> has_col name' (assign name f d) = true.
Proof.
  unfold assign, has_col; simpl. intros H.
  apply bool_decide_eq_true in H. apply bool_decide_eq_true.
  destruct (bool_decide (name ∈ columns d)); [done|].
  apply elem_of_app. by left.
Qed.

Lemma has_col_assign_same (name : string) f (d : DataFrame) :
  has_col name (assign name f d) = true.
Proof.
  unfold assign, has_col; simpl. apply bool_decide_eq_true.
  destruct (bool_decide (name ∈ columns d)) eqn:E.
  - by apply bool_decide_eq_true in E.
  - apply elem_of_app. right. by apply list_elem_of_singleton.
Qed.

Lemma col_assign_same (name : string) f (d : DataFrame) :
  col name (assign name f d) = f <$> rows d.
Proof.
  unfold col, assign; simpl. rewrite <- list_fmap_compose.
  apply list_fmap_ext. intros i r _. simpl. by rewrite lookup_total_insert_eq.
Qed.

Lemma col_assign_other (name name' : string) f (d : DataFrame) :
  name <> name' -> col name' (assign name f d) = col name' d.
Proof.
  intros Hne. unfold col, assign; simpl. rewrite <- list_fmap_compose.
  apply list_fmap_ext. intros i r _. simpl.
  by rewrite lookup_total_insert_ne.
Qed.

Lemma len_assign (name : string) f (d : DataFrame) :
  len (assign name f d) = len d.
Proof. unfold len, assign; simpl. by rewrite length_fmap. Qed.

(** ** The detector *)

Lemma labelled_Value lo hi m r :
  labelled lo hi m r !!! "Value" = to_numeric (r !!! "Value").
Proof.
  unfold labelled.
  rewrite !lookup_total_insert_ne by done. by rewrite lookup_total_insert_eq.
Qed.

Lemma labelled_is_anomaly lo hi m r :
  labelled lo hi m r !!! "is_anomaly" =
  Int (_is_anomaly lo hi (to_numeric (r !!! "Value"))).
Proof.
  unfold labelled.
  rewrite lookup_total_insert_ne by done. by rewrite lookup_total_insert_eq.
Qed.

Lemma labelled_anomaly_score lo hi m r :
  labelled lo hi m r !!! "anomaly_score" =
  Num (_score lo hi m (to_numeric (r !!! "Value"))).
Proof. unfold labelled. by rewrite lookup_total_insert_eq. Qed.

Lemma dropna_nil_inv (cs : list cell) :
  dropna cs = [] -> Forall (fun c => num_of c = None) cs.
Proof.
  unfold dropna. induction cs as [|c cs IH]; simpl; [constructor|].
  destruct (num_of c) eqn:E; [done|]. intros H. constructor; auto.
Qed.

(** What [detect_anomalies] returns on a frame with a [Value] column: it
    never raises, and every row is relabelled with the thresholds of the
    whole column. *)
Lemma detect_anomalies_rows (d : DataFrame) :
  has_col "Value" d = true ->
  exists d',
    detect_anomalies d = Ok d' /\
    rows d' =
      labelled (lower_fence (value_series d)) (upper_fence (value_series d))
               (median (value_series d)) <$> rows d.
Proof.
  intros Hcol. unfold detect_anomalies. rewrite Hcol. simpl negb. cbv iota.
  rewrite col_assign_same.
  change (dropna ((fun r : gmap string cell => to_numeric (r !!! "Value"))
                    <$> rows d))
    with (dropna ((to_numeric ∘ (fun r : gmap string cell => r !!! "Value"))
                    <$> rows d)).
  rewrite list_fmap_compose. fold (col "Value" d). fold (value_series d).
  destruct (value_series d) as [|x xs] eqn:Hvs; simpl is_empty; cbv iota.
  - eexists. split; [reflexivity|]. simpl.
    rewrite <- !list_fmap_compose. apply list_fmap_ext.
    intros i r Hr. simpl. unfold labelled.
    assert (Hnone : num_of (to_numeric (r !!! "Value")) = None).
    { apply dropna_nil_inv in Hvs. rewrite Forall_forall in Hvs.
      apply Hvs. apply list_elem_of_fmap. exists (r !!! "Value").
      split; [done|]. unfold col. apply list_elem_of_fmap. exists r.
      split; [done|]. by eapply list_elem_of_lookup_2. }
    unfold _score, _is_anomaly. by rewrite Hnone.
  - eexists. split; [reflexivity|]. simpl.
    rewrite <- !list_fmap_compose. apply list_fmap_ext.
    intros i r Hr. simpl. unfold labelled.
    rewrite !lookup_total_insert_ne by done.
    by rewrite !lookup_total_insert_eq.
Qed.

(** ** Order statistics *)

#[global] Instance Qle_total : Total Qle.
Proof. intros x y. destruct (Qlt_le_dec x y); [left; lra | by right]. Qed.

#[global] Instance Qle_transitive : Transitive Qle.
Proof. intros x y z. apply Qle_trans. Qed.


(** The index [floor ((n-1)*p)] lies inside a list of [n >= 1] elements
    when [0 <= p <= 1]. *)
Lemma virtual_index_bounds (n : nat) (p : Q) :
  (0 < n)%nat -> 0 <= p -> p <= 1 ->
  let h := inject_Z (Z.of_nat n - 1) * p in
  (0 <= Qfloor h)%Z /\ (Qceiling h <= Z.of_nat n - 1)%Z.
Proof.
  intros Hn Hp0 Hp1 h.
  assert (Hlast : 0 <= inject_Z (Z.of_nat n - 1)).
  { change 0 with (inject_Z 0). rewrite <- Zle_Qle. lia. }
  assert (Hh0 : 0 <= h) by (unfold h; nra).
  assert (Hh1 : h <= inject_Z (Z.of_nat n - 1)) by (unfold h; nra).
  split.
  - change 0%Z with (Qfloor 0). by apply Qfloor_resp_le.
  - rewrite <- (Qceiling_Z (Z.of_nat n - 1)). by apply Qceiling_resp_le.
Qed.

Lemma length_merge_sort (xs : list Q) :
  length (merge_sort Qle xs) = length xs.
Proof. apply Permutation_length, merge_sort_Permutation. Qed.



Lemma Qlt_bool_iff (x y : Q) : Qlt_bool x y = true <-> x < y.
Proof.
  unfold Qlt_bool. rewrite negb_true_iff. split.
  - intros H. apply Qnot_le_lt. intros Hle.
    apply Qle_bool_iff in Hle. congruence.
  - intros H. destruct (Qle_bool y x) eqn:E; [|done].
    apply Qle_bool_iff in E. lra.
Qed.

Lemma lt_or_gt_iff (v lo hi : Q) :
  lt_or_gt v lo hi = true <-> v < lo \/ hi < v.
Proof.
  unfold lt_or_gt. rewrite orb_true_iff, !Qlt_bool_iff. tauto.
Qed.

Lemma lt_or_gt_proper (v lo hi lo' hi' : Q) :
  lo == lo' -> hi == hi' -> lt_or_gt v lo hi = lt_or_gt v lo' hi'.
Proof.
  intros Hlo Hhi. apply eq_true_iff_eq. rewrite !lt_or_gt_iff.
  split; intros [H|H]; ((left; lra) || (right; lra)).
Qed.

(** A coerced cell is a number or the null marker. *)
Lemma to_numeric_isna (c : cell) :
  isna (to_numeric c) = true <-> num_of (to_numeric c) = None.
Proof.
  destruct c as [|z|q|t]; simpl; try done.
  destruct (parse_number t); simpl; done.
Qed.

Lemma dropna_elem (cs : list cell) (c : cell) (x : Q) :
  c ∈ cs -> num_of c = Some x -> x ∈ dropna cs.
Proof.
  intros Hin Hx. unfold dropna. apply list_elem_of_omap. eauto.
Qed.

Lemma value_series_elem (d : DataFrame) (r : gmap string cell) (x : Q) :
  r ∈ rows d -> num_of (to_numeric (r !!! "Value")) = Some x ->
  x ∈ value_series d.
Proof.
  intros Hr Hx. unfold value_series.
  apply (dropna_elem _ (to_numeric (r !!! "Value"))); [|done].
  apply list_elem_of_fmap. exists (r !!! "Value"). split; [done|].
  unfold col. apply list_elem_of_fmap. by exists r.
Qed.

Lemma detect_anomalies_Value (d d' : DataFrame) :
  detect_anomalies d = Ok d' ->
  has_col "Value" d = true /\ col "Value" d' = to_numeric <$> col "Value" d.
Proof.
  intros H. destruct (has_col "Value" d) eqn:Hcol.
  - split; [done|].
    destruct (detect_anomalies_rows d Hcol) as (d'' & Hd & Hrows).
    rewrite H in Hd. injection Hd as <-.
    unfold col. rewrite Hrows, <- !list_fmap_compose.
    apply list_fmap_ext. intros i r _. simpl. apply labelled_Value.
  - unfold detect_anomalies in H. rewrite Hcol in H. discriminate.
Qed.


Lemma labelled_well_labelled lo hi m r : well_labelled (labelled lo hi m r).
Proof.
  unfold well_labelled.
  rewrite labelled_is_anomaly, labelled_anomaly_score.
  unfold _is_anomaly, _score.
  destruct (num_of (to_numeric (r !!! "Value"))) as [x|].
  - destruct (lt_or_gt x lo hi); cbn [Z.b2z].
    + split; [by right|]. eexists. split; [done|].
      split; [apply Qabs_nonneg|discriminate].
    + split; [by left|]. exists 0.0. split; [done|]. split; [done|].
      intros _. reflexivity.
  - split; [by left|]. exists 0.0. split; [done|]. split; [done|].
    intros _. reflexivity.
Qed.

(** The loader ends with the detector: whatever it returns was returned
    by [detect_anomalies]. *)
Lemma load_detects (fs : FileSystem) (d' : DataFrame) :
  _load_and_prepare_data fs = Ok d' ->
  exists d, detect_anomalies d = Ok d'.
Proof.
  unfold _load_and_prepare_data. intros H.
  repeat case_match; try discriminate; eauto.
Qed.

(** C2. Every record of a frame returned by the detector, hence of every
    frame returned by the loader, has [is_anomaly] equal to 0 or 1, a
    non-negative [anomaly_score], and [anomaly_score] equal to 0 whenever
    [is_anomaly] is 0. *)
Theorem detect_anomalies_invariant (fs : FileSystem) (d d' : DataFrame) :
  detect_anomalies d = Ok d' \/ _load_and_prepare_data fs = Ok d' ->
  Forall well_labelled (rows d').
Proof.
  intros H.
  assert (exists d0, detect_anomalies d0 = Ok d') as [d0 Hd0].
  { destruct H as [H|H]; [by exists d|by apply load_detects in H]. }
  destruct (detect_anomalies_Value d0 d' Hd0) as [Hcol _].
  destruct (detect_anomalies_rows d0 Hcol) as (d'' & Hd & Hrows).
  rewrite Hd0 in Hd. injection Hd as <-.
  rewrite Hrows. apply Forall_fmap, Forall_forall. intros r _.
  apply labelled_well_labelled.
Qed.

(** C6. A frame whose [Value] column holds nothing but nulls once coerced
    is not an error: the detector returns a frame of the same length in
    which every record has [is_anomaly = 0] and [anomaly_score = 0.0]. *)
Theorem detect_anomalies_all_null (d : DataFrame) :
  has_col "Value" d = true ->
  Forall (fun c => isna (to_numeric c) = true) (col "Value" d) ->
  exists d',
    detect_anomalies d = Ok d' /\
    len d' = len d /\
    Forall (fun r : gmap string cell =>
              r !!! "is_anomaly" = Int 0 /\ r !!! "anomaly_score" = Num 0.0)
           (rows d').
Proof.
  intros Hcol Hnull.
  destruct (detect_anomalies_rows d Hcol) as (d' & Hd & Hrows).
  exists d'. split; [done|].
  split; [unfold len; by rewrite Hrows, length_fmap|].
  rewrite Hrows. apply Forall_fmap, Forall_forall. intros r Hr. simpl.
  rewrite labelled_is_anomaly, labelled_anomaly_score.
  assert (Hnone : num_of (to_numeric (r !!! "Value")) = None).
  { apply to_numeric_isna. rewrite Forall_forall in Hnull. apply Hnull.
    unfold col. apply list_elem_of_fmap. by exists r. }
  unfold _is_anomaly, _score. by rewrite Hnone.
Qed.

Lemma nth_constant (c : Q) (s : list Q) (i : nat) :
  Forall (fun x => x == c) s -> (i < length s)%nat -> nth i s 0 == c.
Proof.
  intros Hs Hi. destruct (nth_lookup_or_length s i 0) as [H|H]; [|lia].
  rewrite Forall_forall in Hs. apply Hs. by eapply list_elem_of_lookup_2.
Qed.

(** On a non-empty series whose values all equal [c], every quantile is
    [c]. *)
Lemma quantile_constant (p c : Q) (xs : list Q) :
  xs <> [] -> 0 <= p -> p <= 1 ->
  Forall (fun x => x == c) xs ->
  quantile p xs == c.
Proof.
  intros Hne Hp0 Hp1 Hall. unfold quantile.
  set (s := merge_sort Qle xs).
  assert (Hs : Forall (fun x => x == c) s).
  { unfold s. by rewrite merge_sort_Permutation. }
  assert (Hn : (0 < length s)%nat).
  { unfold s. rewrite length_merge_sort. destruct xs; [done|simpl; lia]. }
  destruct (virtual_index_bounds (length s) p Hn Hp0 Hp1) as [Hlo Hhi].
  set (h := inject_Z (Z.of_nat (length s) - 1) * p) in *.
  pose proof (Qle_floor_ceiling h) as Hfc. rewrite <- Zle_Qle in Hfc.
  assert (H1 : nth (Z.to_nat (Qfloor h)) s 0 == c)
    by (apply nth_constant; [done|lia]).
  assert (H2 : nth (Z.to_nat (Z.min (Qfloor h + 1)
                                    (Z.of_nat (length s) - 1))) s 0 == c)
    by (apply nth_constant; [done|lia]).
  rewrite H1, H2. ring.
Qed.

Lemma median_constant (c : Q) (xs : list Q) :
  xs <> [] -> Forall (fun x => x == c) xs -> median xs == c.
Proof.
  intros Hne Hall. unfold median.
  set (s := merge_sort Qle xs).
  assert (Hs : Forall (fun x => x == c) s).
  { unfold s. by rewrite merge_sort_Permutation. }
  assert (Hn : (0 < length s)%nat).
  { unfold s. rewrite length_merge_sort. destruct xs; [done|simpl; lia]. }
  assert (Hhalf : (length s / 2 < length s)%nat)
    by (apply Nat.div_lt; lia).
  destruct (Nat.even (length s)).
  - rewrite (nth_constant c s (length s / 2 - 1)) by (done || lia).
    rewrite (nth_constant c s (length s / 2)) by (done || lia). field.
  - by apply nth_constant.
Qed.

(** C10. When the non-null values of the [Value] column are all equal to
    one number [c] (and there is at least one), the two quartiles are [c],
    the IQR is 0, both fences are [c], and the detector labels every record
    with [is_anomaly = 0] and [anomaly_score = 0.0]. *)
Theorem detect_anomalies_constant (d : DataFrame) (c : Q) :
  has_col "Value" d = true ->
  value_series d <> [] ->
  Forall (fun x => x == c) (value_series d) ->
  let q1 := quantile 0.25 (value_series d) in
  let q3 := quantile 0.75 (value_series d) in
  let iqr := q3 - q1 in
  q1 == c /\ q3 == c /\ iqr == 0 /\
  q1 - 1.5 * iqr == c /\ q3 + 1.5 * iqr == c /\
  exists d',
    detect_anomalies d = Ok d' /\
    Forall (fun r : gmap string cell =>
              r !!! "is_anomaly" = Int 0 /\ r !!! "anomaly_score" = Num 0.0)
           (rows d').
Proof.
  intros Hcol Hne Hall q1 q3 iqr.
  assert (H1 : q1 == c) by (apply quantile_constant; [done|lra|lra|done]).
  assert (H3 : q3 == c) by (apply quantile_constant; [done|lra|lra|done]).
  split; [done|]. split; [done|]. unfold iqr.
  split; [lra|]. split; [lra|]. split; [lra|].
  destruct (detect_anomalies_rows d Hcol) as (d' & Hd & Hrows).
  exists d'. split; [done|].
  rewrite Hrows. apply Forall_fmap, Forall_forall. intros r Hr. simpl.
  rewrite labelled_is_anomaly, labelled_anomaly_score.
  unfold _is_anomaly, _score.
  destruct (num_of (to_numeric (r !!! "Value"))) as [x|] eqn:Hx; [|done].
  assert (Hxc : x == c).
  { rewrite Forall_forall in Hall. apply Hall.
    by apply (value_series_elem d r). }
  assert (Hb : lt_or_gt x (lower_fence (value_series d))
                          (upper_fence (value_series d)) = false).
  { destruct (lt_or_gt _ _ _) eqn:E; [|done].
    apply lt_or_gt_iff in E. unfold lower_fence, upper_fence in E.
    fold q1 q3 in E. lra. }
  by rewrite Hb.
Qed.

(** C4. On the series 1, 2, 3, 4, 5, 100 the detector computes
    Q1 = 2.25, Q3 = 4.75, IQR = 2.5, the fences -1.5 and 8.5 and the median
    3.5; it labels the record holding 100, and no other, as an anomaly,
    with [anomaly_score = 96.5], and gives every other record
    [is_anomaly = 0] and [anomaly_score = 0.0]. *)
Theorem detect_anomalies_example (d : DataFrame) :
  has_col "Value" d = true ->
  (num_of ∘ to_numeric) <$> col "Value" d =
    [Some 1; Some 2; Some 3; Some 4; Some 5; Some 100] ->
  let q1 := quantile 0.25 (value_series d) in
  let q3 := quantile 0.75 (value_series d) in
  let iqr := q3 - q1 in
  q1 == 2.25 /\ q3 == 4.75 /\ iqr == 2.5 /\
  q1 - 1.5 * iqr == -1.5 /\ q3 + 1.5 * iqr == 8.5 /\
  median (value_series d) == 3.5 /\
  exists d' sc,
    detect_anomalies d = Ok d' /\
    col "is_anomaly" d' = [Int 0; Int 0; Int 0; Int 0; Int 0; Int 1] /\
    col "anomaly_score" d' =
      [Num 0.0; Num 0.0; Num 0.0; Num 0.0; Num 0.0; Num sc] /\
    sc == 96.5.
Proof.
  intros Hcol Hvals.
  assert (Hvs : value_series d = [1; 2; 3; 4; 5; 100]).
  { unfold value_series, dropna.
    transitivity (omap id ((num_of ∘ to_numeric) <$> col "Value" d)).
    - rewrite list_fmap_compose. generalize (to_numeric <$> col "Value" d).
      intros l. induction l as [|c l IH]; [done|]. cbn.
      destruct (num_of c); cbn; congruence.
    - by rewrite Hvals. }
  rewrite Hvs. cbv zeta.
  split; [by vm_compute|]. split; [by vm_compute|]. split; [by vm_compute|].
  split; [by vm_compute|]. split; [by vm_compute|]. split; [by vm_compute|].
  destruct (detect_anomalies_rows d Hcol) as (d' & Hd & Hrows).
  exists d', (Qabs (100 - median [1; 2; 3; 4; 5; 100])).
  split; [done|]. rewrite Hvs in Hrows.
  assert (Hcols : forall (name : string) (g : option Q -> cell),
            (forall r, labelled (lower_fence [1; 2; 3; 4; 5; 100])
                         (upper_fence [1; 2; 3; 4; 5; 100])
                         (median [1; 2; 3; 4; 5; 100]) r !!! name =
                       g (num_of (to_numeric (r !!! "Value")))) ->
            col name d' =
            g <$> [Some 1; Some 2; Some 3; Some 4; Some 5; Some 100]).
  { intros name g Hg. rewrite <- Hvals. unfold col.
    rewrite Hrows, <- !list_fmap_compose. apply list_fmap_ext.
    intros i r _. simpl. apply Hg. }
  split; [|split].
  - rewrite (Hcols "is_anomaly"
               (fun o => Int (match o with
                              | None => 0
                              | Some x =>
                                  Z.b2z (lt_or_gt x
                                    (lower_fence [1; 2; 3; 4; 5; 100])
                                    (upper_fence [1; 2; 3; 4; 5; 100]))
                              end))).
    + by vm_compute.
    + intros r. by rewrite labelled_is_anomaly.
  - rewrite (Hcols "anomaly_score"
               (fun o => Num (match o with
                              | None => 0.0
                              | Some x =>
                                  if lt_or_gt x
                                       (lower_fence [1; 2; 3; 4; 5; 100])
                                       (upper_fence [1; 2; 3; 4; 5; 100])
                                  then Qabs (x - median [1; 2; 3; 4; 5; 100])
                                  else 0.0
                              end))).
    + by vm_compute.
    + intros r. by rewrite labelled_anomaly_score.
  - by vm_compute.
Qed.

(** ** The loader *)

Lemma unresolved_reported (o1 o2 o3 o4 o5 o6 o7 o8 src : option string) :
  unresolved
    [ ("Country_Code", o1); ("City", o2); ("Location", o3);
      ("Coordinates", Some "NOT_USED"); ("Pollutant", o4);
      ("Source_Name", src); ("Unit", o5); ("Value", o6);
      ("Last_Updated", o7); ("Country_Label", o8) ]%string =
  (fun kf => kf.1) <$>
  List.filter (fun kf : string * bool => kf.2)
    [ ("Country_Code", is_None o1); ("City", is_None o2);
      ("Location", is_None o3); ("Pollutant", is_None o4);
      ("Unit", is_None o5); ("Value", is_None o6);
      ("Last_Updated", is_None o7); ("Country_Label", is_None o8) ]%string.
Proof.
  unfold unresolved.
  destruct o1, o2, o3, o4, o5, o6, o7, o8, src; reflexivity.
Qed.

Lemma filter_pairs {A} (p : A -> bool) (l : list (string * A)) :
  (fun kf => kf.1) <$> List.filter (fun kf => p kf.2) l =
  (fun kf => kf.1) <$>
  List.filter (fun kf : string * bool => kf.2)
              ((fun kf => (kf.1, p kf.2)) <$> l).
Proof.
  induction l as [|[k a] l IH]; [done|]. cbn.
  destruct (p a); cbn; by rewrite IH.
Qed.

(** On a table that was read, the loader raises as soon as its list of
    missing fields is not empty, and the error carries that list and the
    two header lists. *)
Lemma load_missing_fields (raw : RawTable) :
  reported_missing (normalize <$> header raw) <> [] ->
  _load_and_prepare_data (Some (Ok raw)) =
  Raise (ValueError (ColumnsMismatch
                       (reported_missing (normalize <$> header raw))
                       (normalize <$> header raw) (header raw))).
Proof.
  intros Hne. unfold _load_and_prepare_data. cbv zeta.
  set (cols := normalize <$> header raw) in *.
  rewrite unresolved_reported.
  assert (Hm : reported_missing cols =
          if is_None (find_col cols ["latitude"; "lat"]) ||
             is_None (find_col cols ["longitude"; "lon"])
          then ((fun kf => kf.1) <$>
                List.filter (fun kf : string * bool => kf.2)
                  [ ("Country_Code",
                     is_None (find_col cols
                                ["country_code"; "countrycode"; "code"]));
                    ("City", is_None (find_col cols ["city"]));
                    ("Location",
                     is_None (find_col cols ["location"; "station"; "site"]));
                    ("Pollutant",
                     is_None (find_col cols ["pollutant"; "parameter"]));
                    ("Unit", is_None (find_col cols ["unit"]));
                    ("Value",
                     is_None (find_col cols ["value"; "concentration"]));
                    ("Last_Updated",
                     is_None (find_col cols
                                ["last_updated"; "date_local"; "date";
                                 "timestamp"]));
                    ("Country_Label",
                     is_None (find_col cols ["country_label"; "country"]))
                  ]%string) ++ ["Latitude/Longitude"%string]
          else ((fun kf => kf.1) <$>
                List.filter (fun kf : string * bool => kf.2)
                  [ ("Country_Code",
                     is_None (find_col cols
                                ["country_code"; "countrycode"; "code"]));
                    ("City", is_None (find_col cols ["city"]));
                    ("Location",
                     is_None (find_col cols ["location"; "station"; "site"]));
                    ("Pollutant",
                     is_None (find_col cols ["pollutant"; "parameter"]));
                    ("Unit", is_None (find_col cols ["unit"]));
                    ("Value",
                     is_None (find_col cols ["value"; "concentration"]));
                    ("Last_Updated",
                     is_None (find_col cols
                                ["last_updated"; "date_local"; "date";
                                 "timestamp"]));
                    ("Country_Label",
                     is_None (find_col cols ["country_label"; "country"]))
                  ]%string)).
  { unfold reported_missing.
    rewrite (filter_pairs (fun f => negb (is_resolved cols f))).
    unfold is_resolved, listed_fields.
    cbn [fmap list_fmap aliases fst snd]. rewrite !negb_involutive.
    destruct (is_None (find_col cols ["latitude"; "lat"])),
             (is_None (find_col cols ["longitude"; "lon"]));
      cbn [negb andb orb]; rewrite ?app_nil_r; reflexivity. }
  rewrite <- Hm.
  destruct (reported_missing cols) as [|m ms]; [done|reflexivity].
Qed.

Lemma elem_of_reported_missing (cols : list string) (e : string) :
  e ∈ reported_missing cols <->
  (exists kf, kf ∈ listed_fields /\ kf.1 = e /\
              is_resolved cols kf.2 = false) \/
  (e = "Latitude/Longitude"%string /\
   (is_resolved cols F_latitude = false \/
    is_resolved cols F_longitude = false)).
Proof.
  unfold reported_missing. rewrite elem_of_app, list_elem_of_fmap.
  assert (H1 : (exists kf : string * logical_field,
                  e = kf.1 /\
                  kf ∈ List.filter
                         (fun kf : string * logical_field =>
                            negb (is_resolved cols kf.2)) listed_fields) <->
               (exists kf, kf ∈ listed_fields /\ kf.1 = e /\
                           is_resolved cols kf.2 = false)).
  { split.
    - intros (kf & -> & Hin). apply list_elem_of_In, filter_In in Hin.
      destruct Hin as [Hin Hb]. exists kf.
      rewrite list_elem_of_In. by apply negb_true_iff in Hb.
    - intros (kf & Hin & <- & Hb). exists kf. split; [done|].
      apply list_elem_of_In, filter_In. rewrite <- list_elem_of_In.
      split; [done|]. by apply negb_true_iff. }
  rewrite H1. clear H1.
  destruct (is_resolved cols F_latitude), (is_resolved cols F_longitude);
    cbn [andb]; rewrite ?list_elem_of_singleton, ?elem_of_nil;
    intuition congruence.
Qed.

Lemma listed_fields_inj (kf kf' : string * logical_field) :
  kf ∈ listed_fields -> kf' ∈ listed_fields -> kf.1 = kf'.1 -> kf = kf'.
Proof.
  unfold listed_fields. intros H H'.
  repeat (apply elem_of_cons in H as [->|H]);
    try (by apply not_elem_of_nil in H);
    repeat (apply elem_of_cons in H' as [->|H']);
    try (by apply not_elem_of_nil in H');
    cbn; intros E; first [ reflexivity | discriminate E ].
Qed.

Lemma reported_missing_nonempty (cols : list string) (f : logical_field) :
  required f = true -> is_resolved cols f = false ->
  reported_missing cols <> [].
Proof.
  intros Hreq Hf.
  assert (exists e, e ∈ reported_missing cols) as [e He].
  { destruct f; try discriminate Hreq;
      try (eexists; apply elem_of_reported_missing; right;
           split; [reflexivity|]; by (left + right)).
    all: eexists; apply elem_of_reported_missing; left;
      eexists (_, _); split; [|split; [reflexivity|exact Hf]];
      unfold listed_fields;
      repeat first [ apply list_elem_of_here | apply list_elem_of_further ]. }
  intros E. rewrite E in He. by apply not_elem_of_nil in He.
Qed.

(** C5 (as amended). When a required logical field cannot be resolved
    from the normalized headers, the loader returns no table: it raises
    the schema error, whose list of missing fields holds, in the order of
    the loader's table, exactly the unresolved fields among Country_Code,
    City, Location, Pollutant, Unit, Value, Last_Updated and Country_Label,
    followed by the one combined entry "Latitude/Longitude" exactly when
    latitude or longitude is unresolved, and which carries the full lists
    of normalized and of original headers. *)
Theorem load_schema_error (raw : RawTable) :
  (exists f, required f = true /\
             is_resolved (normalize <$> header raw) f = false) ->
  let cols := normalize <$> header raw in
  _load_and_prepare_data (Some (Ok raw)) =
    Raise (ValueError (ColumnsMismatch (reported_missing cols) cols
                                       (header raw))) /\
  (forall d, _load_and_prepare_data (Some (Ok raw)) <> Ok d) /\
  (forall kf, kf ∈ listed_fields ->
     (kf.1 ∈ reported_missing cols <-> is_resolved cols kf.2 = false)) /\
  ("Latitude/Longitude"%string ∈ reported_missing cols <->
     is_resolved cols F_latitude = false \/
     is_resolved cols F_longitude = false) /\
  (forall e, e ∈ reported_missing cols ->
     e = "Latitude/Longitude"%string \/
     exists kf, kf ∈ listed_fields /\ e = kf.1).
Proof.
  intros (f & Hreq & Hf) cols.
  pose proof (reported_missing_nonempty cols f Hreq Hf) as Hne.
  pose proof (load_missing_fields raw Hne) as Hload. fold cols in Hload.
  split; [done|]. split; [intros d; by rewrite Hload|].
  split; [|split].
  - intros kf Hkf. rewrite elem_of_reported_missing. split.
    + intros [(kf' & Hkf' & E & Hb)|[E _]].
      * by rewrite <- (listed_fields_inj kf' kf Hkf' Hkf E).
      * exfalso. unfold listed_fields in Hkf.
        repeat (apply elem_of_cons in Hkf as [->|Hkf]);
          try discriminate E. by apply not_elem_of_nil in Hkf.
    + intros Hb. left. by exists kf.
  - rewrite elem_of_reported_missing. split.
    + intros [(kf & Hkf & E & _)|[_ H]]; [|done].
      exfalso. unfold listed_fields in Hkf.
      repeat (apply elem_of_cons in Hkf as [->|Hkf]);
        try discriminate E. by apply not_elem_of_nil in Hkf.
    + intros H. by right.
  - intros e He. apply elem_of_reported_missing in He.
    destruct He as [(kf & Hkf & E & _)|[-> _]]; [right|by left].
    by exists kf.
Qed.

(** ** What a successful load returns *)

Lemma find_col_Some (cols names : list string) (n : string) :
  find_col cols names = Some n -> n ∈ names /\ n ∈ cols.
Proof.
  induction names as [|a names IH]; simpl; [done|].
  case_bool_decide as Ha.
  - intros [= <-]. split; [apply list_elem_of_here|done].
  - intros H. destruct (IH H). split; [by apply list_elem_of_further|done].
Qed.

(** The alias lists are pairwise disjoint: the alias a field resolves to
    belongs to that field alone. *)
Lemma find_col_owner (cols : list string) (f : logical_field) (n : string) :
  find_col cols (aliases f) = Some n -> owner n = Some f.
Proof.
  intros H. apply find_col_Some in H as [H _].
  destruct f; simpl in H;
    repeat (apply elem_of_cons in H as [->|H]);
    try (by apply not_elem_of_nil in H); by vm_compute.
Qed.

Lemma dict_of_app (l1 l2 : list (option string * string)) :
  dict_of (l1 ++ l2) =
  foldl (fun d kv => match kv.1 with
                     | Some k => <[k := kv.2]> d
                     | None => d
                     end) (dict_of l1) l2.
Proof. unfold dict_of. apply foldl_app. Qed.

(** An entry of a dict display is what the dict holds under its key when
    no later entry has the same key. *)
Lemma dict_of_lookup (l1 l2 : list (option string * string))
    (k v : string) :
  Forall (fun kv => kv.1 <> Some k) l2 ->
  dict_of (l1 ++ (Some k, v) :: l2) !! k = Some v.
Proof.
  intros Hl2. rewrite dict_of_app. simpl.
  generalize (dict_of l1). intros m.
  assert (Hm : <[k := v]> m !! k = Some v) by apply lookup_insert_eq.
  revert Hm. generalize (<[k := v]> m). clear m.
  induction Hl2 as [|[[k'|] v'] l2 Hk _ IH]; intros m Hm; simpl; [done| |].
  - apply IH. rewrite lookup_insert_ne; [done|]. intros ->. by apply Hk.
  - by apply IH.
Qed.

Lemma has_col_rename (d : DataFrame) (dict : gmap string string)
    (old new : string) :
  has_col old d = true -> dict !! old = Some new ->
  has_col new (rename dict d) = true.
Proof.
  unfold has_col, rename. simpl. rewrite !bool_decide_eq_true.
  intros Hold Hd. apply list_elem_of_fmap. exists old.
  by rewrite Hd.
Qed.

Lemma detect_anomalies_columns (d d' : DataFrame) :
  detect_anomalies d = Ok d' ->
  has_col "is_anomaly" d' = true /\ has_col "anomaly_score" d' = true /\
  forall l, has_col l d = true -> has_col l d' = true.
Proof.
  unfold detect_anomalies. destruct (has_col "Value" d); [|done]. simpl.
  destruct (is_empty _); intros [= <-].
  all: split; [apply has_col_assign, has_col_assign_same|].
  all: split; [apply has_col_assign_same|].
  all: intros l Hl; by do 3 apply has_col_assign.
Qed.

Lemma load_resolved (raw : RawTable) (d' : DataFrame) (f : logical_field) :
  _load_and_prepare_data (Some (Ok raw)) = Ok d' ->
  required f = true ->
  exists n, find_col (normalize <$> header raw) (aliases f) = Some n.
Proof.
  intros Hload Hreq.
  destruct (find_col (normalize <$> header raw) (aliases f)) as [n|] eqn:E;
    [by exists n|]. exfalso.
  assert (Hf : is_resolved (normalize <$> header raw) f = false)
    by (unfold is_resolved; by rewrite E).
  pose proof (reported_missing_nonempty _ f Hreq Hf) as Hne.
  rewrite (load_missing_fields raw Hne) in Hload. discriminate Hload.
Qed.

(** Every frame the loader returns carries the thirteen record columns. *)
Lemma load_canonical (fs : FileSystem) (d' : DataFrame) :
  _load_and_prepare_data fs = Ok d' -> canonical d'.
Proof.
  intros Hload. destruct fs as [[raw|e]|]; try discriminate Hload.
  destruct (load_resolved raw d' F_country_code Hload eq_refl) as [n1 E1].
  destruct (load_resolved raw d' F_city Hload eq_refl) as [n2 E2].
  destruct (load_resolved raw d' F_location Hload eq_refl) as [n3 E3].
  destruct (load_resolved raw d' F_pollutant Hload eq_refl) as [n4 E4].
  destruct (load_resolved raw d' F_unit Hload eq_refl) as [n5 E5].
  destruct (load_resolved raw d' F_value Hload eq_refl) as [n6 E6].
  destruct (load_resolved raw d' F_last_updated Hload eq_refl) as [n7 E7].
  destruct (load_resolved raw d' F_country_label Hload eq_refl) as [n8 E8].
  destruct (load_resolved raw d' F_latitude Hload eq_refl) as [n9 E9].
  destruct (load_resolved raw d' F_longitude Hload eq_refl) as [n10 E10].
  pose proof (find_col_owner _ _ _ E1) as O1.
  pose proof (find_col_owner _ _ _ E2) as O2.
  pose proof (find_col_owner _ _ _ E3) as O3.
  pose proof (find_col_owner _ _ _ E4) as O4.
  pose proof (find_col_owner _ _ _ E5) as O5.
  pose proof (find_col_owner _ _ _ E6) as O6.
  pose proof (find_col_owner _ _ _ E7) as O7.
  pose proof (find_col_owner _ _ _ E8) as O8.
  pose proof (find_col_owner _ _ _ E9) as O9.
  pose proof (find_col_owner _ _ _ E10) as O10.
  pose proof (proj2 (find_col_Some _ _ _ E1)) as I1.
  pose proof (proj2 (find_col_Some _ _ _ E2)) as I2.
  pose proof (proj2 (find_col_Some _ _ _ E3)) as I3.
  pose proof (proj2 (find_col_Some _ _ _ E4)) as I4.
  pose proof (proj2 (find_col_Some _ _ _ E5)) as I5.
  pose proof (proj2 (find_col_Some _ _ _ E6)) as I6.
  pose proof (proj2 (find_col_Some _ _ _ E7)) as I7.
  pose proof (proj2 (find_col_Some _ _ _ E8)) as I8.
  unfold _load_and_prepare_data in Hload. cbv zeta in Hload.
  cbn [aliases] in E1, E2, E3, E4, E5, E6, E7, E8, E9, E10.
  rewrite unresolved_reported in Hload.
  rewrite E1, E2, E3, E4, E5, E6, E7, E8, E9, E10 in Hload.
  cbn [is_None List.filter fmap list_fmap snd orb negb is_empty] in Hload.
  set (cols := normalize <$> header raw) in *.
  assert (Hframe : forall n, n ∈ cols ->
            has_col n (frame cols (body raw)) = true)
    by (intros n Hn; by apply bool_decide_eq_true).
  assert (Hown : owner "Source_Name" = None) by reflexivity.
  destruct (find_col cols ["source_name"; "sourcename"; "source"])
    as [n11|] eqn:E11.
  - pose proof (find_col_owner cols F_source_name _ E11) as O11.
    pose proof (proj2 (find_col_Some _ _ _ E11)) as I11.
    apply detect_anomalies_columns in Hload as (Hia & Has & Hcols).
    unfold canonical, record_columns.
    repeat constructor; try done; apply Hcols;
      try (apply has_col_assign, has_col_assign_same);
      try apply has_col_assign_same;
      do 2 apply has_col_assign.
    + apply (has_col_rename _ _ n1); [by apply Hframe|].
      apply (dict_of_lookup [] _ n1);
        repeat constructor; simpl; congruence.
    + apply (has_col_rename _ _ n8); [by apply Hframe|].
      apply (dict_of_lookup [(Some n1, _); (Some n2, _); (Some n3, _); (Some n4, _); (Some n11, _); (Some n5, _); (Some n6, _); (Some n7, _)] _ n8);
        repeat constructor; simpl; congruence.
    + apply (has_col_rename _ _ n2); [by apply Hframe|].
      apply (dict_of_lookup [(Some n1, _)] _ n2);
        repeat constructor; simpl; congruence.
    + apply (has_col_rename _ _ n3); [by apply Hframe|].
      apply (dict_of_lookup [(Some n1, _); (Some n2, _)] _ n3);
        repeat constructor; simpl; congruence.
    + apply (has_col_rename _ _ n4); [by apply Hframe|].
      apply (dict_of_lookup [(Some n1, _); (Some n2, _); (Some n3, _)] _ n4);
        repeat constructor; simpl; congruence.
    + apply (has_col_rename _ _ n11); [by apply Hframe|].
      apply (dict_of_lookup [(Some n1, _); (Some n2, _); (Some n3, _); (Some n4, _)] _ n11);
        repeat constructor; simpl; congruence.
    + apply (has_col_rename _ _ n5); [by apply Hframe|].
      apply (dict_of_lookup [(Some n1, _); (Some n2, _); (Some n3, _); (Some n4, _); (Some n11, _)] _ n5);
        repeat constructor; simpl; congruence.
    + apply (has_col_rename _ _ n6); [by apply Hframe|].
      apply (dict_of_lookup [(Some n1, _); (Some n2, _); (Some n3, _); (Some n4, _); (Some n11, _); (Some n5, _)] _ n6);
        repeat constructor; simpl; congruence.
    + apply (has_col_rename _ _ n7); [by apply Hframe|].
      apply (dict_of_lookup [(Some n1, _); (Some n2, _); (Some n3, _); (Some n4, _); (Some n11, _); (Some n5, _); (Some n6, _)] _ n7);
        repeat constructor; simpl; congruence.
  - apply detect_anomalies_columns in Hload as (Hia & Has & Hcols).
    assert (Hsrc : forall n, n ∈ cols ->
              has_col n (assign "Source_Name"
                           (fun _ : gmap string cell => Str "Unknown Source")
                           (frame cols (body raw))) = true)
      by (intros n Hn; by apply has_col_assign, Hframe).
    unfold canonical, record_columns.
    repeat constructor; try done; apply Hcols;
      try (apply has_col_assign, has_col_assign_same);
      try apply has_col_assign_same;
      do 2 apply has_col_assign.
    + apply (has_col_rename _ _ n1); [by apply Hsrc|].
      apply (dict_of_lookup [] _ n1);
        repeat constructor; simpl; congruence.
    + apply (has_col_rename _ _ n8); [by apply Hsrc|].
      apply (dict_of_lookup [(Some n1, _); (Some n2, _); (Some n3, _); (Some n4, _); (Some "Source_Name"%string, _); (Some n5, _); (Some n6, _); (Some n7, _)] _ n8);
        repeat constructor; simpl; congruence.
    + apply (has_col_rename _ _ n2); [by apply Hsrc|].
      apply (dict_of_lookup [(Some n1, _)] _ n2);
        repeat constructor; simpl; congruence.
    + apply (has_col_rename _ _ n3); [by apply Hsrc|].
      apply (dict_of_lookup [(Some n1, _); (Some n2, _)] _ n3);
        repeat constructor; simpl; congruence.
    + apply (has_col_rename _ _ n4); [by apply Hsrc|].
      apply (dict_of_lookup [(Some n1, _); (Some n2, _); (Some n3, _)] _ n4);
        repeat constructor; simpl; congruence.
    + apply (has_col_rename _ _ "Source_Name"%string); [apply has_col_assign_same|].
      apply (dict_of_lookup [(Some n1, _); (Some n2, _); (Some n3, _); (Some n4, _)] _ "Source_Name"%string);
        repeat constructor; simpl; congruence.
    + apply (has_col_rename _ _ n5); [by apply Hsrc|].
      apply (dict_of_lookup [(Some n1, _); (Some n2, _); (Some n3, _); (Some n4, _); (Some "Source_Name"%string, _)] _ n5);
        repeat constructor; simpl; congruence.
    + apply (has_col_rename _ _ n6); [by apply Hsrc|].
      apply (dict_of_lookup [(Some n1, _); (Some n2, _); (Some n3, _); (Some n4, _); (Some "Source_Name"%string, _); (Some n5, _)] _ n6);
        repeat constructor; simpl; congruence.
    + apply (has_col_rename _ _ n7); [by apply Hsrc|].
      apply (dict_of_lookup [(Some n1, _); (Some n2, _); (Some n3, _); (Some n4, _); (Some "Source_Name"%string, _); (Some n5, _); (Some n6, _)] _ n7);
        repeat constructor; simpl; congruence.
Qed.

Lemma loaded_canonical (d : DataFrame) : loaded d -> canonical d.
Proof. intros [fs Hload]. by apply (load_canonical fs). Qed.

Lemma loaded_from_loaded (raw : RawTable) (d : DataFrame) :
  loaded_from raw d -> loaded d.
Proof. intros (_ & _ & Hload). by exists (Some (Ok raw)). Qed.

(** ** The store *)

(** A query on an empty store runs the loader once and hands back what
    the loader returned; the store then holds the loaded frame, or nothing
    when the loader raised. *)
Lemma get_df_unloaded (fs : FileSystem) (w : World) :
  df w = None ->
  get_df fs w =
  (_load_and_prepare_data fs,
   mkWorld (match _load_and_prepare_data fs with
            | Ok d => Some d
            | Raise _ => None
            end) (S (loads w))).
Proof.
  intros Hw. unfold get_df, bind, getattr_df, load, set_df, ret.
  rewrite Hw. destruct (_load_and_prepare_data fs); [done|].
  simpl. by rewrite Hw.
Qed.

Lemma get_df_loaded (fs : FileSystem) (w : World) (d : DataFrame) :
  df w = Some d -> get_df fs w = (Ok d, w).
Proof.
  intros Hw. unfold get_df, bind, getattr_df, ret. by rewrite Hw.
Qed.

(** C8. While the store holds no dataset, [get_df] and each of the three
    query endpoints run the loader exactly once; when that run raises [e],
    the call raises [e], returns no dataset, and leaves the store holding
    no dataset.  A failed load at startup likewise publishes nothing. *)
Theorem failed_reload_propagates (fs : FileSystem) (w : World) :
  df w = None ->
  (loads (get_df fs w).2 = S (loads w) /\
   loads (filters fs w).2 = S (loads w) /\
   loads (summary fs w).2 = S (loads w) /\
   (forall country pollutant only_anomalies limit,
      loads (map_data fs country pollutant only_anomalies limit w).2 =
      S (loads w))) /\
  (forall e, _load_and_prepare_data fs = Raise e ->
     let w' := mkWorld None (S (loads w)) in
     get_df fs w = (Raise e, w') /\
     filters fs w = (Raise e, w') /\
     summary fs w = (Raise e, w') /\
     (forall country pollutant only_anomalies limit,
        map_data fs country pollutant only_anomalies limit w =
        (Raise e, w')) /\
     startup_event fs w = (Ok tt, w')).
Proof.
  intros Hw. pose proof (get_df_unloaded fs w Hw) as Hget. split.
  - unfold filters, summary, map_data, bind, lift. rewrite Hget.
    by destruct (_load_and_prepare_data fs).
  - intros e Hload w'. rewrite Hload in Hget.
    split; [done|].
    split; [unfold filters, bind; by rewrite Hget|].
    split; [unfold summary, bind; by rewrite Hget|].
    split; [intros; unfold map_data, bind; by rewrite Hget|].
    unfold startup_event, try_except, bind, load, set_df.
    by rewrite Hload.
Qed.

(** ** The measurements query *)

Lemma isin_among (set : list string) (c : cell) :
  isin set c = true <-> among set c.
Proof.
  unfold among. destruct c as [|z|q|s]; simpl.
  1-3: split; [done|by intros (? & ? & ?)].
  rewrite bool_decide_eq_true. split.
  - intros H. by exists s.
  - by intros (s' & [= <-] & H').
Qed.

Lemma eq_one_iff (c : cell) :
  eq_one c = true <-> exists q, num_of c = Some q /\ q == 1.
Proof.
  unfold eq_one. destruct (num_of c) as [q|].
  - rewrite Qeq_bool_iff. split; [by exists q|by intros (? & [= <-] & ?)].
  - split; [done|by intros (? & ? & ?)].
Qed.

Lemma matches_Matches countries pollutants only_anomalies r :
  matches countries pollutants only_anomalies r = true <->
  Matches countries pollutants only_anomalies r.
Proof.
  unfold matches, Matches. rewrite !andb_true_iff, orb_true_iff.
  rewrite negb_true_iff, eq_one_iff.
  assert (Hopt : forall (o : option (list string)) (c : cell),
            match o with None => true | Some set => isin set c end = true <->
            o = None \/ exists set, o = Some set /\ among set c).
  { intros [set|] c.
    - rewrite isin_among. split.
      + intros H. right. by exists set.
      + by intros [?|(? & [= <-] & ?)].
    - split; [by left|done]. }
  rewrite !Hopt. tauto.
Qed.

#[global] Instance Matches_decision countries pollutants only_anomalies r :
  Decision (Matches countries pollutants only_anomalies r).
Proof.
  destruct (matches countries pollutants only_anomalies r) eqn:E.
  - left. by apply matches_Matches.
  - right. intros H. apply matches_Matches in H. congruence.
Defined.

Lemma List_filter_filter {A} (p q : A -> bool) (l : list A) :
  List.filter q (List.filter p l) = List.filter (fun x => p x && q x) l.
Proof.
  induction l as [|x l IH]; [done|]. simpl.
  destruct (p x); simpl; [destruct (q x)|]; by rewrite IH.
Qed.

Lemma List_filter_true {A} (l : list A) : List.filter (fun _ => true) l = l.
Proof. induction l as [|x l IH]; [done|]. simpl. by rewrite IH. Qed.

Lemma List_filter_false {A} (l : list A) : List.filter (fun _ => false) l = [].
Proof. by induction l. Qed.

Lemma List_filter_decide {A} (p : A -> bool) (P : A -> Prop)
    `{!forall x, Decision (P x)} (l : list A) :
  (forall x, p x = true <-> P x) -> List.filter p l = filter P l.
Proof.
  intros Hp. induction l as [|x l IH]; [done|]. simpl.
  rewrite filter_cons. destruct (decide (P x)) as [HP|HP].
  - apply Hp in HP. by rewrite HP, IH.
  - destruct (p x) eqn:E; [by apply Hp in E|done].
Qed.

Lemma find_missing_None (labels : list string) (d : DataFrame) :
  Forall (fun l => has_col l d = true) labels ->
  List.find (fun l => negb (has_col l d)) labels = None.
Proof.
  induction 1 as [|l labels Hl _ IH]; [done|]. simpl. by rewrite Hl.
Qed.

(** Membership of a literal in a literal list, by evaluation. *)
Ltac in_list := apply (bool_decide_unpack _); vm_compute; exact I.

Lemma canonical_has_col (d : DataFrame) (l : string) :
  canonical d -> l ∈ record_columns -> has_col l d = true.
Proof. unfold canonical. rewrite Forall_forall. auto. Qed.

(** What [/map-data] computes on a loaded dataset, for any limit: the
    three optional selections amount to one filter, then [head] and the
    projection onto the record columns. *)
Lemma map_data_loaded (fs : FileSystem) (w w' : World) (d : DataFrame)
    (country pollutant : option string) (only_anomalies : bool) (limit : Z) :
  get_df fs w = (Ok d, w') ->
  canonical d ->
  let matching :=
    select (matches (criterion country) (criterion pollutant) only_anomalies)
           d in
  map_data fs country pollutant only_anomalies limit w =
  (Ok {| count := Z.of_nat (len (head limit matching));
         data := record_of <$> rows (head limit matching) |}, w').
Proof.
  intros Hget Hcan matching. unfold map_data, bind. rewrite Hget.
  unfold lift. f_equal.
  assert (HCL : has_col "Country_Label" d = true)
    by (apply canonical_has_col; [done|in_list]).
  assert (HPo : has_col "Pollutant" d = true)
    by (apply canonical_has_col; [done|in_list]).
  assert (HIA : has_col "is_anomaly" d = true)
    by (apply canonical_has_col; [done|in_list]).
  set (p1 := fun r : gmap string cell =>
               match criterion country with
               | None => true
               | Some set => isin set (r !!! "Country_Label")
               end).
  set (p2 := fun r : gmap string cell =>
               match criterion pollutant with
               | None => true
               | Some set => isin set (r !!! "Pollutant")
               end).
  set (p3 := fun r : gmap string cell =>
               negb only_anomalies || eq_one (r !!! "is_anomaly")).
  assert (H1 : (if truthy country
                then where_isin "Country_Label"
                       (tokens (default "" country)) d
                else Ok d) = Ok (select p1 d)).
  { unfold p1, where_isin. rewrite HCL.
    destruct country as [[|c s]|]; simpl;
      first [ done | unfold select; by rewrite List_filter_true; destruct d ]. }
  rewrite H1. cbn [bind_result].
  assert (H2 : (if truthy pollutant
                then where_isin "Pollutant"
                       (tokens (default "" pollutant)) (select p1 d)
                else Ok (select p1 d)) = Ok (select p2 (select p1 d))).
  { unfold p2, where_isin. change (has_col "Pollutant" (select p1 d))
      with (has_col "Pollutant" d). rewrite HPo.
    destruct pollutant as [[|c s]|]; simpl;
      first [ done
            | unfold select; simpl; by rewrite List_filter_true ]. }
  rewrite H2. cbn [bind_result].
  assert (H3 : (if only_anomalies
                then where_eq_one "is_anomaly" (select p2 (select p1 d))
                else Ok (select p2 (select p1 d))) =
               Ok (select p3 (select p2 (select p1 d)))).
  { unfold p3, where_eq_one.
    change (has_col "is_anomaly" (select p2 (select p1 d)))
      with (has_col "is_anomaly" d). rewrite HIA.
    destruct only_anomalies; simpl;
      first [ done
            | unfold select; simpl; by rewrite List_filter_true ]. }
  rewrite H3. cbn [bind_result].
  assert (Hsel : select p3 (select p2 (select p1 d)) = matching).
  { unfold matching, select. simpl. f_equal.
    rewrite !List_filter_filter. apply List.filter_ext. intros r.
    unfold matches, p1, p2, p3. by rewrite andb_assoc. }
  rewrite Hsel. unfold getitem_list.
  rewrite find_missing_None; [done|].
  exact Hcan.
Qed.


(** ** Filter strings *)

Lemma append_nil_l (t : string) : EmptyString +:+ t = t.
Proof. reflexivity. Qed.

Lemma append_cons_l (c : ascii) (l t : string) :
  String c l +:+ t = String c (l +:+ t).
Proof. reflexivity. Qed.

Lemma concat_cons_cons (sep x y : string) (l : list string) :
  String.concat sep (x :: y :: l) = x +:+ sep +:+ String.concat sep (y :: l).
Proof. reflexivity. Qed.

Lemma append_nil_r (t : string) : t +:+ EmptyString = t.
Proof. induction t as [|c t IH]; [done|]. by rewrite append_cons_l, IH. Qed.

Lemma append_assoc (a b c : string) : (a +:+ b) +:+ c = a +:+ (b +:+ c).
Proof.
  induction a as [|x a IH]; [done|]. by rewrite !append_cons_l, IH.
Qed.

(** [lstrip] and [all_space], one whitespace character at a time. *)
Lemma lstrip_step (s : string) :
  lstrip s = match skip_space s with Some r => lstrip r | None => s end.
Proof.
  destruct s as [|a [|b [|c s3]]]; simpl; try done;
    repeat (case_match; try done).
Qed.

Lemma all_space_step (s : string) :
  all_space s =
  match s with
  | EmptyString => true
  | _ => match skip_space s with Some r => all_space r | None => false end
  end.
Proof.
  destruct s as [|a [|b [|c s3]]]; simpl; try done;
    destruct (is_space a); try done;
    destruct (is_space2 a b); try done;
    by destruct (is_space3 a b c).
Qed.

(** A whitespace character is one, two or three bytes at the head. *)
Lemma skip_space_Some (s r : string) :
  skip_space s = Some r ->
  exists w, s = w +:+ r /\ skip_space w = Some EmptyString /\
            (String.length r < String.length s)%nat.
Proof.
  destruct s as [|a [|b [|c s3]]]; simpl; try done;
    repeat (case_match; try done); intros [= <-].
  all: first
    [ exists (String a EmptyString); simpl; rewrite ?H; split; [done|];
      split; [done|lia]
    | exists (String a (String b EmptyString)); simpl; rewrite ?H, ?H0;
      split; [done|]; split; [done|lia]
    | exists (String a (String b (String c EmptyString))); simpl;
      rewrite ?H, ?H0, ?H1; split; [done|]; split; [done|lia] ].
Qed.

Lemma skip_space_app (s r t : string) :
  skip_space s = Some r -> skip_space (s +:+ t) = Some (r +:+ t).
Proof.
  destruct s as [|a [|b [|c s3]]]; simpl; try done;
    repeat (case_match; try done); intros [= <-];
    rewrite ?append_cons_l; simpl; by rewrite ?H, ?H0, ?H1.
Qed.

Lemma string_length_ind (P : string -> Prop) :
  (forall s,
     (forall t, (String.length t < String.length s)%nat -> P t) -> P s) ->
  forall s, P s.
Proof.
  intros H s. remember (String.length s) as n eqn:E.
  revert s E. induction (lt_wf n) as [n _ IH]. intros s ->.
  apply H. intros t Ht. by apply (IH (String.length t)).
Qed.

Lemma lstrip_spec (s : string) :
  exists l, s = l +:+ lstrip s /\ all_space l = true /\
            head_space (lstrip s) = false.
Proof.
  induction s as [s IH] using string_length_ind.
  rewrite lstrip_step. destruct (skip_space s) as [r|] eqn:E.
  - destruct (skip_space_Some s r E) as (w & -> & Hw & Hlen).
    destruct (IH r Hlen) as (l & Hr & Hl & Hh).
    exists (w +:+ l). rewrite append_assoc, <- Hr. split; [done|].
    split; [|done].
    rewrite all_space_step, (skip_space_app w EmptyString l Hw).
    rewrite append_nil_l, Hl. destruct w; [done|]. by rewrite append_cons_l.
  - exists EmptyString. split; [done|]. split; [done|].
    unfold head_space. by rewrite E.
Qed.

Lemma rstrip_spec (s : string) :
  exists r, s = rstrip s +:+ r /\ all_space r = true /\
            last_space (rstrip s) = false /\
            (head_space s = false -> head_space (rstrip s) = false).
Proof.
  induction s as [|c s (r & Hs & Hr & Hl & Hh)].
  - by exists EmptyString.
  - cbn [rstrip]. destruct (all_space (String c s)) eqn:E.
    + exists (String c s). by rewrite append_nil_l.
    + exists r. rewrite append_cons_l, <- Hs. split; [done|].
      split; [done|]. split.
      * cbn [last_space]. rewrite Hl, orb_false_r. unfold one_space.
        destruct (skip_space (String c (rstrip s))) as [[|x t]|] eqn:Es;
          [|done..].
        apply (skip_space_app _ _ r) in Es.
        rewrite append_cons_l, <- Hs, append_nil_l in Es.
        rewrite all_space_step, Es, Hr in E. done.
      * unfold head_space.
        destruct (skip_space (String c (rstrip s))) as [t|] eqn:Es; [|done].
        apply (skip_space_app _ _ r) in Es.
        rewrite append_cons_l, <- Hs in Es. by rewrite Es.
Qed.

Lemma strip_trimmed (s : string) : trimmed s (strip s).
Proof.
  unfold trimmed, strip.
  destruct (lstrip_spec s) as (l & Hs & Hl & Hh).
  destruct (rstrip_spec (lstrip s)) as (r & Hs' & Hr & Hlast & Hhead).
  split; [|split; [by apply Hhead|done]].
  exists l, r. split; [|done]. by rewrite <- Hs', <- Hs.
Qed.

Lemma split_comma_spec (s : string) : comma_separated s (split_comma s).
Proof.
  unfold comma_separated.
  induction s as [|c s (Hj & Hne & Hnc)]; simpl.
  - split; [done|]. split; [done|]. by repeat constructor.
  - destruct (Ascii.eqb c ",") eqn:E.
    + apply Ascii.eqb_eq in E. subst c.
      split; [|split; [done|by constructor]].
      destruct (split_comma s) as [|t ts]; [done|].
      rewrite concat_cons_cons, append_nil_l, append_cons_l, append_nil_l.
      by rewrite Hj.
    + destruct (split_comma s) as [|t ts]; [done|].
      split; [|split; [done|]].
      * destruct ts as [|t' ts]; [simpl in *; by rewrite Hj|].
        rewrite concat_cons_cons, append_cons_l.
        by rewrite <- Hj, concat_cons_cons.
      * apply Forall_cons in Hnc as [Ht Hts]. constructor; [|done].
        simpl. by rewrite E, Ht.
Qed.

Lemma tokens_filter (s : string) :
  tokens s = List.filter nonempty (strip <$> split_comma s).
Proof.
  unfold tokens. induction (split_comma s) as [|t ts IH]; [done|].
  cbn. rewrite <- IH. by destruct (strip t).
Qed.


(** ** Distinct values and groups *)

Lemma Qeq_bool_sym (x y : Q) : Qeq_bool x y = Qeq_bool y x.
Proof.
  apply eq_true_iff_eq. rewrite !Qeq_bool_iff. split; intros H; by symmetry.
Qed.

Lemma cell_eqb_sym (a b : cell) : cell_eqb a b = cell_eqb b a.
Proof.
  destruct a, b; simpl; try done; try apply Qeq_bool_sym.
  apply String.eqb_sym.
Qed.

Lemma cell_eqb_trans (a b c : cell) :
  cell_eqb a b = true -> cell_eqb b c = true -> cell_eqb a c = true.
Proof.
  unfold cell_eqb.
  destruct a, b, c; simpl; try done;
    rewrite ?Qeq_bool_iff, ?String.eqb_eq;
    first [ congruence | intros H1 H2; by rewrite H1 ].
Qed.

Lemma cell_eqb_refl (a : cell) : isna a = false -> cell_eqb a a = true.
Proof.
  destruct a; simpl; try done; intros _;
    first [ by apply Qeq_bool_iff | apply String.eqb_refl ].
Qed.

Lemma cell_eqb_notna (a b : cell) : cell_eqb a b = true -> isna b = false.
Proof. by destruct a, b. Qed.

Lemma elem_of_List_filter {A} (p : A -> bool) (l : list A) (x : A) :
  x ∈ List.filter p l <-> x ∈ l /\ p x = true.
Proof. rewrite !list_elem_of_In. apply filter_In. Qed.

Lemma unique_elem (cs : list cell) (x : cell) : x ∈ unique cs -> x ∈ cs.
Proof.
  revert x. induction cs as [|c cs IH]; intros x; simpl; [done|].
  rewrite !elem_of_cons, elem_of_List_filter. intros [->|[H _]]; auto.
Qed.

Lemma unique_complete (cs : list cell) (x : cell) :
  x ∈ cs -> isna x = false ->
  exists k, k ∈ unique cs /\ cell_eqb k x = true.
Proof.
  intros Hin Hx. induction cs as [|c cs IH]; [by apply not_elem_of_nil in Hin|].
  simpl. apply elem_of_cons in Hin as [->|Hin].
  - exists c. split; [apply list_elem_of_here|by apply cell_eqb_refl].
  - destruct (IH Hin) as (k & Hk & Hkx).
    destruct (cell_eqb c k) eqn:E.
    + exists c. split; [apply list_elem_of_here|].
      by apply (cell_eqb_trans c k x).
    + exists k. split; [|done]. apply list_elem_of_further.
      apply elem_of_List_filter. by rewrite E.
Qed.

Lemma ForallOrdPairs_filter {A} (R : A -> A -> Prop) (p : A -> bool)
    (l : list A) :
  ForallOrdPairs R l -> ForallOrdPairs R (List.filter p l).
Proof.
  induction 1 as [|x l Hx _ IH]; simpl; [constructor|].
  destruct (p x); [|done]. constructor; [|done].
  rewrite List.Forall_forall in *. intros y Hy.
  apply filter_In in Hy as [Hy _]. auto.
Qed.

Lemma unique_distinct (cs : list cell) :
  ForallOrdPairs (fun a b => cell_eqb a b = false) (unique cs).
Proof.
  induction cs as [|c cs IH]; simpl; constructor.
  - rewrite List.Forall_forall. intros y Hy.
    apply filter_In in Hy as [_ Hy]. by apply negb_true_iff in Hy.
  - by apply ForallOrdPairs_filter.
Qed.

Lemma unique_notna_distinct_values (cs : list cell) :
  distinct_values cs (unique (notna cs)).
Proof.
  unfold distinct_values, notna. split; [|split].
  - apply Forall_forall. intros k Hk. apply unique_elem in Hk.
    apply elem_of_List_filter in Hk as [Hk Hna].
    by apply negb_true_iff in Hna.
  - apply Forall_forall. intros c Hc Hna. apply unique_complete; [|done].
    apply elem_of_List_filter. by rewrite Hna.
  - apply unique_distinct.
Qed.

(** Being a list of distinct values does not depend on the order. *)
Lemma ForallOrdPairs_Permutation (ks ks' : list cell) :
  ks ≡ₚ ks' ->
  ForallOrdPairs (fun a b => cell_eqb a b = false) ks ->
  ForallOrdPairs (fun a b => cell_eqb a b = false) ks'.
Proof.
  induction 1 as [|x l l' Hp IH|x y l|l l' l'' Hp1 IH1 Hp2 IH2]; intros H.
  - done.
  - inversion H as [|? ? Hx Hl]; subst. constructor; [|auto].
    rewrite List.Forall_forall in *. intros z Hz. apply Hx.
    apply list_elem_of_In. rewrite Hp. by apply list_elem_of_In.
  - inversion H as [|? ? Hy Hl]; subst.
    inversion Hl as [|? ? Hx Hl']; subst.
    inversion Hy as [|? ? Hyx Hyl]; subst.
    constructor; [constructor; [by rewrite cell_eqb_sym|done]|].
    by constructor.
  - auto.
Qed.

Lemma distinct_values_Permutation (cs ks ks' : list cell) :
  ks ≡ₚ ks' -> distinct_values cs ks -> distinct_values cs ks'.
Proof.
  intros Hp (H1 & H2 & H3). split; [|split].
  - by rewrite <- Hp.
  - eapply Forall_impl; [exact H2|]. intros c Hc Hna.
    destruct (Hc Hna) as (k & Hk & E). exists k. by rewrite <- Hp.
  - by eapply ForallOrdPairs_Permutation.
Qed.

Lemma Zsum_cons (z : Z) (zs : list Z) : Zsum (z :: zs) = (z + Zsum zs)%Z.
Proof. reflexivity. Qed.

Lemma Zsum_Permutation (l l' : list Z) : l ≡ₚ l' -> Zsum l = Zsum l'.
Proof. unfold Zsum. induction 1; simpl; lia. Qed.

(** Two tests that never hold together split what their disjunction
    selects. *)
Lemma length_filter_disjoint {A} (a b : A -> bool) (l : list A) :
  Forall (fun x => a x && b x = false) l ->
  (length (List.filter a l) + length (List.filter b l))%nat =
  length (List.filter (fun x => a x || b x) l).
Proof.
  induction 1 as [|x l Hx _ IH]; [done|]. simpl.
  destruct (a x), (b x); simpl in *; try discriminate; lia.
Qed.

(** Over distinct keys, the sizes of the groups add up to the number of
    records whose key equals one of them. *)
Lemma group_sizes_sum {A} (key : A -> cell) (p : A -> bool)
    (ks : list cell) (l : list A) :
  ForallOrdPairs (fun a b => cell_eqb a b = false) ks ->
  Zsum ((fun k => Z.of_nat (length (List.filter
                    (fun r => cell_eqb k (key r) && p r) l))) <$> ks) =
  Z.of_nat (length (List.filter
              (fun r => existsb (fun k => cell_eqb k (key r)) ks && p r) l)).
Proof.
  induction 1 as [|k ks Hk _ IH].
  - simpl. by rewrite List_filter_false.
  - rewrite fmap_cons, Zsum_cons, IH, <- Nat2Z.inj_add. f_equal.
    rewrite length_filter_disjoint.
    + f_equal. apply List.filter_ext. intros r. cbn [existsb].
      by destruct (cell_eqb k (key r)), (p r), (existsb _ ks).
    + apply Forall_forall. intros r _.
      destruct (cell_eqb k (key r)) eqn:E1; [|done].
      destruct (existsb _ ks) eqn:E2; [|by destruct (p r)].
      exfalso. apply existsb_exists in E2 as (k' & Hk' & E2).
      rewrite List.Forall_forall in Hk. specialize (Hk k' Hk').
      rewrite cell_eqb_sym in E2.
      by rewrite (cell_eqb_trans k (key r) k' E1 E2) in Hk.
Qed.

Lemma existsb_unique_notna (cs : list cell) (c : cell) :
  c ∈ cs ->
  existsb (fun k => cell_eqb k c) (unique (notna cs)) = negb (isna c).
Proof.
  intros Hc. apply eq_true_iff_eq. rewrite existsb_exists, negb_true_iff.
  split.
  - intros (k & _ & E). by apply cell_eqb_notna in E.
  - intros Hna.
    destruct (unique_complete (notna cs) c) as (k & Hk & E); [|done|].
    + apply elem_of_List_filter. by rewrite Hna.
    + exists k. by rewrite <- list_elem_of_In.
Qed.

Lemma dropna_col_select (key : string) (k : cell) (d : DataFrame) :
  dropna (col "Value" (select (fun r => cell_eqb k (r !!! key)) d)) =
  group_values key k d.
Proof.
  unfold dropna, col, select, group_values. simpl.
  induction (rows d) as [|r l IH]; [done|]. simpl.
  destruct (cell_eqb k (r !!! key)); cbn; [|done].
  destruct (num_of (r !!! "Value")); cbn; by rewrite IH.
Qed.

Lemma length_group_values (key : string) (k : cell) (d : DataFrame) :
  length (group_values key k d) =
  length (List.filter
            (fun r : gmap string cell =>
               cell_eqb k (r !!! key) &&
               negb (is_None (num_of (r !!! "Value")))) (rows d)).
Proof.
  unfold group_values. induction (rows d) as [|r l IH]; [done|]. cbn.
  destruct (cell_eqb k (r !!! key)); cbn; [|done].
  destruct (num_of (r !!! "Value")); cbn; by rewrite IH.
Qed.

Lemma Qmin_cases (x y : Q) : Qmin x y = x \/ Qmin x y = y.
Proof.
  unfold Qmin, GenericMinMax.gmin. destruct (x ?= y); auto.
Qed.

Lemma Qmax_cases (x y : Q) : Qmax x y = x \/ Qmax x y = y.
Proof.
  unfold Qmax, GenericMinMax.gmax. destruct (x ?= y); auto.
Qed.

Lemma foldl_Qmin_spec (x : Q) (xs : list Q) :
  foldl Qmin x xs ∈ x :: xs /\
  Forall (fun y => foldl Qmin x xs <= y) (x :: xs).
Proof.
  revert x. induction xs as [|y ys IH]; intros x; simpl.
  - split; [apply list_elem_of_here|]. constructor; [lra|constructor].
  - destruct (IH (Qmin x y)) as [Hin Hle].
    apply Forall_cons in Hle as [Hm Hys].
    pose proof (Q.le_min_l x y). pose proof (Q.le_min_r x y). split.
    + apply elem_of_cons in Hin as [->|Hin].
      * destruct (Qmin_cases x y) as [-> | ->];
          [apply list_elem_of_here
          |apply list_elem_of_further, list_elem_of_here].
      * by do 2 apply list_elem_of_further.
    + constructor; [lra|]. constructor; [lra|done].
Qed.

Lemma foldl_Qmax_spec (x : Q) (xs : list Q) :
  foldl Qmax x xs ∈ x :: xs /\
  Forall (fun y => y <= foldl Qmax x xs) (x :: xs).
Proof.
  revert x. induction xs as [|y ys IH]; intros x; simpl.
  - split; [apply list_elem_of_here|]. constructor; [lra|constructor].
  - destruct (IH (Qmax x y)) as [Hin Hle].
    apply Forall_cons in Hle as [Hm Hys].
    pose proof (Q.le_max_l x y). pose proof (Q.le_max_r x y). split.
    + apply elem_of_cons in Hin as [->|Hin].
      * destruct (Qmax_cases x y) as [-> | ->];
          [apply list_elem_of_here
          |apply list_elem_of_further, list_elem_of_here].
      * by do 2 apply list_elem_of_further.
    + constructor; [lra|]. constructor; [lra|done].
Qed.

(** The lines [groupby_agg] makes: one per sorted distinct key, each with
    the aggregates of its group. *)
Lemma groupby_agg_spec (key : string) (d : DataFrame) :
  has_col key d = true -> has_col "Value" d = true ->
  exists gs,
    groupby_agg key "Value" d = Ok gs /\
    group_key <$> gs = merge_sort cell_le (unique (notna (col key d))) /\
    Forall (group_stats key d) gs.
Proof.
  intros Hk Hv. unfold groupby_agg. rewrite Hk, Hv. simpl.
  eexists. split; [reflexivity|]. split.
  - rewrite <- list_fmap_compose. simpl. by rewrite list_fmap_id.
  - apply Forall_fmap, Forall_forall. intros k _.
    unfold group_stats. simpl.
    unfold agg_count, agg_mean, agg_min, agg_max.
    rewrite dropna_col_select.
    destruct (group_values key k d) as [|x xs] eqn:E.
    + split; [done|]. split; [done|]. by intros [].
    + split; [done|]. split; [done|]. intros _.
      destruct (foldl_Qmin_spec x xs) as [Hmin1 Hmin2].
      destruct (foldl_Qmax_spec x xs) as [Hmax1 Hmax2].
      eexists _, _. split; [reflexivity|].
      split; [reflexivity|]. split; [done|]. split; [done|].
      split; [reflexivity|]. by split.
Qed.



Lemma detect_anomalies_numeric (d d' : DataFrame) :
  detect_anomalies d = Ok d' -> numeric_values d'.
Proof.
  intros Hd. destruct (detect_anomalies_Value d d' Hd) as [Hcol _].
  destruct (detect_anomalies_rows d Hcol) as (d'' & Hd' & Hrows).
  rewrite Hd in Hd'. injection Hd' as <-.
  unfold numeric_values. rewrite Hrows.
  apply Forall_fmap, Forall_forall. intros r _. simpl.
  rewrite labelled_Value. intros Hna.
  destruct (num_of (to_numeric (r !!! "Value"))) eqn:E; [by eexists|].
  apply to_numeric_isna in E. congruence.
Qed.

Lemma loaded_numeric (d : DataFrame) : loaded d -> numeric_values d.
Proof.
  intros [fs Hload]. destruct (load_detects fs d Hload) as [d0 Hd0].
  by apply (detect_anomalies_numeric d0).
Qed.


(** * Further properties of the code *)

(** ** The detector: what it writes and what it leaves alone *)

Lemma to_numeric_idempotent (c : cell) :
  to_numeric (to_numeric c) = to_numeric c.
Proof.
  destruct c as [|z|q|t]; simpl; try done.
  by destruct (parse_number t).
Qed.

(** The frame [detect_anomalies] returns, columns and rows. *)
Lemma detect_anomalies_frame (d : DataFrame) :
  has_col "Value" d = true ->
  detect_anomalies d =
  Ok {| columns := with_label "anomaly_score"
                     (with_label "is_anomaly"
                        (with_label "Value" (columns d)));
        rows := labelled (lower_fence (value_series d))
                         (upper_fence (value_series d))
                         (median (value_series d)) <$> rows d |}.
Proof.
  intros Hcol. destruct (detect_anomalies_rows d Hcol) as (d' & Hd & Hrows).
  rewrite Hd. f_equal. destruct d' as [cs rs]. simpl in Hrows. subst rs.
  f_equal. unfold detect_anomalies in Hd. rewrite Hcol in Hd. simpl in Hd.
  destruct (is_empty _); by injection Hd as <- _.
Qed.

Lemma with_label_elem (name l : string) (labels : list string) :
  l ∈ with_label name labels <-> l ∈ labels \/ l = name.
Proof.
  unfold with_label. case_bool_decide as H.
  - split; [by left|]. by intros [?| ->].
  - rewrite elem_of_app, list_elem_of_singleton. tauto.
Qed.

Lemma with_label_present (name : string) (labels : list string) :
  name ∈ labels -> with_label name labels = labels.
Proof. intros H. unfold with_label. by rewrite bool_decide_eq_true_2. Qed.

Lemma labelled_other lo hi m (r : gmap string cell) (name : string) :
  name ∉ detector_columns -> labelled lo hi m r !!! name = r !!! name.
Proof.
  intros Hn. unfold labelled, detector_columns in *.
  rewrite !lookup_total_insert_ne; [done|..]; intros <-; apply Hn;
    repeat first [ apply list_elem_of_here | apply list_elem_of_further ].
Qed.

Lemma labelled_idempotent lo hi m (r : gmap string cell) :
  labelled lo hi m (labelled lo hi m r) = labelled lo hi m r.
Proof.
  apply map_eq. intros k. unfold labelled at 1.
  rewrite labelled_Value, to_numeric_idempotent.
  set (v := to_numeric (r !!! "Value")).
  set (r' := labelled lo hi m r).
  assert (HV : r' !! "Value" = Some v).
  { unfold r', labelled. do 2 rewrite lookup_insert_ne by done.
    by rewrite lookup_insert_eq. }
  assert (HI : r' !! "is_anomaly" = Some (Int (_is_anomaly lo hi v))).
  { unfold r', labelled. rewrite lookup_insert_ne by done.
    by rewrite lookup_insert_eq. }
  assert (HS : r' !! "anomaly_score" = Some (Num (_score lo hi m v))).
  { unfold r', labelled. by rewrite lookup_insert_eq. }
  rewrite (insert_id r' "Value"), (insert_id r' "is_anomaly"),
    (insert_id r' "anomaly_score"); done.
Qed.

(** X1. The detector is idempotent: run on a frame it returned, it
    returns that frame again, columns, values, flags and scores alike. *)
Theorem detect_anomalies_idempotent (d d' : DataFrame) :
  detect_anomalies d = Ok d' -> detect_anomalies d' = Ok d'.
Proof.
  intros Hd. destruct (detect_anomalies_Value d d' Hd) as [Hcol HV].
  destruct (detect_anomalies_columns d d' Hd) as (Hia & Hsc & Hkeep).
  pose proof (Hkeep _ Hcol) as Hcol'.
  rewrite (detect_anomalies_frame d Hcol) in Hd. injection Hd as Hd.
  rewrite (detect_anomalies_frame d' Hcol'). f_equal.
  assert (Hvs : value_series d' = value_series d).
  { unfold value_series. rewrite HV, <- list_fmap_compose. f_equal.
    apply list_fmap_ext. intros i c _. apply to_numeric_idempotent. }
  rewrite Hvs. destruct d' as [cs rs]. injection Hd as Hc Hr.
  unfold has_col in Hcol', Hia, Hsc. simpl in *.
  apply bool_decide_eq_true in Hcol', Hia, Hsc. f_equal.
  - rewrite (with_label_present "Value") by done.
    rewrite (with_label_present "is_anomaly") by done.
    by rewrite (with_label_present "anomaly_score").
  - rewrite <- Hr at 2. rewrite <- Hr, <- list_fmap_compose.
    apply list_fmap_ext. intros i r _. apply labelled_idempotent.
Qed.

(** X2. The only error of the detector is the missing [Value] column; on
    every other frame it keeps the number and the order of the records,
    leaves every column other than [Value], [is_anomaly] and
    [anomaly_score] cell for cell as it was, and adds to the column index
    nothing but the labels [is_anomaly] and [anomaly_score]. *)
Theorem detect_anomalies_touches_three_columns (d : DataFrame) :
  (has_col "Value" d = false ->
   detect_anomalies d = Raise (ValueError ExpectedValueColumn)) /\
  (has_col "Value" d = true ->
   exists d',
     detect_anomalies d = Ok d' /\
     (forall name, name ∉ detector_columns -> col name d' = col name d) /\
     (forall l, has_col l d' = true <->
                has_col l d = true \/ l = "is_anomaly"%string \/
                l = "anomaly_score"%string)).
Proof.
  split.
  - intros H. unfold detect_anomalies. by rewrite H.
  - intros Hcol. eexists. split; [by apply detect_anomalies_frame|]. split.
    + intros name Hn. unfold col. simpl. rewrite <- list_fmap_compose.
      apply list_fmap_ext. intros i r _. simpl. by apply labelled_other.
    + intros l. unfold has_col in *. simpl.
      rewrite !bool_decide_eq_true, !with_label_elem.
      apply bool_decide_eq_true in Hcol. split; [|tauto].
      intros [[[?| ->]|?]|?]; auto.
Qed.

(** ** Order statistics: position of the quartiles *)

Lemma sorted_nth_le (s : list Q) (i j : nat) :
  StronglySorted Qle s -> (i <= j)%nat -> (j < length s)%nat ->
  nth i s 0 <= nth j s 0.
Proof.
  intros Hs. revert i j.
  induction Hs as [|x s Hs IH Hx]; intros i j Hij Hj; simpl in *; [lia|].
  destruct i as [|i], j as [|j]; try lia.
  - lra.
  - rewrite List.Forall_forall in Hx. apply Hx, nth_In. lia.
  - apply IH; lia.
Qed.

Lemma merge_sort_StronglySorted (xs : list Q) :
  StronglySorted Qle (merge_sort Qle xs).
Proof. apply StronglySorted_merge_sort; apply _. Qed.


Lemma Qfloor_unique (h : Q) (z : Z) :
  inject_Z z <= h -> h < inject_Z (z + 1) -> Qfloor h = z.
Proof.
  intros H1 H2. pose proof (Qfloor_le h) as H3.
  pose proof (Qlt_floor h) as H4.
  assert ((z < Qfloor h + 1)%Z) by (rewrite Zlt_Qlt; lra).
  assert ((Qfloor h < z + 1)%Z) by (rewrite Zlt_Qlt; lra).
  lia.
Qed.

(** The indices [Series.quantile] reads, and the weight it gives them. *)
Lemma quantile_indices (p : Q) (xs : list Q) :
  xs <> [] -> 0 <= p -> p <= 1 ->
  let last := (Z.of_nat (length xs) - 1)%Z in
  let h := inject_Z last * p in
  (0 <= Qfloor h)%Z /\ (Qfloor h <= last)%Z /\
  0 <= h - inject_Z (Qfloor h) /\ h - inject_Z (Qfloor h) < 1.
Proof.
  intros Hne Hp0 Hp1 last h.
  assert (Hn : (0 < length xs)%nat) by (destruct xs; [done|simpl; lia]).
  destruct (virtual_index_bounds (length xs) p Hn Hp0 Hp1) as [Hlo Hhi].
  fold last h in Hlo, Hhi.
  pose proof (Qle_floor_ceiling h) as Hfc. rewrite <- Zle_Qle in Hfc.
  pose proof (Qfloor_le h). pose proof (Qlt_floor h) as Hlt.
  rewrite inject_Z_plus in Hlt. change (inject_Z 1) with 1 in Hlt.
  split; [done|]. split; [lia|]. split; lra.
Qed.




Lemma inject_Z_double_pred (k : Z) :
  inject_Z (2 * k - 1) == 2 * inject_Z k - 1.
Proof.
  unfold Z.sub. rewrite inject_Z_plus, inject_Z_mult, inject_Z_opp.
  change (inject_Z 2) with 2. change (inject_Z 1) with 1. ring.
Qed.

Lemma inject_Z_pred (k : Z) : inject_Z (k - 1) == inject_Z k - 1.
Proof.
  unfold Z.sub. rewrite inject_Z_plus, inject_Z_opp.
  change (inject_Z 1) with 1. ring.
Qed.

(** [Series.median] is the quantile of probability one half. *)
Lemma median_quantile (xs : list Q) :
  xs <> [] -> median xs == quantile 0.5 xs.
Proof.
  intros Hne. unfold median, quantile.
  set (s := merge_sort Qle xs). set (n := length s).
  assert (Hn : (0 < n)%nat).
  { unfold n, s. rewrite length_merge_sort. destruct xs; [done|simpl; lia]. }
  destruct (Nat.even n) eqn:Heven.
  - apply Nat.even_spec in Heven as [k Hk].
    assert (Hk2 : (n / 2 = k)%nat)
      by (rewrite Hk, Nat.mul_comm; apply Nat.div_mul; lia).
    rewrite Hk2.
    replace (Z.of_nat n - 1)%Z with (2 * Z.of_nat k - 1)%Z by lia.
    pose proof (inject_Z_double_pred (Z.of_nat k)) as Hh.
    pose proof (inject_Z_pred (Z.of_nat k)) as Hp.
    assert (Hfl : Qfloor (inject_Z (2 * Z.of_nat k - 1) * 0.5) =
                  (Z.of_nat k - 1)%Z).
    { apply Qfloor_unique; [lra|].
      replace (Z.of_nat k - 1 + 1)%Z with (Z.of_nat k) by lia. lra. }
    rewrite Hfl.
    replace (Z.min (Z.of_nat k - 1 + 1) (2 * Z.of_nat k - 1)) with (Z.of_nat k)
      by lia.
    replace (Z.to_nat (Z.of_nat k - 1)) with (k - 1)%nat by lia.
    rewrite Nat2Z.id.
    assert (Hg : inject_Z (2 * Z.of_nat k - 1) * 0.5
                 - inject_Z (Z.of_nat k - 1) == 0.5) by lra.
    rewrite Hg. field.
  - assert (Hodd : Nat.odd n = true)
      by (rewrite <- Nat.negb_even; by rewrite Heven).
    apply Nat.odd_spec in Hodd as [k Hk].
    assert (Hk2 : (n / 2 = k)%nat)
      by (rewrite Hk, Nat.mul_comm, Nat.div_add_l by lia;
          change (1 / 2)%nat with 0%nat; lia).
    rewrite Hk2.
    replace (Z.of_nat n - 1)%Z with (2 * Z.of_nat k)%Z by lia.
    assert (Hh : inject_Z (2 * Z.of_nat k) * 0.5 == inject_Z (Z.of_nat k)).
    { rewrite inject_Z_mult. change (inject_Z 2) with 2. lra. }
    assert (Hfl : Qfloor (inject_Z (2 * Z.of_nat k) * 0.5) = Z.of_nat k).
    { apply Qfloor_unique; [lra|]. rewrite inject_Z_plus.
      change (inject_Z 1) with 1. lra. }
    rewrite Hfl, Nat2Z.id. rewrite Hh. ring.
Qed.




(** ** Order statistics: independence of the order of the data *)

Lemma length_filter_Permutation {A} (f : A -> bool) (l l' : list A) :
  l ≡ₚ l' -> length (List.filter f l) = length (List.filter f l').
Proof.
  induction 1 as [|x l l' _ IH|x y l|l l' l'' _ IH1 _ IH2]; simpl.
  - done.
  - destruct (f x); simpl; by rewrite IH.
  - by destruct (f x), (f y).
  - by rewrite IH1.
Qed.

Lemma length_filter_le {A} (f : A -> bool) (l : list A) :
  (length (List.filter f l) <= length l)%nat.
Proof. induction l as [|x l IH]; simpl; [lia|]. destruct (f x); simpl; lia. Qed.

Lemma filter_all {A} (f : A -> bool) (l : list A) :
  Forall (fun x => f x = true) l -> List.filter f l = l.
Proof. induction 1 as [|x l Hx _ IH]; simpl; [done|]. by rewrite Hx, IH. Qed.

Lemma filter_none {A} (f : A -> bool) (l : list A) :
  Forall (fun x => f x = false) l -> List.filter f l = [].
Proof. induction 1 as [|x l Hx _ IH]; simpl; [done|]. by rewrite Hx. Qed.

(** In an ascending list, the values below [b] are counted by any index
    that separates them from the others. *)
Lemma count_below_ge (s : list Q) (b : Q) (i : nat) :
  StronglySorted Qle s -> (i < length s)%nat -> nth i s 0 < b ->
  (i + 1 <= length (List.filter (fun x => Qlt_bool x b) s))%nat.
Proof.
  intros Hs Hi Hb. rewrite <- (take_drop (S i) s), List.filter_app, length_app.
  rewrite filter_all.
  - rewrite length_take. lia.
  - apply Forall_forall. intros x Hx.
    apply list_elem_of_lookup in Hx as [j Hj].
    pose proof (lookup_lt_Some _ _ _ Hj) as Hlt. rewrite length_take in Hlt.
    rewrite lookup_take_lt in Hj by lia.
    apply Qlt_bool_iff. rewrite <- (nth_lookup_Some _ _ 0 _ Hj).
    pose proof (sorted_nth_le s j i Hs ltac:(lia) Hi). lra.
Qed.

Lemma count_below_le (s : list Q) (b : Q) (i : nat) :
  StronglySorted Qle s -> (i < length s)%nat -> b <= nth i s 0 ->
  (length (List.filter (fun x => Qlt_bool x b) s) <= i)%nat.
Proof.
  intros Hs Hi Hb. rewrite <- (take_drop i s), List.filter_app, length_app.
  rewrite (filter_none _ (drop i s)).
  - pose proof (length_filter_le (fun x => Qlt_bool x b) (take i s)).
    rewrite length_take in *. simpl. lia.
  - apply Forall_forall. intros x Hx.
    apply list_elem_of_lookup in Hx as [j Hj]. rewrite lookup_drop in Hj.
    pose proof (lookup_lt_Some _ _ _ Hj) as Hlt.
    destruct (Qlt_bool x b) eqn:E; [|done]. apply Qlt_bool_iff in E.
    rewrite <- (nth_lookup_Some _ _ 0 _ Hj) in E.
    pose proof (sorted_nth_le s i (i + j) Hs ltac:(lia) Hlt). lra.
Qed.

(** Two ascending arrangements of the same data agree, position by
    position, as numbers. *)
Lemma sorted_Permutation_nth (s1 s2 : list Q) (i : nat) :
  StronglySorted Qle s1 -> StronglySorted Qle s2 -> s1 ≡ₚ s2 ->
  (i < length s1)%nat -> nth i s1 0 == nth i s2 0.
Proof.
  intros H1 H2 Hp Hi.
  assert (Hi2 : (i < length s2)%nat) by (by rewrite <- Hp).
  destruct (Qlt_le_dec (nth i s1 0) (nth i s2 0)) as [Hlt|Hle].
  - exfalso.
    pose proof (count_below_ge s1 (nth i s2 0) i H1 Hi Hlt) as Ha.
    pose proof (count_below_le s2 (nth i s2 0) i H2 Hi2 ltac:(lra)) as Hb.
    rewrite (length_filter_Permutation _ _ _ Hp) in Ha. lia.
  - destruct (Qlt_le_dec (nth i s2 0) (nth i s1 0)) as [Hlt|Hle']; [|lra].
    exfalso.
    pose proof (count_below_ge s2 (nth i s1 0) i H2 Hi2 Hlt) as Ha.
    pose proof (count_below_le s1 (nth i s1 0) i H1 Hi ltac:(lra)) as Hb.
    rewrite (length_filter_Permutation _ _ _ Hp) in Hb. lia.
Qed.

Lemma merge_sort_Permutation_nth (xs ys : list Q) (i : nat) :
  xs ≡ₚ ys -> (i < length xs)%nat ->
  nth i (merge_sort Qle xs) 0 == nth i (merge_sort Qle ys) 0.
Proof.
  intros Hp Hi. apply sorted_Permutation_nth.
  - apply merge_sort_StronglySorted.
  - apply merge_sort_StronglySorted.
  - by rewrite !merge_sort_Permutation.
  - by rewrite length_merge_sort.
Qed.

Lemma quantile_Permutation (p : Q) (xs ys : list Q) :
  xs <> [] -> 0 <= p -> p <= 1 -> xs ≡ₚ ys ->
  quantile p xs == quantile p ys.
Proof.
  intros Hne Hp0 Hp1 Hp.
  destruct (quantile_indices p xs Hne Hp0 Hp1) as (H0 & H1 & _).
  unfold quantile. rewrite !length_merge_sort, <- (Permutation_length Hp).
  set (last := (Z.of_nat (length xs) - 1)%Z) in *.
  set (f := Qfloor (inject_Z last * p)) in *.
  rewrite (merge_sort_Permutation_nth xs ys (Z.to_nat f) Hp) by lia.
  rewrite (merge_sort_Permutation_nth xs ys
             (Z.to_nat (Z.min (f + 1) last)) Hp) by lia.
  reflexivity.
Qed.

Lemma median_Permutation (xs ys : list Q) :
  xs <> [] -> xs ≡ₚ ys -> median xs == median ys.
Proof.
  intros Hne Hp.
  assert (Hne' : ys <> []).
  { intros ->. by apply Permutation_nil_r in Hp. }
  rewrite (median_quantile xs Hne), (median_quantile ys Hne').
  apply quantile_Permutation; [done|lra|lra|done].
Qed.

Lemma value_series_Permutation (d1 d2 : DataFrame) :
  rows d1 ≡ₚ rows d2 -> value_series d1 ≡ₚ value_series d2.
Proof.
  intros Hp. unfold value_series, dropna, col. by rewrite Hp.
Qed.

Lemma fences_Permutation (xs ys : list Q) :
  xs ≡ₚ ys ->
  lower_fence xs == lower_fence ys /\ upper_fence xs == upper_fence ys.
Proof.
  intros Hp. destruct xs as [|x xs].
  - apply Permutation_nil_l in Hp. by subst ys.
  - assert (Hne : x :: xs <> []) by done.
    pose proof (quantile_Permutation 0.25 _ _ Hne ltac:(lra) ltac:(lra) Hp).
    pose proof (quantile_Permutation 0.75 _ _ Hne ltac:(lra) ltac:(lra) Hp).
    unfold lower_fence, upper_fence. split; lra.
Qed.

(** X5. The flags do not depend on the order of the records: when two
    frames hold the same records in different orders, the detector computes
    the same fences and the same median for both, and the frames it
    returns hold, score apart, the same labelled records. *)
Theorem detect_anomalies_row_order (d1 d2 : DataFrame) :
  has_col "Value" d1 = true ->
  has_col "Value" d2 = true ->
  rows d1 ≡ₚ rows d2 ->
  lower_fence (value_series d1) == lower_fence (value_series d2) /\
  upper_fence (value_series d1) == upper_fence (value_series d2) /\
  (value_series d1 <> [] ->
   median (value_series d1) == median (value_series d2)) /\
  exists d1' d2',
    detect_anomalies d1 = Ok d1' /\ detect_anomalies d2 = Ok d2' /\
    delete "anomaly_score" <$> rows d1' ≡ₚ
    delete "anomaly_score" <$> rows d2'.
Proof.
  intros H1 H2 Hp.
  pose proof (value_series_Permutation d1 d2 Hp) as Hvs.
  destruct (fences_Permutation _ _ Hvs) as [Hlo Hhi].
  split; [done|]. split; [done|].
  split; [intros Hne; by apply median_Permutation|].
  eexists _, _. split; [by apply detect_anomalies_frame|].
  split; [by apply detect_anomalies_frame|]. simpl.
  rewrite <- !list_fmap_compose, <- Hp.
  assert (Heq : forall (l l' : list (gmap string cell)), l = l' -> l ≡ₚ l')
    by (by intros l l' ->).
  apply Heq, list_fmap_ext. intros i r _. simpl.
  unfold labelled. rewrite !delete_insert_eq. do 2 f_equal.
  unfold _is_anomaly. destruct (num_of _); [|done].
  by rewrite (lt_or_gt_proper _ _ _ _ _ Hlo Hhi).
Qed.

(** ** The store: start-up, caching and retry *)

Lemma startup_event_outcome (fs : FileSystem) (w : World) :
  startup_event fs w =
  (Ok tt, mkWorld (match _load_and_prepare_data fs with
                   | Ok d => Some d
                   | Raise _ => None
                   end) (S (loads w))).
Proof.
  unfold startup_event, try_except, bind, load, set_df.
  by destruct (_load_and_prepare_data fs).
Qed.

(** X6. [startup_event] never raises and runs the loader once; afterwards
    the store holds the loaded frame or nothing, and [health], which never
    runs the loader and changes nothing, reports [status = "ok"] with
    [data_loaded] true exactly when the load succeeded. *)
Theorem startup_then_health (fs : FileSystem) (w : World) :
  exists w',
    startup_event fs w = (Ok tt, w') /\
    loads w' = S (loads w) /\
    df w' = match _load_and_prepare_data fs with
            | Ok d => Some d
            | Raise _ => None
            end /\
    health w' =
      (Ok (mkHealth "ok" (match _load_and_prepare_data fs with
                          | Ok _ => true
                          | Raise _ => false
                          end)), w').
Proof.
  eexists. split; [apply startup_event_outcome|]. split; [done|].
  split; [done|]. unfold health. simpl.
  by destruct (_load_and_prepare_data fs).
Qed.

(** X7. Once the store holds a dataset, no query runs the loader again:
    [get_df] hands back the stored dataset, each endpoint leaves the store
    as it is, and the answers do not depend on the file any more, whether it
    has changed, become unreadable or disappeared. *)
Theorem loaded_store_is_cached (fs fs' : FileSystem) (w : World)
    (d : DataFrame) (country pollutant : option string)
    (only_anomalies : bool) (limit : Z) :
  df w = Some d ->
  get_df fs w = (Ok d, w) /\
  (filters fs w).2 = w /\ filters fs w = filters fs' w /\
  (summary fs w).2 = w /\ summary fs w = summary fs' w /\
  (map_data fs country pollutant only_anomalies limit w).2 = w /\
  map_data fs country pollutant only_anomalies limit w =
  map_data fs' country pollutant only_anomalies limit w.
Proof.
  intros Hw. pose proof (get_df_loaded fs w d Hw) as H.
  pose proof (get_df_loaded fs' w d Hw) as H'.
  unfold filters, summary, map_data, bind, lift. rewrite H, H'. done.
Qed.

(** X8. A failed load at start-up is retried by the first query: when the
    file has become loadable by then, that query loads it, answers from
    it and publishes it, and every later [get_df] returns the same dataset
    without another load. *)
Theorem failed_startup_is_retried (fs1 fs2 fs3 : FileSystem) (w : World)
    (e : exn) (d : DataFrame) :
  _load_and_prepare_data fs1 = Raise e ->
  _load_and_prepare_data fs2 = Ok d ->
  let w1 := (startup_event fs1 w).2 in
  let w2 := (get_df fs2 w1).2 in
  df w1 = None /\
  get_df fs2 w1 = (Ok d, w2) /\
  df w2 = Some d /\ loads w2 = S (S (loads w)) /\
  get_df fs3 w2 = (Ok d, w2).
Proof.
  intros H1 H2 w1 w2. unfold w2, w1.
  rewrite startup_event_outcome, H1. simpl.
  rewrite get_df_unloaded by done. rewrite H2. simpl.
  split; [done|]. split; [done|]. split; [done|]. split; [done|].
  by apply get_df_loaded.
Qed.

(** ** The measurements query: any limit, the shape of a record, labels
       that cannot be asked for *)

Lemma lookup_tabulated (f : string -> cell) (ls : list string) (k : string) :
  (list_to_map ((fun l => (l, f l)) <$> ls) : gmap string cell) !! k =
  if bool_decide (k ∈ ls) then Some (f k) else None.
Proof.
  induction ls as [|l ls IH].
  - simpl. by rewrite lookup_empty.
  - rewrite fmap_cons, list_to_map_cons.
    destruct (decide (l = k)) as [->|Hne].
    + rewrite lookup_insert_eq.
      by rewrite bool_decide_eq_true_2 by apply list_elem_of_here.
    + rewrite lookup_insert_ne by done. rewrite IH.
      apply (f_equal (fun b : bool => if b then Some (f k) else None)).
      apply bool_decide_ext. rewrite elem_of_cons. intuition congruence.
Qed.

Lemma dom_tabulated (f : string -> cell) (ls : list string) :
  dom (list_to_map ((fun l => (l, f l)) <$> ls) : gmap string cell) =
  list_to_set ls.
Proof.
  rewrite dom_list_to_map_L, <- list_fmap_compose. f_equal.
  by rewrite (list_fmap_ext _ id ls), list_fmap_id.
Qed.

Lemma map_data_response (fs : FileSystem) (w w' : World) (d : DataFrame)
    (country pollutant : option string) (only_anomalies : bool) (k : Z) :
  get_df fs w = (Ok d, w') ->
  loaded d ->
  let matching :=
    filter (Matches (criterion country) (criterion pollutant) only_anomalies)
           (rows d) in
  let n := if (0 <=? k)%Z then Z.to_nat k
           else (length matching - Z.to_nat (- k))%nat in
  map_data fs country pollutant only_anomalies k w =
  (Ok {| count := Z.of_nat (length (take n matching));
         data := record_of <$> take n matching |}, w').
Proof.
  intros Hget Hcan%loaded_canonical matching n.
  rewrite (map_data_loaded fs w w' d country pollutant only_anomalies k
             Hget Hcan).
  unfold head, len, select. simpl.
  rewrite (List_filter_decide _
             (Matches (criterion country) (criterion pollutant)
                      only_anomalies)) by apply matches_Matches.
  fold matching. unfold n. by destruct (0 <=? k)%Z.
Qed.

(** X9. On a dataset loaded from a file with ASCII, unambiguous headers,
    for ASCII filter strings and every limit, negative ones included, the
    reported count is the number of records returned, and the records returned are an initial
    segment of the matching records in dataset order: the first [k] of
    them for [k >= 0], none for [k = 0], and all but the last [-k] for
    [k < 0]. *)
Theorem map_data_any_limit (fs : FileSystem) (w w' : World) (raw : RawTable)
    (d : DataFrame) (country pollutant : option string)
    (only_anomalies : bool) (k : Z) :
  get_df fs w = (Ok d, w') ->
  loaded_from raw d ->
  ascii_filter country ->
  ascii_filter pollutant ->
  let matching :=
    filter (Matches (criterion country) (criterion pollutant) only_anomalies)
           (rows d) in
  exists resp,
    map_data fs country pollutant only_anomalies k w = (Ok resp, w') /\
    count resp = Z.of_nat (length (data resp)) /\
    data resp `prefix_of` record_of <$> matching /\
    (k = 0%Z -> data resp = []) /\
    ((k < 0)%Z ->
     data resp =
       record_of <$> take (length matching - Z.to_nat (- k)) matching /\
     Z.of_nat (length (data resp)) =
       Z.max 0 (Z.of_nat (length matching) + k)).
Proof.
  intros Hget Hl%loaded_from_loaded _ _ matching. eexists.
  split; [by apply map_data_response|]. cbn [count data]. fold matching.
  split; [by rewrite length_fmap|]. split.
  - set (n := if (0 <=? k)%Z then Z.to_nat k
              else (length matching - Z.to_nat (- k))%nat).
    exists (record_of <$> drop n matching).
    by rewrite <- fmap_app, take_drop.
  - split.
    + by intros ->.
    + intros Hk. rewrite (proj2 (Z.leb_gt 0 k)) by lia.
      split; [done|]. rewrite length_fmap, length_take. lia.
Qed.

Lemma record_of_lookup (r : gmap string cell) (l : string) :
  l ∈ record_columns -> record_of r !! l = Some (r !!! l).
Proof.
  intros Hin. unfold record_of. rewrite lookup_tabulated.
  by rewrite bool_decide_eq_true_2.
Qed.

(** Every record of a response is the record of a matching row. *)
Lemma map_data_sound (fs : FileSystem) (w w' : World) (d : DataFrame)
    (country pollutant : option string) (only_anomalies : bool) (k : Z) :
  get_df fs w = (Ok d, w') ->
  loaded d ->
  exists resp,
    map_data fs country pollutant only_anomalies k w = (Ok resp, w') /\
    Forall (fun rec : gmap string cell =>
              exists r, rec = record_of r /\ r ∈ rows d /\
                Matches (criterion country) (criterion pollutant)
                        only_anomalies r)
           (data resp).
Proof.
  intros Hget Hl. eexists.
  split; [by apply map_data_response|]. cbn [data].
  apply Forall_fmap, Forall_forall. intros r Hr.
  apply (subseteq_take _ _ r) in Hr.
  apply list_elem_of_filter in Hr as [Hm Hr]. by exists r.
Qed.

(** X10. On a dataset loaded from a file with ASCII, unambiguous headers
    and for ASCII filter strings, every record the query returns has exactly the thirteen fields
    of the measurement record and carries, field by field, the values of
    a dataset record that matches the query; and when the limit is not
    smaller than the number of matches, every matching record is
    returned. *)
Theorem map_data_records (fs : FileSystem) (w w' : World) (raw : RawTable)
    (d : DataFrame) (country pollutant : option string)
    (only_anomalies : bool) (k : Z) :
  get_df fs w = (Ok d, w') ->
  loaded_from raw d ->
  ascii_filter country ->
  ascii_filter pollutant ->
  exists resp,
    map_data fs country pollutant only_anomalies k w = (Ok resp, w') /\
    Forall (fun rec : gmap string cell =>
              dom rec = list_to_set record_columns /\
              exists r, r ∈ rows d /\
                Matches (criterion country) (criterion pollutant)
                        only_anomalies r /\
                forall l, l ∈ record_columns -> rec !! l = Some (r !!! l))
           (data resp) /\
    (forall r, r ∈ rows d ->
       Matches (criterion country) (criterion pollutant) only_anomalies r ->
       (Z.of_nat (length (rows d)) <= k)%Z ->
       record_of r ∈ data resp).
Proof.
  intros Hget Hl%loaded_from_loaded _ _. eexists.
  split; [by apply map_data_response|]. cbn [data]. split.
  - apply Forall_fmap, Forall_forall. intros r Hr.
    apply (subseteq_take _ _ r) in Hr.
    apply list_elem_of_filter in Hr as [Hm Hr].
    split; [apply dom_tabulated|]. exists r. split; [done|]. split; [done|].
    intros l Hin. by apply record_of_lookup.
  - intros r Hr Hm Hk. rewrite (proj2 (Z.leb_le 0 k)) by lia.
    apply list_elem_of_fmap. exists r. split; [done|].
    rewrite take_ge.
    + by apply list_elem_of_filter.
    + pose proof (length_filter
                    (Matches (criterion country) (criterion pollutant)
                             only_anomalies) (rows d)). lia.
Qed.

Lemma has_comma_app (a b : string) :
  has_comma (a +:+ b) = has_comma a || has_comma b.
Proof.
  induction a as [|c a IH]; [done|].
  rewrite append_cons_l. simpl. rewrite IH. by destruct (Ascii.eqb c ",").
Qed.

(** What every token of a filter string looks like. *)
Lemma tokens_clean (s t : string) :
  t ∈ tokens s ->
  nonempty t = true /\ has_comma t = false /\
  head_space t = false /\ last_space t = false.
Proof.
  rewrite tokens_filter, elem_of_List_filter, list_elem_of_fmap.
  intros [(piece & -> & Hpiece) Hne]. split; [done|].
  destruct (split_comma_spec s) as (_ & _ & Hnc).
  rewrite Forall_forall in Hnc. specialize (Hnc piece Hpiece).
  destruct (strip_trimmed piece) as ((l & r & Heq & _ & _) & Hh & Hl).
  split; [|done]. rewrite Heq, !has_comma_app in Hnc.
  by destruct (has_comma l), (has_comma (strip piece)).
Qed.

(** X11. On a dataset loaded from a file with ASCII, unambiguous headers,
    under a country filter, respectively a pollutant filter, a record is
    returned only if its label is a text that is not empty, holds
    no comma and neither begins nor ends with whitespace: a dataset record
    whose label is null, a number, or a text of another shape can be
    reached only by leaving the filter off. *)
Theorem filtered_labels_are_clean (fs : FileSystem) (w w' : World)
    (raw : RawTable) (d : DataFrame) (c : ascii) (s : string)
    (other : option string) (only_anomalies : bool) (k : Z) :
  get_df fs w = (Ok d, w') ->
  loaded_from raw d ->
  let clean (rec : gmap string cell) (label : string) :=
    exists t, rec !! label = Some (Str t) /\
      nonempty t = true /\ has_comma t = false /\
      head_space t = false /\ last_space t = false in
  (exists resp,
     map_data fs (Some (String c s)) other only_anomalies k w =
       (Ok resp, w') /\
     Forall (fun rec => clean rec "Country_Label"%string) (data resp)) /\
  (exists resp,
     map_data fs other (Some (String c s)) only_anomalies k w =
       (Ok resp, w') /\
     Forall (fun rec => clean rec "Pollutant"%string) (data resp)).
Proof.
  intros Hget Hl%loaded_from_loaded clean. split.
  - destruct (map_data_sound fs w w' d (Some (String c s)) other
                only_anomalies k Hget Hl) as (resp & Hmd & Hall).
    exists resp. split; [done|]. eapply Forall_impl; [exact Hall|].
    intros rec (r & -> & _ & Hm & _).
    destruct Hm as [Hm|(set & [= <-] & t & Ht & Hin)]; [done|].
    exists t. rewrite record_of_lookup by in_list. rewrite Ht.
    split; [done|]. by apply (tokens_clean (String c s)).
  - destruct (map_data_sound fs w w' d other (Some (String c s))
                only_anomalies k Hget Hl) as (resp & Hmd & Hall).
    exists resp. split; [done|]. eapply Forall_impl; [exact Hall|].
    intros rec (r & -> & _ & _ & Hm & _).
    destruct Hm as [Hm|(set & [= <-] & t & Ht & Hin)]; [done|].
    exists t. rewrite record_of_lookup by in_list. rewrite Ht.
    split; [done|]. by apply (tokens_clean (String c s)).
Qed.

(** ** The filter lists *)

#[global] Instance cell_le_total : Total cell_le.
Proof.
  intros a b. unfold cell_le.
  destruct a as [|z|q|s], b as [|z'|q'|s']; simpl; auto.
  1-4: match goal with
       | |- Qle_bool ?x ?y = true \/ Qle_bool ?y ?x = true =>
           destruct (Qle_total x y); [left|right]; by apply Qle_bool_iff
       end.
  apply String.leb_total.
Qed.

Lemma sorted_text (cs : list cell) :
  Forall (fun c => is_text c = true) cs ->
  sorted cs = Ok (merge_sort cell_le cs).
Proof.
  intros Hall. unfold sorted.
  assert (Hno : existsb (fun c => negb (is_text c)) cs = false).
  { apply not_true_is_false. intros H.
    apply existsb_exists in H as (c & Hc & Hn).
    rewrite Forall_forall in Hall.
    rewrite (Hall c) in Hn; [done|by apply list_elem_of_In]. }
  by rewrite Hno, andb_false_r.
Qed.

Lemma filter_list_listing (cs : list cell) :
  text_column cs ->
  exists l, sorted (unique (notna cs)) = Ok l /\ listing cs l.
Proof.
  intros Htext. eexists. split.
  - apply sorted_text, Forall_forall. intros c Hc.
    apply unique_elem in Hc. apply elem_of_List_filter in Hc as [Hc Hna].
    unfold text_column in Htext. rewrite Forall_forall in Htext.
    destruct (Htext c Hc) as [H|H]; [|done].
    rewrite H in Hna. done.
  - split; [apply Sorted_merge_sort; apply _|].
    apply (distinct_values_Permutation _ (unique (notna cs))).
    + symmetry. apply merge_sort_Permutation.
    + apply unique_notna_distinct_values.
Qed.

Lemma text_column_forallb (cs : list cell) :
  forallb (fun c => isna c || is_text c) cs = true -> text_column cs.
Proof.
  rewrite forallb_forall. intros H. apply Forall_forall. intros c Hc.
  apply list_elem_of_In, H, orb_true_iff in Hc. exact Hc.
Qed.

(** X12. On a dataset loaded from a file with ASCII, unambiguous headers
    whose country, pollutant and city columns hold text and nulls, [filters] returns three lists, each in ascending
    order and holding every non-null value of its column exactly once and
    nothing else. *)
Theorem filters_lists (fs : FileSystem) (w w' : World) (raw : RawTable)
    (d : DataFrame) :
  get_df fs w = (Ok d, w') ->
  loaded_from raw d ->
  text_column (col "Country_Label" d) ->
  text_column (col "Pollutant" d) ->
  text_column (col "City" d) ->
  exists resp,
    filters fs w = (Ok resp, w') /\
    listing (col "Country_Label" d) (countries resp) /\
    listing (col "Pollutant" d) (pollutants resp) /\
    listing (col "City" d) (cities resp).
Proof.
  intros Hget Hcan%loaded_from_loaded%loaded_canonical H1 H2 H3.
  assert (HCL : has_col "Country_Label" d = true)
    by (apply canonical_has_col; [done|in_list]).
  assert (HPo : has_col "Pollutant" d = true)
    by (apply canonical_has_col; [done|in_list]).
  assert (HCi : has_col "City" d = true)
    by (apply canonical_has_col; [done|in_list]).
  destruct (filter_list_listing _ H1) as (l1 & E1 & L1).
  destruct (filter_list_listing _ H2) as (l2 & E2 & L2).
  destruct (filter_list_listing _ H3) as (l3 & E3 & L3).
  exists (mkFilters l1 l2 l3). split; [|done].
  unfold filters, bind, lift, getitem. rewrite Hget, HCL, HPo, HCi.
  cbn [bind_result]. rewrite E1. cbn [bind_result]. rewrite E2.
  cbn [bind_result]. by rewrite E3.
Qed.

(** ** The summary: consistency of the tables and the counters *)

Lemma group_stats_ordered (key : string) (d : DataFrame) (g : GroupRow) :
  group_stats key d g -> line_ordered g.
Proof.
  intros (Hn & Hnil & Hcons). unfold line_ordered.
  destruct (group_values key (group_key g) d) as [|x xs] eqn:E.
  - left. split; [done|]. by apply Hnil.
  - right. split; [rewrite Hn; simpl length; lia|].
    destruct Hcons as (mn & mx & Ha & Hmn & Hin & _ & Hmx & _ & Hhi);
      [done|].
    exists mn, (mean (x :: xs)), mx.
    split; [done|]. split; [done|]. split; [done|].
    rewrite Forall_forall in Hhi. by apply Hhi.
Qed.

Lemma group_counts_sum (key : string) (d : DataFrame) (gs : list GroupRow) :
  numeric_values d ->
  group_key <$> gs = merge_sort cell_le (unique (notna (col key d))) ->
  Forall (group_stats key d) gs ->
  Zsum (num_measurements <$> gs) = Z.of_nat (length (measured key d)).
Proof.
  intros Hnum Hk Hs.
  transitivity
    (Zsum ((fun k => Z.of_nat (length (List.filter
              (fun r : gmap string cell =>
                 cell_eqb k (r !!! key) &&
                 negb (is_None (num_of (r !!! "Value")))) (rows d))))
           <$> (group_key <$> gs))).
  { rewrite <- list_fmap_compose. f_equal. apply Forall_fmap_ext_1.
    eapply Forall_impl; [exact Hs|]. intros g (Hn & _). simpl.
    by rewrite Hn, length_group_values. }
  rewrite Hk.
  rewrite (Zsum_Permutation _
             ((fun k => Z.of_nat (length (List.filter
                 (fun r : gmap string cell =>
                    cell_eqb k (r !!! key) &&
                    negb (is_None (num_of (r !!! "Value")))) (rows d))))
              <$> unique (notna (col key d))))
    by (apply fmap_Permutation, merge_sort_Permutation).
  rewrite (group_sizes_sum (fun r : gmap string cell => r !!! key))
    by apply unique_distinct.
  unfold measured. do 2 f_equal. apply List.filter_ext_in. intros r Hr.
  apply list_elem_of_In in Hr.
  rewrite existsb_unique_notna
    by (unfold col; apply list_elem_of_fmap; by exists r).
  f_equal. unfold numeric_values in Hnum. rewrite Forall_forall in Hnum.
  specialize (Hnum r Hr).
  destruct (isna (r !!! "Value")) eqn:Hna.
  - by destruct (r !!! "Value").
  - by destruct (Hnum eq_refl) as [q ->].
Qed.

Lemma summary_response (fs : FileSystem) (w w' : World) (d : DataFrame) :
  get_df fs w = (Ok d, w') ->
  loaded d ->
  exists gc gp,
    summary fs w =
      (Ok {| total_rows := Z.of_nat (len d);
             num_countries := nunique (col "Country_Label" d);
             num_cities := nunique (col "City" d);
             num_pollutants := nunique (col "Pollutant" d);
             summary_by_country := gc;
             summary_by_pollutant := gp |}, w') /\
    group_key <$> gc =
      merge_sort cell_le (unique (notna (col "Country_Label" d))) /\
    group_key <$> gp =
      merge_sort cell_le (unique (notna (col "Pollutant" d))) /\
    Forall (group_stats "Country_Label" d) gc /\
    Forall (group_stats "Pollutant" d) gp.
Proof.
  intros Hget Hcan%loaded_canonical.
  assert (HCL : has_col "Country_Label" d = true)
    by (apply canonical_has_col; [done|in_list]).
  assert (HPo : has_col "Pollutant" d = true)
    by (apply canonical_has_col; [done|in_list]).
  assert (HCi : has_col "City" d = true)
    by (apply canonical_has_col; [done|in_list]).
  assert (HVa : has_col "Value" d = true)
    by (apply canonical_has_col; [done|in_list]).
  destruct (groupby_agg_spec "Country_Label" d HCL HVa)
    as (gc & Hgc & Hkc & Hsc).
  destruct (groupby_agg_spec "Pollutant" d HPo HVa)
    as (gp & Hgp & Hkp & Hsp).
  exists gc, gp. split; [|done].
  unfold summary, bind, lift, getitem. rewrite Hget, Hgc, Hgp.
  by rewrite HCL, HCi, HPo.
Qed.

Lemma length_sorted_cells (cs : list cell) :
  length (merge_sort cell_le cs) = length cs.
Proof. apply Permutation_length, merge_sort_Permutation. Qed.

Lemma length_measured_le (key : string) (d : DataFrame) :
  (length (measured key d) <= length (rows d))%nat.
Proof. unfold measured. apply List.filter_length_le. Qed.

(** X13. On a dataset loaded from a file with ASCII, unambiguous headers
    the parts of the [summary] response agree with each other:
    [total_rows] is the number of records; each table has as many lines as
    its counter says, with keys in ascending order; a line without a
    measurement has null statistics, and every other line has numbers for
    its three statistics, the minimum at most the maximum; and the counts
    of the pollutant table add up to the number of records with a
    pollutant and a value, which is at most [total_rows]. *)
Theorem summary_consistent (fs : FileSystem) (w w' : World) (raw : RawTable)
    (d : DataFrame) :
  get_df fs w = (Ok d, w') ->
  loaded_from raw d ->
  exists resp,
    summary fs w = (Ok resp, w') /\
    total_rows resp = Z.of_nat (length (rows d)) /\
    Z.of_nat (length (summary_by_country resp)) = num_countries resp /\
    Z.of_nat (length (summary_by_pollutant resp)) = num_pollutants resp /\
    Sorted cell_le (group_key <$> summary_by_country resp) /\
    Sorted cell_le (group_key <$> summary_by_pollutant resp) /\
    Forall line_ordered (summary_by_country resp) /\
    Forall line_ordered (summary_by_pollutant resp) /\
    Zsum (num_measurements <$> summary_by_pollutant resp) =
      Z.of_nat (length (measured "Pollutant" d)) /\
    (Zsum (num_measurements <$> summary_by_country resp) <= total_rows resp)%Z /\
    (Zsum (num_measurements <$> summary_by_pollutant resp) <= total_rows resp)%Z.
Proof.
  intros Hget Hloaded%loaded_from_loaded.
  pose proof (loaded_numeric d Hloaded) as Hnum.
  destruct (summary_response fs w w' d Hget Hloaded)
    as (gc & gp & Hs & Hkc & Hkp & Hsc & Hsp).
  eexists. split; [exact Hs|].
  cbn [total_rows num_countries num_pollutants summary_by_country
       summary_by_pollutant].
  pose proof (group_counts_sum "Country_Label" d gc Hnum Hkc Hsc) as Hc.
  pose proof (group_counts_sum "Pollutant" d gp Hnum Hkp Hsp) as Hp.
  pose proof (length_measured_le "Country_Label" d).
  pose proof (length_measured_le "Pollutant" d).
  split_and!.
  - done.
  - unfold nunique. f_equal.
    by rewrite <- (length_fmap group_key), Hkc, length_sorted_cells.
  - unfold nunique. f_equal.
    by rewrite <- (length_fmap group_key), Hkp, length_sorted_cells.
  - rewrite Hkc. apply Sorted_merge_sort; apply _.
  - rewrite Hkp. apply Sorted_merge_sort; apply _.
  - eapply Forall_impl; [exact Hsc|]. apply group_stats_ordered.
  - eapply Forall_impl; [exact Hsp|]. apply group_stats_ordered.
  - done.
  - rewrite Hc. unfold len. lia.
  - rewrite Hp. unfold len. lia.
Qed.

(** X14. Whenever [filters] and [summary] both answer from the same store,
    the three counters of the summary are the lengths of the three filter
    lists. *)
Theorem summary_counts_filter_lists (fs : FileSystem) (w w1 w2 : World)
    (f : Filters) (s : Summary) :
  filters fs w = (Ok f, w1) ->
  summary fs w = (Ok s, w2) ->
  num_countries s = Z.of_nat (length (countries f)) /\
  num_pollutants s = Z.of_nat (length (pollutants f)) /\
  num_cities s = Z.of_nat (length (cities f)).
Proof.
  unfold filters, summary, bind, lift.
  destruct (get_df fs w) as [[d|e] w0]; [|done].
  unfold getitem, sorted.
  destruct (has_col "Country_Label" d); [|by destruct (groupby_agg _ _ _)].
  destruct (has_col "Pollutant" d), (has_col "City" d);
    cbn [negb bind_result];
    repeat match goal with
           | |- context [if ?b then Raise TypeError else _] =>
               destruct b; cbn [bind_result]
           end;
    try done;
    destruct (groupby_agg "Country_Label" "Value" d); cbn [bind_result];
    try done;
    destruct (groupby_agg "Pollutant" "Value" d); cbn [bind_result];
    try done.
  intros [= <- _] [= <- _]. simpl.
  unfold nunique. by rewrite !length_sorted_cells.
Qed.

(** ** Normalized column labels *)

Lemma lower_char_spec (c : ascii) :
  is_upper (lower_char c) = false /\
  is_space (lower_char c) = is_space c /\
  (is_upper c = false -> lower_char c = c).
Proof. by destruct c as [[] [] [] [] [] [] [] []]. Qed.

Lemma lower_no_upper (s : string) :
  all_chars (fun c => negb (is_upper c)) (lower s) = true.
Proof.
  induction s as [|c s IH]; [done|]. simpl.
  destruct (lower_char_spec c) as [-> _]. by rewrite IH.
Qed.

Lemma replace_spaces_plain (b : bool) (s : string) :
  all_chars (fun c => negb (is_upper c)) s = true ->
  plain (replace_spaces b s) = true.
Proof.
  unfold plain. revert b. induction s as [|c s IH]; intros b; [done|].
  simpl. intros [Hc Hs]%andb_true_iff.
  destruct (is_space c) eqn:Ec.
  - destruct b; [by apply IH|]. simpl. by apply IH.
  - simpl. rewrite Ec, Hc. simpl. by apply IH.
Qed.

Lemma normalize_plain (h : string) : plain (normalize h) = true.
Proof. apply replace_spaces_plain, lower_no_upper. Qed.

Lemma plain_cons (c : ascii) (s : string) :
  plain (String c s) = true ->
  is_space c = false /\ is_upper c = false /\ plain s = true.
Proof.
  unfold plain. simpl. intros [[H1 H2]%andb_true_iff H3]%andb_true_iff.
  by rewrite negb_true_iff in H1, H2.
Qed.

(** Turns the tests on character codes into arithmetic. *)
Ltac space_arith :=
  unfold is_space, is_space2, is_space3, is_ascii in *; cbv zeta in *;
  repeat
    (rewrite ?andb_true_iff, ?orb_true_iff, ?Nat.eqb_eq, ?Nat.leb_le,
             ?Nat.ltb_lt in *);
  lia.

Ltac space_false := apply not_true_iff_false; intros ?; space_arith.

(** On ASCII texts the whitespace characters are the ASCII ones. *)
Lemma ascii_skip_space (a : ascii) (s : string) :
  is_ascii a = true ->
  skip_space (String a s) = if is_space a then Some s else None.
Proof.
  intros Ha. simpl. destruct (is_space a); [done|].
  destruct s as [|b [|c s]]; [done|..].
  - assert (is_space2 a b = false) as -> by space_false. done.
  - assert (is_space2 a b = false) as -> by space_false.
    assert (is_space3 a b c = false) as -> by space_false. done.
Qed.

Lemma plain_lstrip (s : string) :
  ascii_text s -> plain s = true -> lstrip s = s.
Proof.
  destruct s as [|c s]; [done|].
  intros [Hc _]%andb_true_iff (Hs & _ & _)%plain_cons.
  by rewrite lstrip_step, ascii_skip_space, Hs.
Qed.

Lemma plain_rstrip (s : string) :
  ascii_text s -> plain s = true -> rstrip s = s.
Proof.
  induction s as [|c s IH]; [done|].
  intros [Hc Ha]%andb_true_iff (Hs & _ & Hp)%plain_cons.
  cbn [rstrip]. rewrite all_space_step, ascii_skip_space, Hs by done.
  by rewrite IH.
Qed.

Lemma plain_lower (s : string) : plain s = true -> lower s = s.
Proof.
  induction s as [|c s IH]; [done|]. intros (_ & Hc & Hs)%plain_cons.
  simpl. rewrite (IH Hs). f_equal. by apply lower_char_spec.
Qed.

Lemma plain_replace_spaces (b : bool) (s : string) :
  plain s = true -> replace_spaces b s = s.
Proof.
  revert b. induction s as [|c s IH]; intros b; [done|].
  intros (Hc & _ & Hs)%plain_cons. simpl. by rewrite Hc, (IH _ Hs).
Qed.

Lemma normalize_of_plain (s : string) :
  ascii_text s -> plain s = true -> normalize s = s.
Proof.
  intros Ha Hs. unfold normalize, strip.
  by rewrite (plain_lstrip s Ha Hs), (plain_rstrip s Ha Hs),
             (plain_lower s Hs), (plain_replace_spaces _ s Hs).
Qed.

Lemma all_chars_app (p : ascii -> bool) (a b : string) :
  all_chars p (a +:+ b) = all_chars p a && all_chars p b.
Proof.
  induction a as [|c a IH]; [done|].
  rewrite append_cons_l. simpl. by rewrite IH, andb_assoc.
Qed.

Lemma lower_char_ascii (c : ascii) :
  is_ascii c = true -> is_ascii (lower_char c) = true.
Proof. by destruct c as [[] [] [] [] [] [] [] []]. Qed.

Lemma lower_ascii (s : string) :
  ascii_text s -> ascii_text (lower s).
Proof.
  unfold ascii_text. induction s as [|c s IH]; [done|].
  cbn [lower all_chars]. intros [Hc Hs]%andb_true_iff.
  by rewrite (lower_char_ascii c Hc), (IH Hs).
Qed.

Lemma replace_spaces_ascii (b : bool) (s : string) :
  ascii_text s -> ascii_text (replace_spaces b s).
Proof.
  unfold ascii_text. revert b. induction s as [|c s IH]; [done|].
  intros b. cbn [replace_spaces all_chars]. intros [Hc Hs]%andb_true_iff.
  destruct (is_space c); [destruct b|]; cbn [all_chars];
    rewrite ?Hc; by rewrite ?IH.
Qed.

(** The label made of an ASCII header is an ASCII text. *)
Lemma ascii_normalize (h : string) :
  ascii_text h -> ascii_text (normalize h).
Proof.
  intros Hh. unfold normalize.
  apply replace_spaces_ascii, lower_ascii.
  destruct (strip_trimmed h) as ((l & r & Heq & _ & _) & _ & _).
  unfold ascii_text in *. rewrite Heq, !all_chars_app in Hh.
  by apply andb_true_iff in Hh as [_ [Hs _]%andb_true_iff].
Qed.

(** The first byte of a whitespace character: an ASCII whitespace, or the
    first byte of one of the longer ones. *)
Definition lead (x : ascii) : Prop :=
  is_space x = true \/ nat_of_ascii x = 194%nat \/ nat_of_ascii x = 225%nat \/
  nat_of_ascii x = 226%nat \/ nat_of_ascii x = 227%nat.

Lemma all_space_lead (x : ascii) (r : string) :
  all_space (String x r) = true -> lead x.
Proof.
  unfold lead. destruct r as [|b [|c r3]]; simpl;
    destruct (is_space x) eqn:E1; auto; try discriminate;
    destruct (is_space2 x b) eqn:E2; try discriminate;
    try (intros _; right; clear E1; space_arith).
  intros [E3 _]%andb_true_iff. right. clear E1 E2. space_arith.
Qed.

Lemma lead_no_second (a x : ascii) : lead x -> is_space2 a x = false.
Proof. unfold lead. intros H. space_false. Qed.

Lemma lead_no_third_2 (a x y : ascii) : lead x -> is_space3 a x y = false.
Proof. unfold lead. intros H. space_false. Qed.

Lemma lead_no_third_3 (a b x : ascii) : lead x -> is_space3 a b x = false.
Proof. unfold lead. intros H. space_false. Qed.

(** A text that does not begin with a whitespace character does not
    begin with one when whitespace is put after it. *)
Lemma skip_space_None_app (v r : string) :
  v <> EmptyString -> skip_space v = None -> all_space r = true ->
  skip_space (v +:+ r) = None.
Proof.
  intros Hv Hskip Hr. destruct r as [|x r]; [by rewrite append_nil_r|].
  apply all_space_lead in Hr.
  destruct v as [|a [|b [|c v3]]]; [done|..];
    rewrite ?append_cons_l, ?append_nil_l; simpl in *.
  - destruct (is_space a); [done|].
    rewrite (lead_no_second a x Hr).
    destruct r as [|y r]; [done|]. by rewrite (lead_no_third_2 a x y Hr).
  - destruct (is_space a); [done|]. destruct (is_space2 a b); [done|].
    by rewrite (lead_no_third_3 a b x Hr).
  - destruct (is_space a); [done|]. destruct (is_space2 a b); [done|].
    by destruct (is_space3 a b c).
Qed.

Lemma all_space_app_r (v r : string) :
  all_space r = true -> all_space (v +:+ r) = all_space v.
Proof.
  intros Hr. induction v as [v IH] using string_length_ind.
  destruct v as [|a v]; [by rewrite append_nil_l|].
  rewrite (all_space_step (String a v)), all_space_step, append_cons_l.
  rewrite <- append_cons_l.
  destruct (skip_space (String a v)) as [x|] eqn:E.
  - rewrite (skip_space_app _ _ r E).
    destruct (skip_space_Some _ _ E) as (_ & _ & _ & Hlen). by apply IH.
  - by rewrite skip_space_None_app.
Qed.

Lemma lstrip_all_space (l : string) : all_space l = true -> lstrip l = "".
Proof.
  induction l as [l IH] using string_length_ind. intros Hl.
  rewrite lstrip_step. rewrite all_space_step in Hl.
  destruct l as [|a l]; [done|].
  destruct (skip_space (String a l)) as [r|] eqn:E; [|done].
  destruct (skip_space_Some _ _ E) as (_ & _ & _ & Hlen). by apply IH.
Qed.

Lemma lstrip_padding (l x : string) :
  all_space l = true -> lstrip (l +:+ x) = lstrip x.
Proof.
  induction l as [l IH] using string_length_ind. intros Hl.
  destruct l as [|a l]; [done|]. rewrite all_space_step in Hl.
  destruct (skip_space (String a l)) as [r|] eqn:E; [|done].
  rewrite lstrip_step, (skip_space_app _ _ x E).
  destruct (skip_space_Some _ _ E) as (_ & _ & _ & Hlen). by apply IH.
Qed.

Lemma rstrip_all_space (r : string) : all_space r = true -> rstrip r = "".
Proof. destruct r as [|c r]; [done|]. cbn [rstrip]. by intros ->. Qed.

Lemma rstrip_padding (s r : string) :
  all_space r = true -> rstrip (s +:+ r) = rstrip s.
Proof.
  intros Hr. induction s as [|c s IH].
  - rewrite append_nil_l. by rewrite rstrip_all_space.
  - rewrite append_cons_l. cbn [rstrip]. rewrite <- append_cons_l.
    by rewrite (all_space_app_r _ r Hr), IH.
Qed.

Lemma strip_padding (l s r : string) :
  all_space l = true -> all_space r = true ->
  strip (l +:+ s +:+ r) = strip s.
Proof.
  intros Hl Hr. unfold strip. rewrite (lstrip_padding l _ Hl).
  destruct (lstrip_spec s) as (l' & Hs & Hl' & Hh).
  rewrite Hs at 1. rewrite append_assoc, (lstrip_padding l' _ Hl').
  destruct (lstrip s) as [|c t] eqn:E.
  - rewrite append_nil_l. by rewrite (lstrip_all_space r Hr).
  - rewrite lstrip_step. unfold head_space in Hh.
    destruct (skip_space (String c t)) eqn:Es; [done|].
    rewrite (skip_space_None_app _ r) by done.
    by apply rstrip_padding.
Qed.

(** X15. The label the loader makes of an ASCII header holds no
    whitespace and no capital letter; normalizing it again changes
    nothing; a header that already has this form is left as it is; and
    whitespace around the header, ASCII or not, makes no difference. *)
Theorem normalize_canonical_form (h : string) :
  ascii_text h ->
  plain (normalize h) = true /\
  normalize (normalize h) = normalize h /\
  (plain h = true -> normalize h = h) /\
  (forall l r, all_space l = true -> all_space r = true ->
     normalize (l +:+ h +:+ r) = normalize h).
Proof.
  intros Hh.
  split; [apply normalize_plain|].
  split;
    [apply normalize_of_plain; [by apply ascii_normalize|apply normalize_plain]
    |].
  split; [by apply normalize_of_plain|].
  intros l r Hl Hr. unfold normalize. by rewrite strip_padding.
Qed.

(** ** The loader: when it succeeds and what it keeps *)

Lemma all_resolved_Some (cols : list string) (f : logical_field) :
  all_resolved cols -> required f = true ->
  exists n, find_col cols (aliases f) = Some n.
Proof.
  intros H Hf. specialize (H f Hf). unfold is_resolved in H.
  destruct (find_col cols (aliases f)) as [n|]; [by exists n|done].
Qed.

Lemma load_prepared (raw : RawTable) :
  all_resolved (normalize <$> header raw) ->
  _load_and_prepare_data (Some (Ok raw)) = detect_anomalies (prepared raw).
Proof.
  intros Hres.
  destruct (all_resolved_Some _ F_country_code Hres eq_refl) as [n1 E1].
  destruct (all_resolved_Some _ F_city Hres eq_refl) as [n2 E2].
  destruct (all_resolved_Some _ F_location Hres eq_refl) as [n3 E3].
  destruct (all_resolved_Some _ F_pollutant Hres eq_refl) as [n4 E4].
  destruct (all_resolved_Some _ F_unit Hres eq_refl) as [n5 E5].
  destruct (all_resolved_Some _ F_value Hres eq_refl) as [n6 E6].
  destruct (all_resolved_Some _ F_last_updated Hres eq_refl) as [n7 E7].
  destruct (all_resolved_Some _ F_country_label Hres eq_refl) as [n8 E8].
  destruct (all_resolved_Some _ F_latitude Hres eq_refl) as [n9 E9].
  destruct (all_resolved_Some _ F_longitude Hres eq_refl) as [n10 E10].
  unfold _load_and_prepare_data, prepared, renamed, sourced, rename_dict.
  cbv zeta. unfold rename_key, rename_fields.
  cbn [fmap list_fmap aliases] in *.
  rewrite unresolved_reported.
  rewrite E1, E2, E3, E4, E5, E6, E7, E8, E9, E10.
  cbn [is_None List.filter fmap list_fmap snd orb negb is_empty].
  by destruct (find_col _ ["source_name"; "sourcename"; "source"]%string).
Qed.

Lemma dict_of_snoc (l : list (option string * string))
    (x : option string * string) :
  dict_of (l ++ [x]) =
  match x.1 with Some k => <[k := x.2]> (dict_of l) | None => dict_of l end.
Proof. by rewrite dict_of_app. Qed.

(** A dict display whose keys are given once each: the value under a key
    is the one written beside it. *)
Lemma dict_of_spec (l : list (option string * string)) (k v : string) :
  (forall v1 v2, (Some k, v1) ∈ l -> (Some k, v2) ∈ l -> v1 = v2) ->
  dict_of l !! k = Some v <-> (Some k, v) ∈ l.
Proof.
  induction l as [|[o v'] l IH] using rev_ind; intros Hfun.
  - unfold dict_of. simpl. rewrite lookup_empty. split; [done|].
    by intros ?%not_elem_of_nil.
  - rewrite dict_of_snoc. simpl.
    assert (Hl : forall v1 v2,
               (Some k, v1) ∈ l -> (Some k, v2) ∈ l -> v1 = v2).
    { intros v1 v2 H1 H2.
      apply (Hfun v1 v2); apply elem_of_app; by left. }
    specialize (IH Hl). rewrite elem_of_app, list_elem_of_singleton.
    destruct o as [k'|].
    + destruct (decide (k' = k)) as [->|Hne].
      * rewrite lookup_insert_eq. split.
        -- intros [= ->]. by right.
        -- intros Hin. f_equal. apply Hfun.
           ++ apply elem_of_app. right. by apply list_elem_of_singleton.
           ++ apply elem_of_app. rewrite list_elem_of_singleton.
              destruct Hin as [Hin|Hin]; [by left|by right].
      * rewrite lookup_insert_ne by done. rewrite IH.
        split; [by left|]. intros [H|[= H _]]; [done|]. by destruct Hne.
    + rewrite IH. split; [by left|]. by intros [H|[=]].
Qed.

Lemma owner_Source_Name : owner "Source_Name" = None.
Proof. reflexivity. Qed.

Lemma rename_key_owner (cols : list string) (f : logical_field) (k : string) :
  rename_key cols f = Some k ->
  find_col cols (aliases f) = Some k /\ owner k = Some f \/
  f = F_source_name /\ find_col cols (aliases f) = None /\
  k = "Source_Name"%string.
Proof.
  intros H.
  destruct f;
    try (left; split; [exact H|by apply (find_col_owner cols _ _ H)]).
  unfold rename_key in H.
  destruct (find_col cols (aliases F_source_name)) as [n|] eqn:E.
  - left. injection H as ->. split; [done|].
    by apply (find_col_owner cols _ _ E).
  - right. by injection H as <-.
Qed.

Lemma rename_key_inj (cols : list string) (f f' : logical_field) (k : string) :
  rename_key cols f = Some k -> rename_key cols f' = Some k -> f = f'.
Proof.
  intros [[_ H]|(-> & _ & ->)]%rename_key_owner
         [[_ H']|(-> & _ & Hk)]%rename_key_owner; try congruence.
  - subst k. by rewrite owner_Source_Name in H.
  - by rewrite owner_Source_Name in H'.
Qed.

Lemma elem_of_rename_fields (f : logical_field) : f ∈ rename_fields.
Proof.
  unfold rename_fields.
  destruct f;
    repeat first [ apply list_elem_of_here | apply list_elem_of_further ].
Qed.

Lemma rename_dict_lookup (cols : list string) (k N : string) :
  rename_dict cols !! k = Some N <->
  exists f, rename_key cols f = Some k /\ N = canonical_name f.
Proof.
  unfold rename_dict. rewrite dict_of_spec.
  - rewrite list_elem_of_fmap. split.
    + intros (f & [= H1 H2] & _). by exists f.
    + intros (f & H1 & H2). exists f. rewrite H1, H2.
      split; [done|apply elem_of_rename_fields].
  - intros v1 v2 (f1 & [= H1 ->] & _)%list_elem_of_fmap
                 (f2 & [= H2 ->] & _)%list_elem_of_fmap.
    f_equal. by apply (rename_key_inj cols _ _ k).
Qed.

Lemma canonical_name_inj (f f' : logical_field) :
  canonical_name f = canonical_name f' -> f = f'.
Proof. by destruct f, f'. Qed.

Lemma canonical_name_plain (f : logical_field) :
  plain (canonical_name f) = true -> f = F_latitude \/ f = F_longitude.
Proof. destruct f; vm_compute; auto; discriminate. Qed.

(** The entry of a renamed row under a new label that one column only is
    relabelled to. *)
Lemma list_to_map_renamed (new : string -> string) (g : string -> cell)
    (L : list string) (n : string) :
  n ∈ L -> (forall c, c ∈ L -> new c = new n -> c = n) ->
  (list_to_map ((fun c => (new c, g c)) <$> L) : gmap string cell) !! new n =
  Some (g n).
Proof.
  induction L as [|c0 L IH]; intros Hn Huniq.
  - by apply not_elem_of_nil in Hn.
  - rewrite fmap_cons, list_to_map_cons.
    destruct (decide (new c0 = new n)) as [E|Hne].
    + rewrite (Huniq c0 (list_elem_of_here _ _) E). by rewrite lookup_insert_eq.
    + rewrite lookup_insert_ne by done. apply IH.
      * apply elem_of_cons in Hn as [->|Hn]; [done|done].
      * intros c Hc. apply Huniq. by apply list_elem_of_further.
Qed.

(** The cell of a data line under a label that occurs once. *)
Lemma lookup_zip_labels (cols : list string) (cells : list cell)
    (j : nat) (n : string) (c : cell) :
  NoDup cols -> cols !! j = Some n -> cells !! j = Some c ->
  (list_to_map (zip cols cells) : gmap string cell) !! n = Some c.
Proof.
  intros Hnd. revert cells j.
  induction Hnd as [|n0 cols Hn0 Hnd IH]; intros cells j Hj Hc; [done|].
  destruct cells as [|c0 cells]; [done|]. simpl zip.
  rewrite list_to_map_cons. destruct j as [|j]; simpl in *.
  - injection Hj as ->. injection Hc as ->. by rewrite lookup_insert_eq.
  - rewrite lookup_insert_ne; [by apply (IH cells j)|].
    intros ->. apply Hn0. by apply list_elem_of_lookup_2 in Hj.
Qed.

Lemma cols_plain (raw : RawTable) (n : string) :
  n ∈ normalize <$> header raw -> plain n = true.
Proof. intros (h & -> & _)%list_elem_of_fmap. apply normalize_plain. Qed.

Lemma sourced_columns (raw : RawTable) (c : string) :
  c ∈ columns (sourced raw) ->
  c ∈ normalize <$> header raw \/
  c = "Source_Name"%string /\
  find_col (normalize <$> header raw) (aliases F_source_name) = None.
Proof.
  unfold sourced. cbv zeta.
  destruct (find_col _ (aliases F_source_name)); [by left|].
  unfold assign. cbn [columns frame].
  destruct (has_col _ _); [by left|].
  rewrite elem_of_app, list_elem_of_singleton. intros [H|H]; [by left|by right].
Qed.

Lemma sourced_has_col (raw : RawTable) (n : string) :
  n ∈ normalize <$> header raw -> n ∈ columns (sourced raw).
Proof.
  intros Hn. unfold sourced. cbv zeta.
  destruct (find_col _ (aliases F_source_name)); [done|].
  pose proof (has_col_assign "Source_Name" n
                (fun _ : gmap string cell => Str "Unknown Source")
                (frame (normalize <$> header raw) (body raw))) as H.
  unfold has_col in H. rewrite !bool_decide_eq_true in H. by apply H.
Qed.

Lemma sourced_row (raw : RawTable) (i : nat) (cells : list cell) :
  body raw !! i = Some cells ->
  exists r1,
    rows (sourced raw) !! i = Some r1 /\
    (NoDup (normalize <$> header raw) ->
     forall n j c, (normalize <$> header raw) !! j = Some n ->
                   cells !! j = Some c -> r1 !!! n = c) /\
    (find_col (normalize <$> header raw) (aliases F_source_name) = None ->
     r1 !!! "Source_Name" = Str "Unknown Source").
Proof.
  intros Hbody. unfold sourced. cbv zeta.
  destruct (find_col _ (aliases F_source_name)) as [src|].
  - cbn [rows frame]. rewrite list_lookup_fmap, Hbody. simpl.
    eexists. split; [reflexivity|]. split; [|done].
    intros Hnd n j c Hn Hc.
    by apply lookup_total_correct, (lookup_zip_labels _ _ j).
  - cbn [rows assign frame]. rewrite !list_lookup_fmap, Hbody. simpl.
    eexists. split; [reflexivity|]. split.
    + intros Hnd n j c Hn Hc. rewrite lookup_total_insert_ne.
      * by apply lookup_total_correct, (lookup_zip_labels _ _ j).
      * intros <-. apply list_elem_of_lookup_2, cols_plain in Hn.
        discriminate Hn.
    + intros _. by rewrite lookup_total_insert_eq.
Qed.

Lemma rename_key_column (raw : RawTable) (f : logical_field) (n : string) :
  rename_key (normalize <$> header raw) f = Some n ->
  n ∈ columns (sourced raw).
Proof.
  intros [[H _]|(-> & H & ->)]%rename_key_owner.
  - by apply sourced_has_col, (find_col_Some _ (aliases f)).
  - unfold sourced. cbv zeta. rewrite H.
    pose proof (has_col_assign_same "Source_Name"
                  (fun _ : gmap string cell => Str "Unknown Source")
                  (frame (normalize <$> header raw) (body raw))) as H'.
    unfold has_col in H'. by rewrite bool_decide_eq_true in H'.
Qed.

Lemma find_col_pair (cols : list string) (a b n : string) :
  find_col cols [a; b] = Some n ->
  a ∈ cols /\ n = a \/ ~ a ∈ cols /\ b ∈ cols /\ n = b.
Proof.
  simpl. repeat case_bool_decide; intros [=]; subst; auto.
Qed.

(** Under an unambiguous header one column only takes the label of a
    field's key. *)
Lemma rename_key_unique (raw : RawTable) (f : logical_field) (n c : string) :
  unambiguous (normalize <$> header raw) ->
  rename_key (normalize <$> header raw) f = Some n ->
  c ∈ columns (sourced raw) ->
  default c (rename_dict (normalize <$> header raw) !! c) = canonical_name f ->
  c = n.
Proof.
  intros (_ & Hlat & Hlon) Hkey Hc Hnew.
  destruct (rename_dict _ !! c) as [N|] eqn:Ed; simpl in Hnew.
  - apply rename_dict_lookup in Ed as (f' & Hk' & ->).
    apply canonical_name_inj in Hnew as ->. congruence.
  - subst c. apply sourced_columns in Hc as [Hc|[Hc Hsrc]].
    + destruct (canonical_name_plain f (cols_plain raw _ Hc)) as [-> | ->];
        apply find_col_pair in Hkey as [[H1 ->]|(H1 & H2 & ->)];
        try done.
      * destruct Hlat. by split.
      * destruct Hlon. by split.
    + assert (rename_dict (normalize <$> header raw) !! "Source_Name"%string
              = Some "Source_Name"%string) as Hd.
      { apply rename_dict_lookup. exists F_source_name. split; [|done].
        unfold rename_key. by rewrite Hsrc. }
      destruct f; try discriminate Hc. simpl in Ed. congruence.
Qed.

(** A column that is no field's key keeps its label, and no other column
    takes it. *)
Lemma other_column_unique (raw : RawTable) (n c : string) :
  unambiguous (normalize <$> header raw) ->
  n ∈ normalize <$> header raw ->
  (forall f, rename_key (normalize <$> header raw) f <> Some n) ->
  rename_dict (normalize <$> header raw) !! n = None /\
  (default c (rename_dict (normalize <$> header raw) !! c) = n -> c = n) /\
  n <> "lat"%string /\ n <> "lon"%string /\ n <> "Value"%string.
Proof.
  intros (_ & Hlat & Hlon) Hn Hkey.
  assert (Hnone : rename_dict (normalize <$> header raw) !! n = None).
  { destruct (rename_dict _ !! n) as [N|] eqn:Ed; [|done].
    apply rename_dict_lookup in Ed as (f & Hf & _). by destruct (Hkey f). }
  assert (Hll : n <> "lat"%string /\ n <> "lon"%string).
  { split; intros ->.
    - destruct (find_col (normalize <$> header raw) (aliases F_latitude))
        as [m|] eqn:E.
      + pose proof E as E'.
        apply find_col_pair in E as [[H1 ->]|(H1 & H2 & ->)].
        * destruct Hlat. by split.
        * by destruct (Hkey F_latitude).
      + simpl in E. repeat case_bool_decide; done.
    - destruct (find_col (normalize <$> header raw) (aliases F_longitude))
        as [m|] eqn:E.
      + pose proof E as E'.
        apply find_col_pair in E as [[H1 ->]|(H1 & H2 & ->)].
        * destruct Hlon. by split.
        * by destruct (Hkey F_longitude).
      + simpl in E. repeat case_bool_decide; done. }
  split; [done|]. split; [|split; [apply Hll|split; [apply Hll|]]].
  - destruct (rename_dict _ !! c) as [N|] eqn:Ed; simpl; [|done].
    intros ->. apply rename_dict_lookup in Ed as (f & Hf & HN).
    rewrite HN in Hn.
    destruct (canonical_name_plain f (cols_plain raw _ Hn)) as [-> | ->];
      simpl in HN; by destruct Hll.
  - intros ->. apply cols_plain in Hn. discriminate Hn.
Qed.

Lemma prepared_has_Value (raw : RawTable) :
  all_resolved (normalize <$> header raw) ->
  has_col "Value" (prepared raw) = true.
Proof.
  intros Hres.
  destruct (all_resolved_Some _ F_value Hres eq_refl) as [n E].
  unfold prepared. do 2 apply has_col_assign.
  apply (has_col_rename _ _ n).
  - apply bool_decide_eq_true, sourced_has_col.
    by apply (find_col_Some _ (aliases F_value)).
  - apply rename_dict_lookup. by exists F_value.
Qed.

Lemma load_rows (raw : RawTable) (d : DataFrame) :
  _load_and_prepare_data (Some (Ok raw)) = Ok d ->
  all_resolved (normalize <$> header raw) /\
  exists lo hi m,
    rows d =
    (fun r1 : gmap string cell =>
       labelled lo hi m
         ((fun r : gmap string cell => <["lon" := to_numeric (r !!! "lon")]> r)
            ((fun r : gmap string cell =>
                <["lat" := to_numeric (r !!! "lat")]> r)
               (list_to_map
                  ((fun c => (default c (rename_dict (normalize <$> header raw)
                                           !! c),
                              r1 !!! c))
                   <$> columns (sourced raw))))))
    <$> rows (sourced raw).
Proof.
  intros Hload.
  assert (Hres : all_resolved (normalize <$> header raw)).
  { intros f Hf. destruct (load_resolved raw d f Hload Hf) as [n E].
    unfold is_resolved. by rewrite E. }
  split; [done|].
  rewrite (load_prepared raw Hres) in Hload.
  destruct (detect_anomalies_rows _ (prepared_has_Value raw Hres))
    as (d' & Hd' & Hrows).
  rewrite Hload in Hd'. injection Hd' as <-.
  eexists _, _, _. rewrite Hrows.
  unfold prepared at 4, renamed. cbn [rows assign rename].
  by rewrite <- !list_fmap_compose.
Qed.

Lemma sourced_length (raw : RawTable) :
  length (rows (sourced raw)) = length (body raw).
Proof.
  unfold sourced. cbv zeta.
  destruct (find_col _ (aliases F_source_name)); cbn [rows assign frame];
    by rewrite !length_fmap.
Qed.

Lemma find_col_rename_key (cols : list string) (f : logical_field)
    (n : string) :
  find_col cols (aliases f) = Some n -> rename_key cols f = Some n.
Proof. intros H. destruct f; simpl in *; by rewrite ?H. Qed.

Ltac not_detector_column :=
  let Hin := fresh in
  unfold detector_columns; intros Hin;
  repeat (apply elem_of_cons in Hin as [Hin|Hin]; [congruence|]);
  by apply not_elem_of_nil in Hin.

(** X16. [find_col] gives the first of the names, in the order they are
    written, that is a column of the frame, and [None] exactly when none
    of them is one. *)
Theorem find_col_first (cols names : list string) :
  match find_col cols names with
  | Some n =>
      exists before after,
        names = before ++ n :: after /\ n ∈ cols /\
        Forall (fun m => m ∉ cols) before
  | None => Forall (fun m => m ∉ cols) names
  end.
Proof.
  induction names as [|name rest IH]; simpl; [constructor|].
  case_bool_decide as Hname.
  - exists [], rest. by repeat split.
  - destruct (find_col cols rest) as [n|].
    + destruct IH as (before & after & -> & Hn & Hb).
      exists (name :: before), after. split; [done|]. split; [done|].
      by constructor.
    + by constructor.
Qed.

(** X17. When the loader returns a dataset for a file whose normalized
    headers are unambiguous, the dataset has one record per data line, in
    the order of the file; under the canonical name of every resolved
    field the record holds the cell the line has in the resolved column,
    coerced to a number for the value and the coordinates; the field
    [Source_Name] reads [Unknown Source] when no column resolved for it;
    and every other column of the file, apart from [is_anomaly] and
    [anomaly_score], is kept under its normalized label. *)
Theorem load_preserves_data (raw : RawTable) (d : DataFrame) :
  unambiguous (normalize <$> header raw) ->
  _load_and_prepare_data (Some (Ok raw)) = Ok d ->
  length (rows d) = length (body raw) /\
  forall i cells r,
    body raw !! i = Some cells -> rows d !! i = Some r ->
    (forall f n j c,
       find_col (normalize <$> header raw) (aliases f) = Some n ->
       (normalize <$> header raw) !! j = Some n -> cells !! j = Some c ->
       r !!! canonical_name f = if coerced f then to_numeric c else c) /\
    (find_col (normalize <$> header raw) (aliases F_source_name) = None ->
     r !!! "Source_Name" = Str "Unknown Source") /\
    (forall n j c,
       (normalize <$> header raw) !! j = Some n -> cells !! j = Some c ->
       (forall f, find_col (normalize <$> header raw) (aliases f) <> Some n) ->
       n ∉ ["is_anomaly"; "anomaly_score"]%string ->
       r !!! n = c).
Proof.
  intros Hun Hload.
  destruct (load_rows raw d Hload) as (Hres & lo & hi & m & Hrows).
  split; [by rewrite Hrows, length_fmap, sourced_length|].
  intros i cells r Hbody Hr.
  destruct (sourced_row raw i cells Hbody) as (r1 & Hr1 & Hcell & Hsrc).
  specialize (Hcell (proj1 Hun)).
  rewrite Hrows, list_lookup_fmap, Hr1 in Hr. simpl in Hr.
  injection Hr as <-.
  set (new := fun c => default c (rename_dict (normalize <$> header raw) !! c)).
  set (r2 := list_to_map _).
  assert (Hkey : forall f n,
            rename_key (normalize <$> header raw) f = Some n ->
            r2 !!! canonical_name f = r1 !!! n).
  { intros f n Hf. apply lookup_total_correct.
    assert (Hn : new n = canonical_name f).
    { unfold new.
      assert (rename_dict (normalize <$> header raw) !! n =
              Some (canonical_name f)) as ->; [|done].
      apply rename_dict_lookup. by exists f. }
    rewrite <- Hn.
    apply (list_to_map_renamed new (fun c => r1 !!! c)).
    - by apply (rename_key_column raw f).
    - intros c Hc Hnew. apply (rename_key_unique raw f); try done.
      fold (new c). by rewrite Hnew. }
  split; [|split].
  - intros f n j c Hf Hn Hc.
    pose proof (Hkey f n (find_col_rename_key _ _ _ Hf)) as Hk.
    rewrite (Hcell n j c Hn Hc) in Hk.
    destruct f; cbn [canonical_name coerced] in *.
    all: try (rewrite labelled_other by not_detector_column;
              by rewrite !lookup_total_insert_ne by done).
    + rewrite labelled_Value, !lookup_total_insert_ne by done.
      by rewrite Hk.
    + rewrite labelled_other by not_detector_column.
      rewrite lookup_total_insert_ne by done.
      by rewrite lookup_total_insert_eq, Hk.
    + rewrite labelled_other by not_detector_column.
      rewrite lookup_total_insert_eq, lookup_total_insert_ne by done.
      by rewrite Hk.
  - intros Hnone.
    assert (Hf : rename_key (normalize <$> header raw) F_source_name =
                 Some "Source_Name"%string)
      by (unfold rename_key; by rewrite Hnone).
    pose proof (Hkey _ _ Hf) as Hk. cbn [canonical_name] in Hk.
    rewrite labelled_other by not_detector_column.
    rewrite !lookup_total_insert_ne by done.
    by rewrite Hk, Hsrc.
  - intros n j c Hn Hc Hnokey Hnd.
    assert (Hin : n ∈ normalize <$> header raw)
      by (by apply list_elem_of_lookup_2 in Hn).
    assert (Hnk : forall f,
              rename_key (normalize <$> header raw) f <> Some n).
    { intros f [[H _]|(_ & _ & ->)]%rename_key_owner; [by apply (Hnokey f)|].
      apply cols_plain in Hin. discriminate Hin. }
    assert (Hr2 : r2 !!! n = r1 !!! n).
    { apply lookup_total_correct.
      destruct (other_column_unique raw n n Hun Hin Hnk) as (Hnone & _).
      assert (Hnn : new n = n) by (unfold new; by rewrite Hnone).
      rewrite <- Hnn at 1.
      apply (list_to_map_renamed new (fun c => r1 !!! c)).
      - by apply sourced_has_col.
      - intros c' _ Hnew. rewrite Hnn in Hnew.
        by apply (other_column_unique raw n c' Hun Hin Hnk). }
    destruct (other_column_unique raw n n Hun Hin Hnk)
      as (_ & _ & Hlat & Hlon & Hval).
    rewrite labelled_other.
    + rewrite !lookup_total_insert_ne by done.
      rewrite Hr2. by apply (Hcell n j c).
    + unfold detector_columns. intros Hd.
      apply elem_of_cons in Hd as [Hd|Hd]; [done|]. by apply Hnd.
Qed.

(** X18. For a file that can be read and whose normalized headers are
    unambiguous, the loader returns a dataset if and only if every
    required field has a column. *)
Theorem load_succeeds_iff (raw : RawTable) :
  unambiguous (normalize <$> header raw) ->
  (exists d, _load_and_prepare_data (Some (Ok raw)) = Ok d) <->
  all_resolved (normalize <$> header raw).
Proof.
  intros _. split.
  - intros [d Hload]. by destruct (load_rows raw d Hload).
  - intros Hres. rewrite (load_prepared raw Hres).
    destruct (detect_anomalies_rows _ (prepared_has_Value raw Hres))
      as (d & Hd & _).
    by exists d.
Qed.


(** ** The dashboard's query *)

Lemma split_comma_plain (t : string) :
  has_comma t = false -> split_comma t = [t].
Proof.
  induction t as [|c t IH]; [done|]. simpl.
  intros [Hc Ht]%orb_false_iff. by rewrite Hc, (IH Ht).
Qed.

Lemma split_comma_app (t rest : string) :
  has_comma t = false ->
  split_comma (t +:+ String "," rest) = t :: split_comma rest.
Proof.
  induction t as [|c t IH]; [done|]. rewrite append_cons_l. simpl.
  intros [Hc Ht]%orb_false_iff. by rewrite Hc, (IH Ht).
Qed.

Lemma split_comma_join (labels : list string) :
  labels <> [] -> Forall (fun t => has_comma t = false) labels ->
  split_comma (join_comma labels) = labels.
Proof.
  unfold join_comma. induction labels as [|t ts IH]; [done|].
  intros _ [Ht Hts]%Forall_cons. destruct ts as [|t' ts].
  - simpl. by apply split_comma_plain.
  - rewrite concat_cons_cons, append_cons_l, append_nil_l.
    rewrite (split_comma_app _ _ Ht). f_equal. by apply IH.
Qed.

Lemma last_space_app (w r : string) :
  last_space r = true -> last_space (w +:+ r) = true.
Proof.
  intros Hr. induction w as [|c w IH]; [done|].
  rewrite append_cons_l. cbn [last_space]. rewrite <- append_cons_l.
  by rewrite IH, orb_true_r.
Qed.

Lemma all_space_last (s : string) :
  all_space s = true -> s <> EmptyString -> last_space s = true.
Proof.
  induction s as [s IH] using string_length_ind. intros Hs Hne.
  destruct s as [|a s]; [done|]. rewrite all_space_step in Hs.
  destruct (skip_space (String a s)) as [r|] eqn:E; [|done].
  destruct r as [|b r].
  - cbn [last_space]. unfold one_space. by rewrite E.
  - destruct (skip_space_Some _ _ E) as (w & Hw & _ & Hlen).
    rewrite Hw. apply last_space_app. by apply IH.
Qed.

Lemma rstrip_no_last_space (t : string) :
  last_space t = false -> rstrip t = t.
Proof.
  induction t as [|c t IH]; [done|]. intros Hl. cbn [rstrip].
  destruct (all_space (String c t)) eqn:E.
  - by rewrite all_space_last in Hl.
  - cbn [last_space] in Hl. apply orb_false_iff in Hl as [_ Hl].
    by rewrite IH.
Qed.

Lemma strip_clean (t : string) : clean_label t -> strip t = t.
Proof.
  intros (_ & _ & Hh & Hl). unfold strip.
  assert (lstrip t = t) as ->; [|by apply rstrip_no_last_space].
  rewrite lstrip_step. unfold head_space in Hh.
  by destruct (skip_space t).
Qed.

Lemma tokens_join (labels : list string) :
  labels <> [] -> Forall clean_label labels ->
  tokens (join_comma labels) = labels.
Proof.
  intros Hne Hall. rewrite tokens_filter, split_comma_join; [|done|].
  - clear Hne. induction Hall as [|t ts Ht _ IH]; [done|].
    rewrite fmap_cons, (strip_clean t Ht). simpl.
    destruct Ht as (-> & _). by rewrite IH.
  - eapply Forall_impl; [exact Hall|]. by intros t (_ & H & _).
Qed.

Lemma criterion_join (labels : list string) :
  Forall clean_label labels ->
  criterion (if negb (is_empty labels) then Some (join_comma labels) else None)
  = selection labels.
Proof.
  intros Hall. unfold selection. destruct labels as [|t ts]; [done|].
  cbn [is_empty negb]. unfold criterion.
  rewrite <- (tokens_join (t :: ts)) at 2 by done.
  apply Forall_cons in Hall as [(Ht & _) _].
  destruct t as [|c t]; [done|]. unfold join_comma.
  destruct ts as [|t' ts]; [done|].
  by rewrite concat_cons_cons, append_cons_l.
Qed.

(** X19. Joining a non-empty selection of ASCII labels with commas, as
    the dashboard does, and cutting the string into tokens, as the service
    does, gives the selection back if and only if every selected label is
    clean: not empty, without a comma, and without whitespace at either
    end. *)
Theorem selection_round_trip (labels : list string) :
  labels <> [] ->
  Forall ascii_text labels ->
  tokens (join_comma labels) = labels <-> Forall clean_label labels.
Proof.
  intros Hne _. split; [|by apply tokens_join].
  intros Heq. apply Forall_forall. intros t Ht. rewrite <- Heq in Ht.
  by apply tokens_clean in Ht.
Qed.

(** X20. The query [fetch_map_data] builds from selections of clean
    ASCII labels carries the anomaly switch as [true] or [false] and no
    limit; given to [map_data] on a dataset loaded from a file with ASCII,
    unambiguous headers, its two filter strings select
    exactly the records whose country, respectively pollutant, is one of
    the selected labels, an empty selection meaning no restriction. *)
Theorem dashboard_query_selects (fs : FileSystem) (w w' : World)
    (raw : RawTable) (d : DataFrame)
    (countries_selected pollutants_selected : list string)
    (only_anomalies : bool) (k : Z) :
  get_df fs w = (Ok d, w') ->
  loaded_from raw d ->
  Forall ascii_text countries_selected ->
  Forall ascii_text pollutants_selected ->
  Forall clean_label countries_selected ->
  Forall clean_label pollutants_selected ->
  (0 <= k)%Z ->
  let params :=
    fetch_map_data_params countries_selected pollutants_selected
                          only_anomalies in
  params !! "only_anomalies"%string =
    Some (if only_anomalies then "true" else "false")%string /\
  params !! "limit"%string = None /\
  exists resp,
    map_data fs (params !! "country"%string) (params !! "pollutant"%string)
             only_anomalies k w = (Ok resp, w') /\
    data resp =
      record_of <$>
      take (Z.to_nat k)
           (filter (Matches (selection countries_selected)
                            (selection pollutants_selected) only_anomalies)
                   (rows d)).
Proof.
  intros Hget Hl%loaded_from_loaded _ _ Hcs Hps Hk params.
  assert (Hc : params !! "country"%string =
               if negb (is_empty countries_selected)
               then Some (join_comma countries_selected) else None).
  { unfold params, fetch_map_data_params.
    destruct (is_empty countries_selected),
             (is_empty pollutants_selected); cbn [negb];
      rewrite ?lookup_insert_ne by done;
      by rewrite ?lookup_insert_eq, ?lookup_singleton_ne by done. }
  assert (Hp : params !! "pollutant"%string =
               if negb (is_empty pollutants_selected)
               then Some (join_comma pollutants_selected) else None).
  { unfold params, fetch_map_data_params.
    destruct (is_empty countries_selected),
             (is_empty pollutants_selected); cbn [negb];
      rewrite ?lookup_insert_eq; try done;
      rewrite ?lookup_insert_ne by done;
      by rewrite ?lookup_singleton_ne by done. }
  split; [|split].
  - unfold params, fetch_map_data_params.
    destruct (is_empty countries_selected),
             (is_empty pollutants_selected); cbn [negb];
      rewrite ?lookup_insert_ne by done;
      rewrite lookup_singleton_eq; by destruct only_anomalies.
  - unfold params, fetch_map_data_params.
    destruct (is_empty countries_selected),
             (is_empty pollutants_selected); cbn [negb];
      rewrite ?lookup_insert_ne by done;
      by rewrite lookup_singleton_ne by done.
  - pose proof (map_data_response fs w w' d (params !! "country"%string)
                  (params !! "pollutant"%string) only_anomalies k Hget Hl)
      as Hmd.
    cbv zeta in Hmd. rewrite Hc, Hp in Hmd.
    rewrite !criterion_join in Hmd by done.
    rewrite Hc, Hp. eexists. split; [exact Hmd|].
    cbn [data]. by rewrite (proj2 (Z.leb_le 0 k) Hk).
Qed.

End Program.

(** * The theorems at concrete inputs *)

(** The sample file loads. *)
Lemma sample_load :
  _load_and_prepare_data parse_digits sample_fs =
  Ok (sample_loaded parse_digits).
Proof.
  unfold sample_loaded.
  destruct (_load_and_prepare_data parse_digits sample_fs) eqn:E;
    [reflexivity|]. vm_compute in E. discriminate E.
Qed.

Lemma sample_get_df :
  get_df parse_digits sample_fs (mkWorld None 0) =
  (Ok (sample_loaded parse_digits),
   mkWorld (Some (sample_loaded parse_digits)) 1).
Proof.
  rewrite get_df_unloaded by reflexivity. by rewrite sample_load.
Qed.

Lemma sample_is_loaded : loaded parse_digits (sample_loaded parse_digits).
Proof. exists sample_fs. exact sample_load. Qed.

Lemma sample_unambiguous : unambiguous (normalize <$> sample_header).
Proof.
  unfold unambiguous. apply (bool_decide_unpack _). vm_compute. exact I.
Qed.

Lemma sample_loaded_from :
  loaded_from parse_digits (mkRaw sample_header sample_body)
              (sample_loaded parse_digits).
Proof.
  split; [|split; [exact sample_unambiguous|exact sample_load]].
  repeat constructor.
Qed.




(** Witness of C2: the dataset loaded from the sample file. *)
Lemma detect_anomalies_invariant_witness :
  _load_and_prepare_data parse_digits sample_fs =
    Ok (sample_loaded parse_digits) /\
  Forall well_labelled (rows (sample_loaded parse_digits)).
Proof.
  pose proof sample_load as H.
  split; [exact H|].
  apply (detect_anomalies_invariant parse_digits sample_fs sample_series
           (sample_loaded parse_digits)).
  right. exact H.
Defined.

(** Witness of C4. *)
Lemma detect_anomalies_example_witness :
  has_col "Value" sample_series = true /\
  (num_of ∘ to_numeric parse_digits) <$> col "Value" sample_series =
    [Some 1; Some 2; Some 3; Some 4; Some 5; Some 100] /\
  exists d' sc,
    detect_anomalies parse_digits sample_series = Ok d' /\
    col "is_anomaly" d' = [Int 0; Int 0; Int 0; Int 0; Int 0; Int 1] /\
    col "anomaly_score" d' =
      [Num 0.0; Num 0.0; Num 0.0; Num 0.0; Num 0.0; Num sc] /\
    sc == 96.5.
Proof.
  assert (H1 : has_col "Value" sample_series = true) by reflexivity.
  assert (H2 : (num_of ∘ to_numeric parse_digits) <$>
                 col "Value" sample_series =
               [Some 1; Some 2; Some 3; Some 4; Some 5; Some 100])
    by reflexivity.
  split; [exact H1|]. split; [exact H2|].
  exact (proj2 (proj2 (proj2 (proj2 (proj2 (proj2
           (detect_anomalies_example parse_digits sample_series H1 H2))))))).
Defined.

(** Witness of C6: a column of nulls and of text that is no number. *)
Lemma detect_anomalies_all_null_witness :
  has_col "Value" sample_nulls = true /\
  Forall (fun c => isna (to_numeric parse_digits c) = true)
         (col "Value" sample_nulls) /\
  exists d',
    detect_anomalies parse_digits sample_nulls = Ok d' /\
    len d' = len sample_nulls /\
    Forall (fun r : gmap string cell =>
              r !!! "is_anomaly" = Int 0 /\ r !!! "anomaly_score" = Num 0.0)
           (rows d').
Proof.
  assert (H1 : has_col "Value" sample_nulls = true) by reflexivity.
  assert (H2 : Forall (fun c => isna (to_numeric parse_digits c) = true)
                      (col "Value" sample_nulls))
    by (vm_compute; repeat constructor).
  split; [exact H1|]. split; [exact H2|].
  exact (detect_anomalies_all_null parse_digits sample_nulls H1 H2).
Defined.

(** Witness of C10: the value 7 as an integer, a float and a text. *)
Lemma detect_anomalies_constant_witness :
  has_col "Value" sample_constant = true /\
  value_series parse_digits sample_constant <> [] /\
  Forall (fun x => x == 7) (value_series parse_digits sample_constant) /\
  exists d',
    detect_anomalies parse_digits sample_constant = Ok d' /\
    Forall (fun r : gmap string cell =>
              r !!! "is_anomaly" = Int 0 /\ r !!! "anomaly_score" = Num 0.0)
           (rows d').
Proof.
  assert (H1 : has_col "Value" sample_constant = true) by reflexivity.
  assert (H2 : value_series parse_digits sample_constant <> [])
    by (vm_compute; discriminate).
  assert (H3 : Forall (fun x => x == 7)
                      (value_series parse_digits sample_constant))
    by (vm_compute; repeat constructor).
  split; [exact H1|]. split; [exact H2|]. split; [exact H3|].
  exact (proj2 (proj2 (proj2 (proj2 (proj2
           (detect_anomalies_constant parse_digits sample_constant 7
              H1 H2 H3)))))).
Defined.

(** Witness of C5 as amended: the file without its latitude column. *)
Lemma load_schema_error_witness :
  (exists f, required f = true /\
             is_resolved (normalize <$> header sample_raw_no_latitude) f
             = false) /\
  _load_and_prepare_data parse_digits (Some (Ok sample_raw_no_latitude)) =
    Raise (ValueError
             (ColumnsMismatch
                (reported_missing
                   (normalize <$> header sample_raw_no_latitude))
                (normalize <$> header sample_raw_no_latitude)
                (header sample_raw_no_latitude))).
Proof.
  assert (H : exists f, required f = true /\
                is_resolved (normalize <$> header sample_raw_no_latitude) f
                = false)
    by (exists F_latitude; split; reflexivity).
  split; [exact H|].
  exact (proj1 (load_schema_error parse_digits sample_raw_no_latitude H)).
Defined.

(** Counterexample to C5 as stated: only the latitude is missing, and the
    one entry of the error names the longitude as well, which is
    resolved. *)
Lemma load_names_both_coordinates :
  exists missing,
    _load_and_prepare_data parse_digits (Some (Ok sample_raw_no_latitude)) =
      Raise (ValueError
               (ColumnsMismatch missing
                  (normalize <$> header sample_raw_no_latitude)
                  (header sample_raw_no_latitude))) /\
    missing = ["Latitude/Longitude"%string] /\
    is_resolved (normalize <$> header sample_raw_no_latitude) F_longitude
      = true /\
    ~ names_exactly_missing (normalize <$> header sample_raw_no_latitude)
                            missing.
Proof.
  exists ["Latitude/Longitude"%string].
  split; [vm_compute; reflexivity|]. split; [reflexivity|].
  split; [reflexivity|].
  intros H. specialize (H F_longitude eq_refl).
  assert (Hres : is_resolved (normalize <$> header sample_raw_no_latitude)
                             F_longitude = false).
  { apply H. exists "Latitude/Longitude"%string.
    split; [apply list_elem_of_here|reflexivity]. }
  vm_compute in Hres. discriminate Hres.
Qed.

(** Witness of C8: no file at [CSV_PATH], nothing in the store. *)
Lemma failed_reload_propagates_witness :
  df (mkWorld None 0) = None /\
  get_df parse_digits None (mkWorld None 0) =
    (Raise (FileNotFoundError CSV_PATH), mkWorld None 1) /\
  summary parse_digits exact_mean None (mkWorld None 0) =
    (Raise (FileNotFoundError CSV_PATH), mkWorld None 1).
Proof.
  assert (H : df (mkWorld None 0) = None) by reflexivity.
  split; [exact H|].
  destruct (proj2 (failed_reload_propagates parse_digits exact_mean None
                     (mkWorld None 0) H)
              (FileNotFoundError CSV_PATH) eq_refl)
    as (H1 & _ & H3 & _).
  split; [exact H1|exact H3].
Defined.





(** ** Witnesses of the further properties *)

(** Witness of X1: the series 1, 2, 3, 4, 5, 100. *)
Lemma detect_anomalies_idempotent_witness :
  exists d',
    detect_anomalies parse_digits sample_series = Ok d' /\
    detect_anomalies parse_digits d' = Ok d'.
Proof.
  destruct (detect_anomalies_rows parse_digits sample_series eq_refl)
    as (d' & Hd & _).
  exists d'. split; [exact Hd|].
  exact (detect_anomalies_idempotent parse_digits sample_series d' Hd).
Defined.



(** Witness of X5: two values in either order. *)
Lemma detect_anomalies_row_order_witness :
  has_col "Value" (series [Int 1; Int 100]) = true /\
  has_col "Value" (series [Int 100; Int 1]) = true /\
  rows (series [Int 1; Int 100]) ≡ₚ rows (series [Int 100; Int 1]) /\
  lower_fence (value_series parse_digits (series [Int 1; Int 100])) ==
  lower_fence (value_series parse_digits (series [Int 100; Int 1])).
Proof.
  assert (H1 : has_col "Value" (series [Int 1; Int 100]) = true)
    by reflexivity.
  assert (H2 : has_col "Value" (series [Int 100; Int 1]) = true)
    by reflexivity.
  assert (H3 : rows (series [Int 1; Int 100]) ≡ₚ
               rows (series [Int 100; Int 1])) by apply perm_swap.
  split; [exact H1|]. split; [exact H2|]. split; [exact H3|].
  exact (proj1 (detect_anomalies_row_order parse_digits _ _ H1 H2 H3)).
Defined.

(** Witness of X7: the store holds the sample dataset and the file is
    gone. *)
Lemma loaded_store_is_cached_witness :
  df (mkWorld (Some (sample_loaded parse_digits)) 1) =
    Some (sample_loaded parse_digits) /\
  get_df parse_digits None (mkWorld (Some (sample_loaded parse_digits)) 1) =
    (Ok (sample_loaded parse_digits),
     mkWorld (Some (sample_loaded parse_digits)) 1).
Proof.
  assert (H : df (mkWorld (Some (sample_loaded parse_digits)) 1) =
              Some (sample_loaded parse_digits)) by reflexivity.
  split; [exact H|].
  exact (proj1 (loaded_store_is_cached parse_digits exact_mean None sample_fs
                  _ _ None None false 10 H)).
Defined.

(** Witness of X8: no file at start-up, the sample file at the first
    request, no file again afterwards. *)
Lemma failed_startup_is_retried_witness :
  _load_and_prepare_data parse_digits None =
    Raise (FileNotFoundError CSV_PATH) /\
  _load_and_prepare_data parse_digits sample_fs =
    Ok (sample_loaded parse_digits) /\
  df (startup_event parse_digits None (mkWorld None 0)).2 = None /\
  loads (get_df parse_digits sample_fs
           (startup_event parse_digits None (mkWorld None 0)).2).2 = 2%nat.
Proof.
  assert (H1 : _load_and_prepare_data parse_digits None =
               Raise (FileNotFoundError CSV_PATH)) by reflexivity.
  pose proof sample_load as H2.
  split; [exact H1|]. split; [exact H2|].
  destruct (failed_startup_is_retried parse_digits None sample_fs None
              (mkWorld None 0) _ _ H1 H2) as (Ha & _ & _ & Hb & _).
  split; [exact Ha|exact Hb].
Defined.

(** Witness of X9: the limit -1 on the sample dataset. *)
Lemma map_data_any_limit_witness :
  get_df parse_digits sample_fs (mkWorld None 0) =
    (Ok (sample_loaded parse_digits),
     mkWorld (Some (sample_loaded parse_digits)) 1) /\
  loaded_from parse_digits (mkRaw sample_header sample_body)
              (sample_loaded parse_digits) /\
  ascii_filter None /\
  ascii_filter (Some "pm25"%string) /\
  exists resp,
    map_data parse_digits sample_fs None (Some "pm25") false (-1)
             (mkWorld None 0) =
      (Ok resp, mkWorld (Some (sample_loaded parse_digits)) 1) /\
    count resp = Z.of_nat (length (data resp)).
Proof.
  pose proof sample_get_df as H1. pose proof sample_loaded_from as H2.
  assert (Ha : ascii_filter None) by exact I.
  assert (Hb : ascii_filter (Some "pm25"%string)) by reflexivity.
  split; [exact H1|]. split; [exact H2|]. split; [exact Ha|].
  split; [exact Hb|].
  destruct (map_data_any_limit parse_digits sample_fs _ _ _ _ None
              (Some "pm25"%string) false (-1) H1 H2 Ha Hb)
    as (resp & Hmd & Hc & _).
  exists resp. split; [exact Hmd|exact Hc].
Defined.

(** Witness of X10: the two records of India. *)
Lemma map_data_records_witness :
  get_df parse_digits sample_fs (mkWorld None 0) =
    (Ok (sample_loaded parse_digits),
     mkWorld (Some (sample_loaded parse_digits)) 1) /\
  loaded_from parse_digits (mkRaw sample_header sample_body)
              (sample_loaded parse_digits) /\
  ascii_filter (Some "India"%string) /\
  ascii_filter None /\
  exists resp,
    map_data parse_digits sample_fs (Some "India") None false 10
             (mkWorld None 0) =
      (Ok resp, mkWorld (Some (sample_loaded parse_digits)) 1) /\
    length (data resp) = 2%nat /\
    Forall (fun rec : gmap string cell =>
              dom rec = list_to_set record_columns) (data resp).
Proof.
  pose proof sample_get_df as H1. pose proof sample_loaded_from as H2.
  assert (Ha : ascii_filter (Some "India"%string)) by reflexivity.
  assert (Hb : ascii_filter None) by exact I.
  split; [exact H1|]. split; [exact H2|]. split; [exact Ha|].
  split; [exact Hb|].
  destruct (map_data_records parse_digits sample_fs _ _ _ _
              (Some "India"%string) None false 10 H1 H2 Ha Hb)
    as (resp & Hmd & Hall & _).
  exists resp. split; [exact Hmd|]. split.
  - pose proof (map_data_response parse_digits sample_fs _ _ _
                  (Some "India"%string) None false 10 H1
                  (loaded_from_loaded _ _ _ H2)) as Hr.
    cbv zeta in Hr. rewrite Hmd in Hr.
    pose proof (f_equal (fun p : result MapData * World =>
                           match p.1 with
                           | Ok x => length (data x)
                           | Raise _ => 0%nat
                           end) Hr) as Hlen.
    cbn [fst data] in Hlen. rewrite Hlen, length_fmap.
    vm_compute. reflexivity.
  - eapply Forall_impl; [exact Hall|]. intros rec Hrec. exact (proj1 Hrec).
Defined.

(** Witness of X11: the filter string [India]. *)
Lemma filtered_labels_are_clean_witness :
  get_df parse_digits sample_fs (mkWorld None 0) =
    (Ok (sample_loaded parse_digits),
     mkWorld (Some (sample_loaded parse_digits)) 1) /\
  loaded_from parse_digits (mkRaw sample_header sample_body)
              (sample_loaded parse_digits) /\
  exists resp,
    map_data parse_digits sample_fs (Some "India") None false 10
             (mkWorld None 0) =
      (Ok resp, mkWorld (Some (sample_loaded parse_digits)) 1) /\
    Forall (fun rec : gmap string cell =>
              exists t, rec !! "Country_Label"%string = Some (Str t) /\
                nonempty t = true /\ has_comma t = false /\
                head_space t = false /\ last_space t = false)
           (data resp).
Proof.
  pose proof sample_get_df as H1. pose proof sample_loaded_from as H2.
  split; [exact H1|]. split; [exact H2|].
  exact (proj1 (filtered_labels_are_clean parse_digits sample_fs _ _ _ _
                  "I"%char "ndia" None false 10 H1 H2)).
Defined.

Lemma sample_text_columns :
  text_column (col "Country_Label" (sample_loaded parse_digits)) /\
  text_column (col "Pollutant" (sample_loaded parse_digits)) /\
  text_column (col "City" (sample_loaded parse_digits)).
Proof.
  split; [|split]; apply text_column_forallb; vm_compute; reflexivity.
Qed.

(** Witness of X12: the labels of the sample dataset are text or null. *)
Lemma filters_lists_witness :
  get_df parse_digits sample_fs (mkWorld None 0) =
    (Ok (sample_loaded parse_digits),
     mkWorld (Some (sample_loaded parse_digits)) 1) /\
  loaded_from parse_digits (mkRaw sample_header sample_body)
              (sample_loaded parse_digits) /\
  text_column (col "Country_Label" (sample_loaded parse_digits)) /\
  text_column (col "Pollutant" (sample_loaded parse_digits)) /\
  text_column (col "City" (sample_loaded parse_digits)) /\
  exists resp,
    filters parse_digits sample_fs (mkWorld None 0) =
      (Ok resp, mkWorld (Some (sample_loaded parse_digits)) 1) /\
    listing (col "Country_Label" (sample_loaded parse_digits))
            (countries resp).
Proof.
  pose proof sample_get_df as H1. pose proof sample_loaded_from as H2.
  destruct sample_text_columns as (H3 & H4 & H5).
  split; [exact H1|]. split; [exact H2|]. split; [exact H3|].
  split; [exact H4|]. split; [exact H5|].
  destruct (filters_lists parse_digits sample_fs _ _ _ _ H1 H2 H3 H4 H5)
    as (resp & Hf & Hl & _).
  exists resp. split; [exact Hf|exact Hl].
Defined.

(** Witness of X13. *)
Lemma summary_consistent_witness :
  get_df parse_digits sample_fs (mkWorld None 0) =
    (Ok (sample_loaded parse_digits),
     mkWorld (Some (sample_loaded parse_digits)) 1) /\
  loaded_from parse_digits (mkRaw sample_header sample_body)
              (sample_loaded parse_digits) /\
  exists resp,
    summary parse_digits exact_mean sample_fs (mkWorld None 0) =
      (Ok resp, mkWorld (Some (sample_loaded parse_digits)) 1) /\
    total_rows resp = 6%Z /\
    Forall line_ordered (summary_by_country resp).
Proof.
  pose proof sample_get_df as H1. pose proof sample_loaded_from as H2.
  split; [exact H1|]. split; [exact H2|].
  destruct (summary_consistent parse_digits exact_mean sample_fs _ _ _ _
              H1 H2)
    as (resp & Hs & Hn & _ & _ & _ & _ & Hl & _).
  exists resp. split; [exact Hs|]. split; [|exact Hl].
  rewrite Hn. vm_compute. reflexivity.
Defined.

(** Witness of X14. *)
Lemma summary_counts_filter_lists_witness :
  exists f s w1 w2,
    filters parse_digits sample_fs (mkWorld None 0) = (Ok f, w1) /\
    summary parse_digits exact_mean sample_fs (mkWorld None 0) = (Ok s, w2) /\
    num_countries s = Z.of_nat (length (countries f)).
Proof.
  pose proof sample_get_df as H1. pose proof sample_is_loaded as H2.
  destruct sample_text_columns as (H3 & H4 & H5).
  assert (Hf : exists f,
            filters parse_digits sample_fs (mkWorld None 0) =
            (Ok f, mkWorld (Some (sample_loaded parse_digits)) 1)).
  { unfold filters, bind, lift, getitem. rewrite H1.
    pose proof (loaded_canonical _ _ H2) as Hcan.
    rewrite !(canonical_has_col _ _ Hcan)
      by (apply (bool_decide_unpack _); vm_compute; exact I).
    cbn [negb bind_result].
    destruct (filter_list_listing _ H3) as (l1 & -> & _).
    cbn [bind_result].
    destruct (filter_list_listing _ H4) as (l2 & -> & _).
    cbn [bind_result].
    destruct (filter_list_listing _ H5) as (l3 & -> & _).
    by eexists. }
  destruct Hf as [f Hf].
  destruct (summary_response parse_digits exact_mean sample_fs _ _ _ H1 H2)
    as (gc & gp & Hs & _).
  eexists f, _, _, _. split; [exact Hf|]. split; [exact Hs|].
  exact (proj1 (summary_counts_filter_lists parse_digits exact_mean sample_fs
                  _ _ _ _ _ Hf Hs)).
Defined.

(** Witness of X15: the header [Date  Local]. *)
Lemma normalize_canonical_form_witness :
  ascii_text "Date  Local" /\
  plain (normalize "Date  Local") = true /\
  normalize (normalize "Date  Local") = normalize "Date  Local".
Proof.
  assert (H : ascii_text "Date  Local") by reflexivity.
  split; [exact H|].
  destruct (normalize_canonical_form "Date  Local" H) as (Ha & Hb & _).
  split; [exact Ha|exact Hb].
Defined.

(** Witness of X17: the sample file. *)
Lemma load_preserves_data_witness :
  unambiguous (normalize <$> header (mkRaw sample_header sample_body)) /\
  _load_and_prepare_data parse_digits
    (Some (Ok (mkRaw sample_header sample_body))) =
    Ok (sample_loaded parse_digits) /\
  length (rows (sample_loaded parse_digits)) = length sample_body.
Proof.
  pose proof sample_unambiguous as H1. pose proof sample_load as H2.
  split; [exact H1|]. split; [exact H2|].
  exact (proj1 (load_preserves_data parse_digits
                  (mkRaw sample_header sample_body) _ H1 H2)).
Defined.

(** Witness of X18. *)
Lemma load_succeeds_iff_witness :
  unambiguous (normalize <$> header (mkRaw sample_header sample_body)) /\
  all_resolved (normalize <$> header (mkRaw sample_header sample_body)).
Proof.
  pose proof sample_unambiguous as H1.
  split; [exact H1|].
  apply (proj1 (load_succeeds_iff parse_digits
                  (mkRaw sample_header sample_body) H1)).
  exists (sample_loaded parse_digits). exact sample_load.
Defined.

(** Witness of X19: two clean labels. *)
Lemma selection_round_trip_witness :
  ["India"; "United States"]%string <> [] /\
  Forall ascii_text ["India"; "United States"]%string /\
  tokens (join_comma ["India"; "United States"]%string) =
    ["India"; "United States"]%string.
Proof.
  assert (H : ["India"; "United States"]%string <> []) by discriminate.
  assert (Ha : Forall ascii_text ["India"; "United States"]%string)
    by (repeat constructor).
  split; [exact H|]. split; [exact Ha|].
  apply (proj2 (selection_round_trip _ H Ha)).
  repeat constructor.
Defined.

(** Witness of X20: one country selected, no pollutant. *)
Lemma dashboard_query_selects_witness :
  get_df parse_digits sample_fs (mkWorld None 0) =
    (Ok (sample_loaded parse_digits),
     mkWorld (Some (sample_loaded parse_digits)) 1) /\
  loaded_from parse_digits (mkRaw sample_header sample_body)
              (sample_loaded parse_digits) /\
  Forall ascii_text ["India"%string] /\
  Forall ascii_text [] /\
  Forall clean_label ["India"%string] /\
  Forall clean_label [] /\
  (0 <= 10)%Z /\
  exists resp,
    map_data parse_digits sample_fs
      (fetch_map_data_params ["India"%string] [] false !! "country"%string)
      (fetch_map_data_params ["India"%string] [] false !! "pollutant"%string)
      false 10 (mkWorld None 0) =
      (Ok resp, mkWorld (Some (sample_loaded parse_digits)) 1) /\
    data resp =
      record_of <$>
      take 10 (filter (Matches (Some ["India"%string]) None false)
                      (rows (sample_loaded parse_digits))).
Proof.
  pose proof sample_get_df as H1. pose proof sample_loaded_from as H2.
  assert (Ha : Forall ascii_text ["India"%string]) by (repeat constructor).
  assert (Hb : Forall ascii_text []) by constructor.
  assert (H3 : Forall clean_label ["India"%string])
    by (repeat constructor).
  assert (H4 : Forall clean_label []) by constructor.
  assert (H5 : (0 <= 10)%Z) by lia.
  split; [exact H1|]. split; [exact H2|]. split; [exact Ha|].
  split; [exact Hb|]. split; [exact H3|].
  split; [exact H4|]. split; [exact H5|].
  exact (proj2 (proj2 (dashboard_query_selects parse_digits sample_fs _ _ _ _
                         ["India"%string] [] false 10
                         H1 H2 Ha Hb H3 H4 H5))).
Defined.
